(** * ISO 20022 pacs.008 prototype: dataset preparation and validation rules

    A shallow embedding of
    - the rule surface [application.yml] of the pacs.008 generator
      (purpose codes, country/currency table, retry count), and
    - the dataset-preparation cells of the pacs.008 training notebooks
      (feature selection, rename, type assignment, label encoding,
      train/test split, CSV output),
    - the job-monitoring and inference-container cells of the AutoML
      notebook, and
    - the LEI sample and the synthetic BIC records of the dataset
      notebook,
    followed by the properties established about them.

    The notebooks are sequences of pandas / scikit-learn calls.  Each call
    is embedded as the function it denotes at the arguments the notebook
    passes, with Python exceptions as an explicit error result.  The
    library behaviour followed is that of scikit-learn 0.23 (the notebook
    pins the container [0.23-1]) and of pandas 1.x. *)

From Stdlib Require Import ZArith String Ascii List Floats Sorting.Sorted.
From Stdlib Require Import Decimal DecimalString DecimalPos DecimalZ.
From stdpp Require Import base option list sorting strings gmap.

Open Scope string_scope.
Open Scope list_scope.

(* ===================================================================== *)
(** * Part I. Definitions *)
(* ===================================================================== *)

(** ** Lexicographic order on strings

    Python compares [str] values code point by code point; on the UTF-8
    bytes of a Rocq [string] this is [String.compare]. *)

Definition str_lt (a b : string) : Prop := String.compare a b = Lt.

Definition str_le (a b : string) : Prop := String.compare a b ≠ Gt.

#[global] Instance str_lt_dec a b : Decision (str_lt a b).
Proof. unfold str_lt. apply _. Defined.

#[global] Instance str_le_dec a b : Decision (str_le a b).
Proof. unfold str_le. apply _. Defined.

Fixpoint strictly_ascending (l : list string) : bool :=
  match l with
  | [] => true
  | a :: tl =>
      match tl with
      | [] => true
      | b :: _ => String.ltb a b && strictly_ascending tl
      end
  end.

(** ** The rule surface: [application.yml], key [rapide] *)

Module Config.

Record CurrencyEntry := { Country : string; Code : string }.

Record ValidationSchemaEntry := { Message : string; FileName : string }.

Record Rapide := {
  PurposeCode : list string;
  Currency : list CurrencyEntry;
  ValidationSchema : list ValidationSchemaEntry;
  InvalidMessageRetry : Z
}.

Definition rapide : Rapide := {|
  PurposeCode :=
    [ "BONU"; "CASH"; "CBLK"; "CCRD"; "CORT"; "DCRD"; "DIVI"; "DVPM";
      "EPAY"; "FCIN"; "FCOL"; "GOVT"; "HEDG"; "ICCP"; "IDCP"; "INTC";
      "INTE"; "LOAN"; "MP2B"; "MP2P"; "OTHR"; "PENS"; "RPRE"; "RRCT";
      "RVPM"; "SALA"; "SECU"; "SSBE"; "SUPP"; "TAXS"; "TRAD"; "TREA";
      "VATX"; "WHLD" ];
  Currency :=
    [ {| Country := "US"; Code := "USD" |};
      {| Country := "UK"; Code := "GBP" |};
      {| Country := "GB"; Code := "GBP" |};
      {| Country := "IN"; Code := "INR" |};
      {| Country := "MX"; Code := "MXN" |};
      {| Country := "CA"; Code := "CAD" |};
      {| Country := "IE"; Code := "EUR" |};
      {| Country := "TH"; Code := "THB" |} ];
  ValidationSchema :=
    [ {| Message := "00800108";
         FileName := "CBPRPlus_pacs_008_001_08_20210413_0914.xsd" |} ];
  InvalidMessageRetry := 10
|}.

(** The currencies listed for a country, in table order. *)
Definition currencies_of (cfg : Rapide) (country : string) : list string :=
  Code <$> filter (λ e, Country e = country) (Currency cfg).

(** Largest value of a 32-bit signed integer, the bound used for the
    retry count. *)
Definition int_max : Z := 2 ^ 31 - 1.

End Config.

(** ** Python exceptions as results *)

Inductive exn :=
| KeyError (what : string)
| ValueError (what : string)
| OverflowError (what : string)
| IndexError.

Inductive result (A : Type) :=
| Ok (a : A)
| Raise (e : exn).
Arguments Ok {A} a.
Arguments Raise {A} e.

#[global] Instance result_bind : MBind result := λ A B k r,
  match r with
  | Ok a => k a
  | Raise e => Raise e
  end.

#[global] Instance result_ret : MRet result := λ A a, Ok a.

(** The error taxonomy of the specification, and the Python exception each
    kind stands for. *)
Inductive error_kind := SchemaMismatch | TypeCoercionError | OtherError.

Definition error_kind_of (e : exn) : error_kind :=
  match e with
  | KeyError _ => SchemaMismatch
  | ValueError _ | OverflowError _ => TypeCoercionError
  | IndexError => OtherError
  end.

(** ** Python floats used as sizes

    [test_size] is a Python [float] (an IEEE binary64); the product
    [test_size * n_samples] and [math.ceil] are computed on doubles. *)

Definition float_of_Z (z : Z) : float :=
  SF2Prim (binary_normalize prec emax z 0 false).

(** [math.ceil], [math.floor]: undefined ([None]) on infinities and NaN. *)
Definition float_ceil (x : float) : option Z :=
  match Prim2SF x with
  | S754_zero _ => Some 0%Z
  | S754_finite s m e =>
      let v := if s then Z.neg m else Z.pos m in
      Some (if (0 <=? e)%Z then v * 2 ^ e else - ((- v) / 2 ^ (- e)))%Z
  | _ => None
  end.

Definition float_floor (x : float) : option Z :=
  match Prim2SF x with
  | S754_zero _ => Some 0%Z
  | S754_finite s m e =>
      let v := if s then Z.neg m else Z.pos m in
      Some (if (0 <=? e)%Z then v * 2 ^ e else v / 2 ^ (- e))%Z
  | _ => None
  end.

(** Python's [round(x)]: nearest integer, ties to the even one. *)
Definition float_round (x : float) : option Z :=
  match Prim2SF x with
  | S754_zero _ => Some 0%Z
  | S754_finite s m e =>
      let v := if s then Z.neg m else Z.pos m in
      Some (if (0 <=? e)%Z then v * 2 ^ e
            else
              let d := (2 ^ (- e))%Z in
              let q := (v / d)%Z in
              let r := (2 * (v mod d))%Z in
              if (r <? d)%Z then q
              else if (d <? r)%Z then q + 1
              else if Z.even q then q else q + 1)%Z
  | _ => None
  end.

(** The double nearest to 0.2, the [test_size] the notebooks pass. *)
Definition test_size_020 : float := 0x1.999999999999ap-3%float.

(** ** The random generator behind [train_test_split]

    [numpy.random.RandomState] is a Mersenne Twister; its bit stream is not
    reproduced here.  What the split needs is its interface: seeding, and
    [permutation n], which returns a rearrangement of [0 .. n-1] and
    advances the generator. *)

Class RandomState := {
  rng : Type;
  seed_rng : Z → rng;
  permutation : rng → nat → list nat * rng
}.

Class RandomStateLaws `{RandomState} :=
  permutation_perm : ∀ g n, (permutation g n).1 ≡ₚ seq 0 n.

(** A small generator satisfying the interface: the state is a counter,
    even states enumerate forwards and odd states backwards. *)
Definition counter_permutation (g : Z) (n : nat) : list nat * Z :=
  (if Z.even g then seq 0 n else reverse (seq 0 n), (g + 1)%Z).

Definition counter_rng : RandomState :=
  {| rng := Z; seed_rng := λ seed, seed; permutation := counter_permutation |}.

(** ** [sklearn.model_selection.train_test_split] *)

(** [test_size] / [train_size]: [None], a float fraction or an int count. *)
Inductive size_arg :=
| SzNone
| SzFloat (f : float)
| SzInt (n : Z).

(** [random_state]: [None] (numpy's global generator) or an int seed. *)
Inductive random_state_arg :=
| RsNone
| RsInt (seed : Z).

Definition size_out_of_range (n_samples : Z) (sz : size_arg) : bool :=
  match sz with
  | SzInt k => (n_samples <=? k)%Z || (k <=? 0)%Z
  | SzFloat f => (f <=? 0)%float || (1 <=? f)%float
  | SzNone => false
  end.

Definition float_sum_gt_one (test_size train_size : size_arg) : bool :=
  match test_size, train_size with
  | SzFloat a, SzFloat b => (1 <? b + a)%float
  | _, _ => false
  end.

(** [_validate_shuffle_split(n_samples, test_size, train_size,
    default_test_size)]: the numbers of train and test rows. *)
Definition validate_shuffle_split (n_samples : nat)
    (test_size train_size : size_arg) (default_test_size : size_arg)
  : result (Z * Z) :=
  let n := Z.of_nat n_samples in
  let test_size :=
    match test_size, train_size with
    | SzNone, SzNone => default_test_size
    | _, _ => test_size
    end in
  if size_out_of_range n test_size then Raise (ValueError "test_size")
  else if size_out_of_range n train_size then Raise (ValueError "train_size")
  else if float_sum_gt_one test_size train_size
  then Raise (ValueError "train_size + test_size")
  else
    let count (round : float → option Z) (sz : size_arg) : result (option Z) :=
      match sz with
      | SzFloat f =>
          match round (f * float_of_Z n)%float with
          | Some k => Ok (Some k)
          | None => Raise (ValueError "cannot convert float to integer")
          end
      | SzInt k => Ok (Some k)
      | SzNone => Ok None
      end in
    n_test ← count float_ceil test_size;
    n_train ← count float_floor train_size;
    '(n_train, n_test) ←
      match n_train, n_test with
      | Some tr, Some te => Ok (tr, te)
      | None, Some te => Ok (n - te, te)%Z
      | Some tr, None => Ok (tr, n - tr)%Z
      | None, None => Raise (ValueError "test_size")
      end;
    if (n <? n_train + n_test)%Z then Raise (ValueError "sum of sizes")
    else if (n_train =? 0)%Z then Raise (ValueError "empty train set")
    else Ok (n_train, n_test).

(** [_safe_indexing(X, indices)]: the rows at the given positions. *)
Definition safe_indexing {A} (X : list A) (indices : list nat)
  : result (list A) :=
  mapM (λ i, match X !! i with
                 | Some x => Ok x
                 | None => Raise IndexError
                 end) indices.

Section Split.
Context `{RandomState}.

(** [check_random_state]: an int seeds a fresh generator,
    [np.random.RandomState(seed)], which takes the seeds 0 .. 2**32 - 1
    and raises [ValueError] for any other int; [None] is the process-wide
    generator [np.random.mtrand._rand]. *)
Definition check_random_state (random_state : random_state_arg) (global : rng)
  : result rng :=
  match random_state with
  | RsNone => Ok global
  | RsInt seed =>
      if bool_decide (0 ≤ seed < 2 ^ 32)%Z then Ok (seed_rng seed)
      else Raise (ValueError "Seed must be between 0 and 2**32 - 1")
  end.

(** First split of [ShuffleSplit(test_size=n_test, train_size=n_train,
    random_state)]: the positions of the train and of the test rows, and
    the global generator afterwards.  The sizes are validated before the
    generator is made. *)
Definition shuffle_split_indices (n_samples : nat) (n_test n_train : Z)
    (random_state : random_state_arg) (global : rng)
  : result (list nat * list nat) * rng :=
  match validate_shuffle_split n_samples (SzInt n_test) (SzInt n_train)
          (SzFloat 0x1.999999999999ap-4%float) with
  | Raise e => (Raise e, global)
  | Ok (n_train, n_test) =>
      match check_random_state random_state global with
      | Raise e => (Raise e, global)
      | Ok generator =>
          let '(perm, g') := permutation generator n_samples in
          let ind_test := take (Z.to_nat n_test) perm in
          let ind_train :=
            take (Z.to_nat n_train) (drop (Z.to_nat n_test) perm) in
          (Ok (ind_train, ind_test),
           match random_state with
           | RsNone => g'
           | RsInt _ => global
           end)
      end
  end.

(** [train_test_split(X, test_size=.., train_size=.., random_state=..,
    shuffle=True)], which returns the train part before the test part. *)
Definition train_test_split {A} (X : list A) (test_size train_size : size_arg)
    (random_state : random_state_arg) (global : rng)
  : result (list A * list A) * rng :=
  match validate_shuffle_split (length X) test_size train_size
          (SzFloat 0.25%float) with
  | Raise e => (Raise e, global)
  | Ok (n_train, n_test) =>
      let '(r, g') :=
        shuffle_split_indices (length X) n_test n_train random_state global in
      (' (ind_train, ind_test) ← r;
       train ← safe_indexing X ind_train;
       test ← safe_indexing X ind_test;
       Ok (train, test),
       g')
  end.

(** The split operation of the notebooks:
    [train_test_split(df, df['y_target'], test_size=f, random_state=seed,
    shuffle=True)]. *)
Definition split {A} (records : list A) (test_fraction : float) (seed : Z)
    (global : rng) : result (list A * list A) * rng :=
  train_test_split records (SzFloat test_fraction) SzNone (RsInt seed) global.

End Split.

(** ** [sklearn.preprocessing.LabelEncoder]

    The target column [y_target] is read from the labeled CSV as a column
    of strings, so [fit_transform] takes the pure-Python path of
    [_encode]: [uniques = sorted(set(values))],
    [table = {val: i for i, val in enumerate(uniques)}],
    [encoded = [table[v] for v in values]]. *)

Definition sorted_set (values : list string) : list string :=
  merge_sort str_le (remove_dups values).

Module LabelEncoder.

Definition table (uniques : list string) : gmap string nat :=
  list_to_map (zip uniques (seq 0 (length uniques))).

Definition fit_transform (y : list string) : result (list string * list nat) :=
  let uniques := sorted_set y in
  encoded ← mapM (λ v, match table uniques !! v with
                       | Some i => Ok i
                       | None =>
                           Raise (ValueError "y contains previously unseen labels")
                       end) y;
  Ok (uniques, encoded).

End LabelEncoder.

(** The label map of [encode_target]: the table built while fitting. *)
Definition label_map (y : list string) : gmap string nat :=
  LabelEncoder.table (sorted_set y).

(** ** Python numeric literals

    [int(s)] and [float(s)] on a [str]: surrounding whitespace is stripped,
    a sign may follow, digits may be grouped by single underscores.  The
    grammar is the one of the Python language reference, on ASCII. *)

Definition is_digit (c : ascii) : bool :=
  ((48 <=? nat_of_ascii c) && (nat_of_ascii c <=? 57))%nat.

Definition is_space (c : ascii) : bool :=
  let n := nat_of_ascii c in
  (((9 <=? n) && (n <=? 13)) || (n =? 32))%nat.

Definition lower (c : ascii) : ascii :=
  let n := nat_of_ascii c in
  if ((65 <=? n) && (n <=? 90))%nat then ascii_of_nat (n + 32) else c.

Fixpoint lstrip (l : list ascii) : list ascii :=
  match l with
  | c :: tl => if is_space c then lstrip tl else l
  | [] => []
  end.

Fixpoint rstrip (l : list ascii) : list ascii :=
  match l with
  | c :: tl =>
      match rstrip tl with
      | [] => if is_space c then [] else [c]
      | r => c :: r
      end
  | [] => []
  end.

Definition strip (l : list ascii) : list ascii := rstrip (lstrip l).

(** The rest of a digit part once its first digit is read: the digits read
    (underscores dropped) and what follows them. *)
Fixpoint digitpart_tail (l : list ascii) : list ascii * list ascii :=
  match l with
  | c :: tl =>
      if is_digit c then
        let '(ds, r) := digitpart_tail tl in (c :: ds, r)
      else if Ascii.eqb c "_" then
        match tl with
        | d :: tl' =>
            if is_digit d then
              let '(ds, r) := digitpart_tail tl' in (d :: ds, r)
            else ([], l)
        | [] => ([], l)
        end
      else ([], l)
  | [] => ([], [])
  end.

Definition digitpart (l : list ascii) : option (list ascii * list ascii) :=
  match l with
  | c :: tl =>
      if is_digit c then
        let '(ds, r) := digitpart_tail tl in Some (c :: ds, r)
      else None
  | [] => None
  end.

(** An optional sign: whether it is a minus, and the rest. *)
Definition sign_opt (l : list ascii) : bool * list ascii :=
  match l with
  | c :: tl =>
      if Ascii.eqb c "-" then (true, tl)
      else if Ascii.eqb c "+" then (false, tl)
      else (false, l)
  | [] => (false, [])
  end.

Definition digits_value (ds : list ascii) : Z :=
  match NilEmpty.uint_of_string (string_of_list_ascii ds) with
  | Some u => Z.of_uint u
  | None => 0
  end.

(** [int(s)]: [None] stands for [ValueError: invalid literal for int()]. *)
Definition parse_int_literal (s : string) : option Z :=
  let '(neg, l) := sign_opt (strip (list_ascii_of_string s)) in
  match digitpart l with
  | Some (ds, []) => Some (if neg then - digits_value ds else digits_value ds)%Z
  | _ => None
  end.

(** [str(n)] for an integer. *)
Definition str_of_Z (z : Z) : string := NilZero.string_of_int (Z.to_int z).

Definition exponent_opt (l : list ascii) : bool :=
  match l with
  | [] => true
  | c :: tl =>
      if Ascii.eqb (lower c) "e" then
        match digitpart (sign_opt tl).2 with
        | Some (_, []) => true
        | _ => false
        end
      else false
  end.

Definition is_nan_word (l : list ascii) : bool :=
  bool_decide (string_of_list_ascii (lower <$> l) = "nan").

Definition is_inf_word (l : list ascii) : bool :=
  bool_decide (string_of_list_ascii (lower <$> l) = "inf")
  || bool_decide (string_of_list_ascii (lower <$> l) = "infinity").

Definition is_floatnumber (l : list ascii) : bool :=
  match digitpart l with
  | Some (_, r) =>
      match r with
      | c :: r' =>
          if Ascii.eqb c "." then
            match digitpart r' with
            | Some (_, r'') => exponent_opt r''
            | None => exponent_opt r'
            end
          else exponent_opt r
      | [] => true
      end
  | None =>
      match l with
      | c :: r =>
          if Ascii.eqb c "." then
            match digitpart r with
            | Some (_, r') => exponent_opt r'
            | None => false
            end
          else false
      | [] => false
      end
  end.

(** Whether [float(s)] accepts [s]. *)
Definition is_float_literal (s : string) : bool :=
  let l := (sign_opt (strip (list_ascii_of_string s))).2 in
  is_nan_word l || is_inf_word l || is_floatnumber l.

(** ** Doubles held in columns

    A numeric column holds IEEE doubles.  Their printing ([str], the
    shortest repr) and the rounding of a decimal literal to a double are
    taken as an interface; the literals accepted are those of
    [is_float_literal]. *)

Class Float64 := {
  float64 : Type;
  float64_eq_dec :: EqDecision float64;
  nan : float64;
  float_str : float64 → string;
  float_of_literal : string → float64
}.

Class Float64Laws `{Float64} := {
  float_str_nan : float_str nan = "nan";
  float_str_literal : ∀ x, is_float_literal (float_str x) = true;
  float_str_roundtrip : ∀ x, float_of_literal (float_str x) = x
}.

(** A three-point instance (NaN, 1.5 and 5.0), enough to run the
    definitions on the sample data. *)
Variant sample_floats := F_nan | F_1_5 | F_5.

#[global] Instance sample_floats_eq_dec : EqDecision sample_floats.
Proof. solve_decision. Defined.

Definition sample_float64 : Float64 := {|
  float64 := sample_floats;
  nan := F_nan;
  float_str := λ x,
    match x with F_nan => "nan" | F_1_5 => "1.5" | F_5 => "5.0" end;
  float_of_literal := λ s,
    if String.eqb s "1.5" then F_1_5
    else if String.eqb s "5.0" || String.eqb s "5" then F_5
    else F_nan
|}.

(** ** Data frames

    A frame is an ordered list of named columns; a column ([Series]) has a
    dtype and one cell per row.  A missing value is the double NaN, as
    [read_csv] produces it.  Column names are unique in a frame read by
    [read_csv]; [df[col]] and [df[col] = s] are modelled for that case
    (first column of the name). *)

Fixpoint for_each {S A} (l : list A) (body : S → A → result S) (s : S)
  : result S :=
  match l with
  | [] => Ok s
  | a :: tl => s' ← body s a; for_each tl body s'
  end.

Definition int64_min : Z := - 2 ^ 63.
Definition int64_max : Z := 2 ^ 63 - 1.

Inductive dtype :=
| DObject
| DInt64
| DFloat64
| DBool
| DCategory (categories : list string)
| DString.

(** The four kinds a field is given in the type-assignment cell. *)
Inductive kind := Categorical | Integer | Numeric | Text.

Record Schema := {
  categorical_fts : list string;
  integer_fts : list string;
  numeric_fts : list string;
  text_fts : list string
}.

Definition schema_fields (schema : Schema) : list string :=
  categorical_fts schema ++ integer_fts schema
  ++ numeric_fts schema ++ text_fts schema.

(** The iterations of the four loops, in the order they run. *)
Definition type_steps (schema : Schema) : list (kind * string) :=
  (pair Categorical <$> categorical_fts schema)
  ++ (pair Integer <$> integer_fts schema)
  ++ (pair Numeric <$> numeric_fts schema)
  ++ (pair Text <$> text_fts schema).

Inductive errors_arg := ErrorsIgnore | ErrorsRaise.

Inductive reader_state := FieldStart | InField | InQuoted | QuoteInQuoted.

Definition dquote : ascii := ascii_of_nat 34.
Definition newline : ascii := ascii_of_nat 10.
Definition carriage_return : ascii := ascii_of_nat 13.

Section Frames.
Context `{Float64}.

Inductive cell :=
| Str (s : string)
| Int (z : Z)
| Bool (b : bool)
| Flt (x : float64).

Record Series := { dtype_of : dtype; values : list cell }.

#[local] Abbreviation DataFrame := (list (string * Series)).

(** [str(v)] *)
Definition str (c : cell) : string :=
  match c with
  | Str s => s
  | Int z => str_of_Z z
  | Bool b => if b then "True" else "False"
  | Flt x => float_str x
  end.

(** [series.astype(str)]: the values of an object column of strings. *)
Definition astype_str (s : Series) : list string := str <$> values s.

(** [.astype('category')], [.astype('int64')], [.astype('float64')] and
    [.astype('string')] applied to an object column of strings. *)
Definition astype_from_str (k : kind) (strs : list string) : result Series :=
  match k with
  | Categorical =>
      Ok {| dtype_of := DCategory (sorted_set strs); values := Str <$> strs |}
  | Integer =>
      cells ← mapM (λ s, match parse_int_literal s with
                         | Some z =>
                             if bool_decide (int64_min ≤ z ≤ int64_max)%Z
                             then Ok (Int z)
                             else Raise (OverflowError s)
                         | None => Raise (ValueError s)
                         end) strs;
      Ok {| dtype_of := DInt64; values := cells |}
  | Numeric =>
      cells ← mapM (λ s, if is_float_literal s
                         then Ok (Flt (float_of_literal s))
                         else Raise (ValueError s)) strs;
      Ok {| dtype_of := DFloat64; values := cells |}
  | Text =>
      Ok {| dtype_of := DString; values := Str <$> strs |}
  end.

(** [df[col]] *)
Fixpoint getitem (df : DataFrame) (col : string) : result Series :=
  match df with
  | [] => Raise (KeyError col)
  | (c, s) :: tl => if decide (c = col) then Ok s else getitem tl col
  end.

(** [df[col] = s]: replaces the column, or appends a new one. *)
Fixpoint setitem (df : DataFrame) (col : string) (s : Series) : DataFrame :=
  match df with
  | [] => [(col, s)]
  | (c, s0) :: tl =>
      if decide (c = col) then (c, s) :: tl else (c, s0) :: setitem tl col s
  end.

(** [df.rename(columns=.., errors=..)] *)
Definition rename (df : DataFrame) (columns : gmap string string)
    (errors : errors_arg) : result DataFrame :=
  let renamed := (λ '(c, s), (default c (columns !! c), s)) <$> df in
  match errors with
  | ErrorsIgnore => Ok renamed
  | ErrorsRaise =>
      if decide (dom columns ⊆ list_to_set df.*1)
      then Ok renamed
      else Raise (KeyError "not found in axis")
  end.

(** The rename cell: [selected_df.rename(columns={...})], with the default
    [errors='ignore']. *)
Definition rename_fields (df : DataFrame) (rename_map : gmap string string)
  : result DataFrame :=
  rename df rename_map ErrorsIgnore.

(** One iteration of a type-assignment loop:
    [df[col] = df[col].astype(str).astype(<kind>)]. *)
Definition assign_column (k : kind) (df : DataFrame) (col : string)
  : result DataFrame :=
  s ← getitem df col;
  s' ← astype_from_str k (astype_str s);
  Ok (setitem df col s').

(** The four loops of the type-assignment cell. *)
Definition assign_types (schema : Schema) (df : DataFrame) : result DataFrame :=
  df ← for_each (categorical_fts schema) (assign_column Categorical) df;
  df ← for_each (integer_fts schema) (assign_column Integer) df;
  df ← for_each (numeric_fts schema) (assign_column Numeric) df;
  for_each (text_fts schema) (assign_column Text) df.

(** *** [to_csv(path, header=.., index=False)]

    The text written, with the defaults of [to_csv] on the notebook's
    Linux host: fields separated by commas, lines ended by a line feed,
    a missing value written as the empty field ([na_rep='']), and a field
    quoted when it holds a comma, a quote or a line feed
    ([csv.QUOTE_MINIMAL]), the quotes inside it doubled. *)

Definition needs_quote (s : string) : bool :=
  existsb (λ c, Ascii.eqb c "," || Ascii.eqb c dquote || Ascii.eqb c newline)
          (list_ascii_of_string s).

Fixpoint double_quotes (l : list ascii) : list ascii :=
  match l with
  | [] => []
  | c :: tl =>
      if Ascii.eqb c dquote then dquote :: dquote :: double_quotes tl
      else c :: double_quotes tl
  end.

Definition csv_quote (s : string) : list ascii :=
  if needs_quote s
  then dquote :: double_quotes (list_ascii_of_string s) ++ [dquote]
  else list_ascii_of_string s.

Fixpoint join_fields (fields : list (list ascii)) : list ascii :=
  match fields with
  | [] => []
  | [f] => f
  | f :: tl => f ++ ","%char :: join_fields tl
  end.

(** One record, as [csv.writer.writerow] emits it; a record made of a
    single empty field is written as a pair of quotes. *)
Definition csv_line (fields : list string) : list ascii :=
  match fields with
  | [""] => [dquote; dquote; newline]
  | _ => join_fields (csv_quote <$> fields) ++ [newline]
  end.

Definition csv_field (c : cell) : string :=
  match c with
  | Flt x => if decide (x = nan) then "" else float_str x
  | _ => str c
  end.

Definition nrows (df : DataFrame) : nat :=
  match df with
  | [] => 0
  | (_, s) :: _ => length (values s)
  end.

Definition csv_row (df : DataFrame) (i : nat) : list string :=
  (λ '(_, s), from_option csv_field "" (values s !! i)) <$> df.

Definition to_csv_lines (header : bool) (df : DataFrame) : list (list string) :=
  (if header then [df.*1] else []) ++ (csv_row df <$> seq 0 (nrows df)).

Definition to_csv (header : bool) (df : DataFrame) : string :=
  string_of_list_ascii (concat (csv_line <$> to_csv_lines header df)).

(** *** Reading a written file back

    The notebooks write the train and test files and hand them to a
    script that is not among the sources.  The reader below follows the
    specification instead: a record read from CSV maps each field name to
    its raw string, fields are separated by commas and quoted per standard
    CSV escaping, a record ends at a line feed, a carriage return or the
    pair of them, an empty field is a missing value, and the field names
    are those of the first record, or given with the schema when the file
    was written without a header. *)

Definition has_cr (s : string) : bool :=
  existsb (λ c, Ascii.eqb c carriage_return) (list_ascii_of_string s).

(** A field that [to_csv] writes without quotes though it holds a carriage
    return: a carriage return alone does not make [needs_quote] hold. *)
Definition bare_cr (s : string) : bool := negb (needs_quote s) && has_cr s.

(** The characters that end a record outside quotes: a line feed or a
    carriage return, unless the reader is given one [lineterminator] to
    break the text at. *)
Definition line_end (lineterminator : option ascii) (c : ascii) : bool :=
  match lineterminator with
  | None => Ascii.eqb c newline || Ascii.eqb c carriage_return
  | Some t => Ascii.eqb c t
  end.

Definition end_field (field : list ascii) (row : list string) : list string :=
  string_of_list_ascii (reverse field) :: row.

Definition end_record (row : list string) (rows : list (list string))
  : list (list string) :=
  reverse row :: rows.

(** Modelled from the spec: the reader of the written files, which is
    missing from the sources; this is its pass over the text, splitting it
    at the unquoted commas and record ends ([line_end]) and undoing the
    quoting.  [field], [row] and [rows] hold what was read of the current
    field, record and file, latest first.  A blank line is skipped, so
    that a carriage return followed by a line feed ends one record; a text
    that ends inside a quoted field is rejected. *)
Fixpoint tokenize (lineterminator : option ascii) (st : reader_state)
    (field : list ascii) (row : list string) (rows : list (list string))
    (text : list ascii)
  : option (list (list string)) :=
  match text with
  | [] =>
      match st with
      | FieldStart =>
          match row with
          | [] => Some (reverse rows)
          | _ => Some (reverse (end_record (end_field [] row) rows))
          end
      | InField | QuoteInQuoted =>
          Some (reverse (end_record (end_field field row) rows))
      | InQuoted => None
      end
  | c :: tl =>
      match st with
      | FieldStart =>
          if line_end lineterminator c then
            match row with
            | [] => tokenize lineterminator FieldStart [] [] rows tl
            | _ => tokenize lineterminator FieldStart [] []
                     (end_record (end_field [] row) rows) tl
            end
          else if Ascii.eqb c "," then
            tokenize lineterminator FieldStart [] (end_field [] row) rows tl
          else if Ascii.eqb c dquote then
            tokenize lineterminator InQuoted [] row rows tl
          else tokenize lineterminator InField [c] row rows tl
      | InField =>
          if line_end lineterminator c then
            tokenize lineterminator FieldStart [] []
              (end_record (end_field field row) rows) tl
          else if Ascii.eqb c "," then
            tokenize lineterminator FieldStart [] (end_field field row) rows tl
          else tokenize lineterminator InField (c :: field) row rows tl
      | InQuoted =>
          if Ascii.eqb c dquote then
            tokenize lineterminator QuoteInQuoted field row rows tl
          else tokenize lineterminator InQuoted (c :: field) row rows tl
      | QuoteInQuoted =>
          if Ascii.eqb c dquote then
            tokenize lineterminator InQuoted (dquote :: field) row rows tl
          else if line_end lineterminator c then
            tokenize lineterminator FieldStart [] []
              (end_record (end_field field row) rows) tl
          else if Ascii.eqb c "," then
            tokenize lineterminator FieldStart [] (end_field field row) rows tl
          else tokenize lineterminator InField (c :: field) row rows tl
      end
  end.

(** Modelled from the spec: the reader of the written files, which is
    missing from the sources; the records of a text, each a list of raw
    strings, with the standard record ends. *)
Definition read_records (text : string) : option (list (list string)) :=
  tokenize None FieldStart [] [] [] (list_ascii_of_string text).

(** Modelled from the spec: the reader of the written files, which is
    missing from the sources; the raw value of a field, an empty field
    being a missing value. *)
Definition cell_of_field (f : string) : cell :=
  if decide (f = "") then Flt nan else Str f.

(** Modelled from the spec: the reader of the written files, which is
    missing from the sources; the raw column at position [j], a record
    that is too short missing the value. *)
Definition read_column (records : list (list string)) (j : nat) : Series :=
  {| dtype_of := DObject;
     values := (λ r, from_option cell_of_field (Flt nan) (r !! j)) <$> records |}.

(** Modelled from the spec: the reader of the written files, which is
    missing from the sources; the raw record set of a text.  Without
    [names] the first record names the fields; with [names], as for the
    files written without a header, every record is data and the columns
    take the given names in order. *)
Definition read_csv (names : option (list string)) (text : string)
  : result DataFrame :=
  match names, read_records text with
  | Some names, Some records
  | None, Some (names :: records) =>
      Ok (imap (λ j name, (name, read_column records j)) names)
  | _, _ => Raise (ValueError "no columns to parse from file")
  end.

End Frames.

Abbreviation DataFrame := (list (string * Series)).

(** The regulatory-reporting code field, after the rename cell. *)
Definition dtls_cd : string := "RgltryRptg_Dtls_Cd".

(** The schema and the rename map of the training notebook. *)
Definition notebook_schema : Schema := {|
  categorical_fts :=
    [ "Dbtr_PstlAdr_Ctry"; "Cdtr_PstlAdr_Ctry"; "RgltryRptg_DbtCdtRptgInd";
      "RgltryRptg_Authrty_Ctry"; "RgltryRptg_Dtls_Cd" ];
  integer_fts := [];
  numeric_fts := [];
  text_fts := []
|}.

Definition notebook_rename_map : gmap string string :=
  list_to_map
    [ ("Document_FIToFICstmrCdtTrf_CdtTrfTxInf_Dbtr_PstlAdr_Ctry",
       "Dbtr_PstlAdr_Ctry");
      ("Document_FIToFICstmrCdtTrf_CdtTrfTxInf_Cdtr_PstlAdr_Ctry",
       "Cdtr_PstlAdr_Ctry");
      ("Document_FIToFICstmrCdtTrf_CdtTrfTxInf_RgltryRptg_DbtCdtRptgInd",
       "RgltryRptg_DbtCdtRptgInd");
      ("Document_FIToFICstmrCdtTrf_CdtTrfTxInf_RgltryRptg_Authrty_Ctry",
       "RgltryRptg_Authrty_Ctry");
      ("Document_FIToFICstmrCdtTrf_CdtTrfTxInf_RgltryRptg_Dtls_Cd",
       "RgltryRptg_Dtls_Cd");
      ("Document_FIToFICstmrCdtTrf_CdtTrfTxInf_InstrForNxtAgt_InstrInf",
       "InstrForNxtAgt") ].

(** ** Sample data

    A few rows in the shape of the labeled data and of the payloads quoted
    in the notebook ([MX,GB,,,,] and [IN,CA,DEBT,IN,00.P0006,]), over the
    sample doubles.  A field left empty in the CSV is NaN. *)

Section Samples.
#[local] Existing Instance sample_float64.

Definition object_column (cells : list (@cell sample_float64))
  : @Series sample_float64 :=
  {| dtype_of := DObject; values := cells |}.

Definition sample_ind_column : Series :=
  object_column [Flt F_nan; Str "DEBT"; Flt F_nan].

Definition sample_dtls_column : Series :=
  object_column [Flt F_nan; Str "00.P0006"; Flt F_nan].

Definition sample_df : DataFrame :=
  [ ("y_target", object_column [Str "Success"; Str "Failure"; Str "Success"]);
    ("Dbtr_PstlAdr_Ctry", object_column [Str "MX"; Str "IN"; Str "US"]);
    ("Cdtr_PstlAdr_Ctry", object_column [Str "GB"; Str "CA"; Str "IE"]);
    ("RgltryRptg_DbtCdtRptgInd", sample_ind_column);
    ("RgltryRptg_Authrty_Ctry",
     object_column [Flt F_nan; Str "IN"; Flt F_nan]);
    ("RgltryRptg_Dtls_Cd", sample_dtls_column);
    ("InstrForNxtAgt",
     object_column [Flt F_nan; Flt F_nan; Str "/TRSY/Treasury Services"]) ].

(** A frame and a schema that exercise all four kinds. *)
Definition mixed_df : DataFrame :=
  [ ("country", object_column [Str "MX"; Flt F_nan]);
    ("count", object_column [Str "007"; Int 5]);
    ("amount", object_column [Str "1.5"; Flt F_nan]);
    ("note", object_column [Str "a,b"; Bool true]) ].

Definition mixed_schema : Schema := {|
  categorical_fts := ["country"];
  integer_fts := ["count"];
  numeric_fts := ["amount"];
  text_fts := ["note"]
|}.

(** A schema of one categorical field, and a frame whose first value
    holds a carriage return, before and after the type assignment. *)
Definition country_schema : Schema := {|
  categorical_fts := ["country"];
  integer_fts := [];
  numeric_fts := [];
  text_fts := []
|}.




(** The notebook schema with the regulatory-reporting code declared
    numeric instead of categorical. *)
Definition numeric_dtls_schema : Schema := {|
  categorical_fts :=
    [ "Dbtr_PstlAdr_Ctry"; "Cdtr_PstlAdr_Ctry"; "RgltryRptg_DbtCdtRptgInd";
      "RgltryRptg_Authrty_Ctry" ];
  integer_fts := [];
  numeric_fts := [dtls_cd];
  text_fts := []
|}.

End Samples.

(** ** The cells around the type assignment

    The Linear Learner notebook selects the training features from the
    labeled data ([labeled_raw_df[fts]]), renames them, assigns the types,
    splits the frame and writes the parts. *)

(** The training features, [fts]. *)
Definition fts : list string :=
  [ "y_target";
    "Document_FIToFICstmrCdtTrf_CdtTrfTxInf_Dbtr_PstlAdr_Ctry";
    "Document_FIToFICstmrCdtTrf_CdtTrfTxInf_Cdtr_PstlAdr_Ctry";
    "Document_FIToFICstmrCdtTrf_CdtTrfTxInf_RgltryRptg_DbtCdtRptgInd";
    "Document_FIToFICstmrCdtTrf_CdtTrfTxInf_RgltryRptg_Authrty_Ctry";
    "Document_FIToFICstmrCdtTrf_CdtTrfTxInf_RgltryRptg_Dtls_Cd";
    "Document_FIToFICstmrCdtTrf_CdtTrfTxInf_InstrForNxtAgt_InstrInf" ].

Section Pipeline.
Context `{Float64}.

(** [df[names]] with a list of names: the named columns, in the order of
    the list; a name that is no column raises [KeyError].  As [df[col]],
    it is modelled for frames whose column names are unique. *)
Definition select_fields (df : DataFrame) (names : list string)
  : result DataFrame :=
  mapM (λ c, s ← getitem df c; Ok (c, s)) names.

(** The select, rename and type-assignment cells, one after the other. *)
Definition prepare (labeled_raw_df : DataFrame) : result DataFrame :=
  selected_df ← select_fields labeled_raw_df fts;
  selected_df ← rename_fields selected_df notebook_rename_map;
  assign_types notebook_schema selected_df.

(** [series.iloc[indices]] and [df.iloc[indices]], which is what
    [_safe_indexing] does on pandas objects: the rows at the given
    positions, the dtypes (and the categories of a categorical column)
    kept. *)
Definition iloc_series (s : Series) (indices : list nat) : result Series :=
  v ← safe_indexing (values s) indices;
  Ok {| dtype_of := dtype_of s; values := v |}.

Definition iloc (df : DataFrame) (indices : list nat) : result DataFrame :=
  mapM (λ '(c, s), s' ← iloc_series s indices; Ok (c, s')) df.

(** Every column has as many cells as the frame has rows. *)
Definition rectangular (df : DataFrame) : Prop :=
  Forall (λ '(_, s), length (values s) = nrows df) df.

Context `{RandomState}.

(** [train_test_split(X, y, test_size=.., train_size=.., random_state=..,
    shuffle=True)] on a frame and a column: both are cut at the same
    positions.  [indexable] first checks that they have the same number of
    rows. *)
Definition train_test_split_frame (X : DataFrame) (y : Series)
    (test_size train_size : size_arg) (random_state : random_state_arg)
    (global : rng)
  : result ((DataFrame * DataFrame) * (Series * Series)) * rng :=
  if decide (nrows X = length (values y)) then
    match validate_shuffle_split (nrows X) test_size train_size
            (SzFloat 0.25%float) with
    | Raise e => (Raise e, global)
    | Ok (n_train, n_test) =>
        let '(r, g') :=
          shuffle_split_indices (nrows X) n_test n_train random_state global in
        (' (ind_train, ind_test) ← r;
         X_train ← iloc X ind_train;
         X_test ← iloc X ind_test;
         y_train ← iloc_series y ind_train;
         y_test ← iloc_series y ind_test;
         Ok ((X_train, X_test), (y_train, y_test)),
         g')
    end
  else
    (Raise (ValueError "inconsistent numbers of samples"), global).

(** The split cell of the Linear Learner notebook:
    [train_test_split(selected_df, selected_df['y_target'], test_size=0.20,
    random_state=299, shuffle=True)]. *)
Definition split_cell (selected_df : DataFrame) (global : rng)
  : result ((DataFrame * DataFrame) * (Series * Series)) * rng :=
  match getitem selected_df "y_target" with
  | Raise e => (Raise e, global)
  | Ok y =>
      train_test_split_frame selected_df y (SzFloat test_size_020) SzNone
        (RsInt 299) global
  end.

End Pipeline.

(** ** The AutoML notebook: monitoring the job

    [describe_auto_ml_job] asks a service; what it answers is not the
    notebook's to decide.  The service is the sequence of its answers:
    [describe n] is the answer to the call made after [n] earlier ones. *)

Module AutoML.

Record describe_response := {
  AutoMLJobStatus : string;
  AutoMLJobSecondaryStatus : string
}.

(** What the cell has done so far: the calls made, the lines printed, the
    seconds slept and the value of [job_run_status]. *)
Record monitor_state := {
  calls : nat;
  printed : list string;
  slept : nat;
  job_run_status : string
}.

(** [describe_response['AutoMLJobStatus'] + " - " +
    describe_response['AutoMLJobSecondaryStatus']] *)
Definition status_line (r : describe_response) : string :=
  (AutoMLJobStatus r ++ " - " ++ AutoMLJobSecondaryStatus r)%string.

(** [job_run_status in ('Failed', 'Completed', 'Stopped')] *)
Definition finished (status : string) : bool :=
  bool_decide (status ∈ ["Failed"; "Completed"; "Stopped"]).

Section Monitor.
Variable describe : nat → describe_response.

(** The [while] loop; [fuel] bounds the number of iterations, and [None]
    is a loop that has not ended within it. *)
Fixpoint monitor_loop (fuel : nat) (st : monitor_state)
  : option monitor_state :=
  if finished (job_run_status st) then Some st
  else
    match fuel with
    | 0 => None
    | S fuel =>
        let describe_response := describe (calls st) in
        monitor_loop fuel
          {| calls := S (calls st);
             printed := printed st ++ [status_line describe_response];
             slept := slept st + 30;
             job_run_status := AutoMLJobStatus describe_response |}
    end.

(** The monitoring cell. *)
Definition monitor (auto_ml_job_name : string) (fuel : nat)
  : option monitor_state :=
  let describe_response := describe 0 in
  monitor_loop fuel
    {| calls := 1;
       printed := [ "JobStatus - Secondary Status";
                    "------------------------------";
                    ("AutoMLJobName: " ++ auto_ml_job_name)%string;
                    status_line describe_response ];
       slept := 0;
       job_run_status := AutoMLJobStatus describe_response |}.

End Monitor.

(** A service that answers [InProgress] twice, then [Completed]; and one
    that never finishes. *)
Definition sample_describe (n : nat) : describe_response :=
  if (n <? 2)%nat
  then {| AutoMLJobStatus := "InProgress";
          AutoMLJobSecondaryStatus := "AnalyzingData" |}
  else {| AutoMLJobStatus := "Completed";
          AutoMLJobSecondaryStatus := "Completed" |}.

Definition stuck_describe (n : nat) : describe_response :=
  {| AutoMLJobStatus := "Stopping";
     AutoMLJobSecondaryStatus := "Stopping" |}.

(** *** The inference containers of the best candidate

    [best_candidate['InferenceContainers']] is a list of dicts; the cell
    updates the [Environment] dict of the containers 1 and 2 in place. *)

Record container := {
  Image : string;
  ModelDataUrl : string;
  Environment : option (gmap string string)
}.

(** [containers[i]['Environment'].update({key: value})]: [IndexError] when
    the list is too short, [KeyError] when the container has no
    [Environment]. *)
Definition update_environment (i : nat) (key value : string)
    (containers : list container) : result (list container) :=
  match containers !! i with
  | None => Raise IndexError
  | Some c =>
      match Environment c with
      | None => Raise (KeyError "Environment")
      | Some env =>
          Ok (<[i := {| Image := Image c;
                        ModelDataUrl := ModelDataUrl c;
                        Environment := Some (<[key := value]> env) |}]>
                containers)
      end
  end.

(** Statements run one after the other on the same object: what an
    earlier statement has changed stays changed when a later one
    raises. *)
Fixpoint run_statements {S} (stmts : list (S → result S)) (s : S)
  : S * option exn :=
  match stmts with
  | [] => (s, None)
  | stmt :: rest =>
      match stmt s with
      | Ok s' => run_statements rest s'
      | Raise e => (s, Some e)
      end
  end.

(** The three updates of the cell. *)
Definition set_inference_io (containers : list container)
  : list container * option exn :=
  run_statements
    [ update_environment 1 "SAGEMAKER_INFERENCE_OUTPUT"
        "predicted_label,probability";
      update_environment 2 "SAGEMAKER_INFERENCE_INPUT"
        "predicted_label,probability";
      update_environment 2 "SAGEMAKER_INFERENCE_OUTPUT"
        "predicted_label,probability" ]
    containers.

Definition sample_container (image : string) : container :=
  {| Image := image; ModelDataUrl := "s3://bucket/model.tar.gz";
     Environment := Some {[ "AUTOML_TRANSFORM_MODE" := "feature-transform" ]} |}.

Definition sample_containers : list container :=
  [ sample_container "sklearn"; sample_container "xgboost";
    sample_container "inverse-label" ].

End AutoML.

(** ** The LEI sample of the dataset notebook

    The notebook filters the LEI records by the country of the legal
    address, keeps a fixed number of records per country, concatenates
    them and shuffles the result.  A frame is here the list of its rows;
    [country] reads the cell of a row under
    [Entity.LegalAddress.Country]. *)

Section LeiSample.
Context `{Float64} `{RandomState} {Row : Type} (country : Row → cell).

(** [series.isin(values)], for one cell. *)
Definition isin (values : list string) (c : cell) : bool :=
  match c with
  | Str s => bool_decide (s ∈ values)
  | _ => false
  end.

(** [df.loc[df['Entity.LegalAddress.Country'].isin(values)]] *)
Definition loc_country_isin (df : list Row) (values : list string)
  : list Row :=
  filter (λ r, isin values (country r)) df.

Definition lei_selected_df (lei_full_df : list Row) : list Row :=
  loc_country_isin lei_full_df ["US"; "CA"; "IN"; "GB"; "TH"; "MX"; "IE"].

(** [.head(n)] *)
Definition head (n : nat) (df : list Row) : list Row := take n df.

Definition us_df (lei_full_df : list Row) : list Row :=
  head 500 (loc_country_isin lei_full_df ["US"]).
Definition ca_df (lei_full_df : list Row) : list Row :=
  head 200 (loc_country_isin lei_full_df ["CA"]).
Definition in_df (lei_full_df : list Row) : list Row :=
  head 650 (loc_country_isin lei_full_df ["IN"]).
Definition gb_df (lei_full_df : list Row) : list Row :=
  head 300 (loc_country_isin lei_full_df ["GB"]).
Definition th_df (lei_full_df : list Row) : list Row :=
  head 100 (loc_country_isin lei_full_df ["TH"]).
Definition mx_df (lei_full_df : list Row) : list Row :=
  head 100 (loc_country_isin lei_full_df ["MX"]).
Definition ie_df (lei_full_df : list Row) : list Row :=
  head 150 (loc_country_isin lei_full_df ["IE"]).

Definition frames (lei_full_df : list Row) : list (list Row) :=
  [ us_df lei_full_df; ca_df lei_full_df; in_df lei_full_df;
    gb_df lei_full_df; th_df lei_full_df; mx_df lei_full_df;
    ie_df lei_full_df ].

(** [sklearn.utils.shuffle(df)]: the rows at a permutation of the
    positions, drawn from the process-wide generator. *)
Definition shuffle (df : list Row) (global : rng)
  : result (list Row) * rng :=
  let '(indices, g') := permutation global (length df) in
  (safe_indexing df indices, g').

(** [ml_prototype_df = shuffle(pd.concat(frames))] *)
Definition ml_prototype_df (lei_full_df : list Row) (global : rng)
  : result (list Row) * rng :=
  shuffle (concat (frames lei_full_df)) global.

End LeiSample.

(** The number of records kept per country. *)
Definition lei_quota : list (string * nat) :=
  [ ("US", 500); ("CA", 200); ("IN", 650); ("GB", 300); ("TH", 100);
    ("MX", 100); ("IE", 150) ].

(** ** The synthetic BIC records of the dataset notebook

    The values come from the Faker library, whose generators share one
    source of randomness.  What [create_data] needs of it is the
    interface: each call returns a value and advances the state.
    [random_element] is called on the multi-locale proxy ([None]) and on
    the generator of a locale. *)

Class Faker := {
  faker : Type;
  random_element : option string → list string → faker → string * faker;
  swift : string → nat → faker → string * faker;
  company : string → faker → string * faker;
  city : string → faker → string * faker;
  street_address : string → faker → string * faker;
  building_number : string → faker → string * faker
}.

(** [random_element] returns one of the elements, and [swift(length=8)] a
    code of eight characters. *)
Class FakerLaws `{Faker} := {
  random_element_elem : ∀ locale elements f,
    elements ≠ [] → (random_element locale elements f).1 ∈ elements;
  swift_length : ∀ locale f, String.length (swift locale 8 f).1 = 8
}.

Definition mod_flags : list string := ["A"; "M"; "D"].
Definition countries : list string :=
  ["US"; "CA"; "IN"; "GB"; "TH"; "MX"; "IE"].
Definition locale_map : gmap string string :=
  list_to_map
    [ ("US", "en_US"); ("CA", "en_CA"); ("IN", "en_IN"); ("GB", "en_GB");
      ("TH", "en_TH"); ("MX", "es_MX"); ("IE", "en_IE") ].
Definition countries_dict : gmap string string :=
  list_to_map
    [ ("US", "UNITED STATES OF AMERICA"); ("CA", "CANADA"); ("IN", "INDIA");
      ("GB", "GREAT BRITAIN"); ("TH", "Thailand"); ("MX", "MEXICO");
      ("IE", "IRELAND") ].
Definition branch_info : list string :=
  [ "BRANCH"; "BANKING DEPARTMENT"; "REGIONAL OFFICE"; "OFFICE"; "HQ";
    "SHOPPING MALL"; "INDUSTRIAL ESTATE" ].
Definition address2 : list string := ["BUILDING"; "SHOP"; "UNIT"; ""].
Definition subtypes : list string :=
  ["SUPE"; "NSWB"; "BEID"; "CORP"; "PSPA"; "SSPA"].
Definition value_added_services : list string :=
  [ "AIMFIN"; "AIMFINTG+"; "FIN"; "FINSCO"; "FINTG+"; "ERPFIN"; "ERPFINTG+";
    "FINTGT"; "FINTAS" ].
Definition extra_info : list string :=
  ["ALL"; "ADM"; "ADM C4"; "BRA"; "PAY"; "ALLBRA"; "DOC"; "CAL"].

(** One entry of the [bank] dict, field by field. *)
Record Bank := {
  TAG : string;
  MODIFICATION_FLAG : string;
  BIC_CODE : string;
  BRANCH_CODE : string;
  INSTITUTION_NAME : string;
  BRANCH_INFORMATION : string;
  CITY_HEADING : string;
  SUBTYPE_INDICATION : string;
  VALUE_ADDED_SERVICES : string;
  EXTRA_INFO : string;
  PHYSICAL_ADDRESS_1 : string;
  PHYSICAL_ADDRESS_2 : string;
  PHYSICAL_ADDRESS_3 : string;
  PHYSICAL_ADDRESS_4 : string;
  LOCATION : string;
  COUNTRY_NAME : string;
  POB_NUMBER : string;
  POB_LOCATION : string;
  POB_COUNTRY_NAME : string
}.

(** [s[i:j]] on a string, for [0 <= i <= j]. *)
Definition slice (i j : nat) (s : string) : string := substring i (j - i) s.

(** [series.str.contains(pat)] for a pattern of plain letters: the
    pattern occurs somewhere in the text. *)
Fixpoint contains (pat s : string) : bool :=
  String.prefix pat s
  || match s with
     | EmptyString => false
     | String _ tl => contains pat tl
     end.

(** [d[k] = v] on a dict, which keeps its keys in the order of their
    first insertion. *)
Fixpoint dict_setitem {K V} `{EqDecision K} (d : list (K * V)) (k : K) (v : V)
  : list (K * V) :=
  match d with
  | [] => [(k, v)]
  | (k0, v0) :: tl =>
      if decide (k0 = k) then (k0, v) :: tl
      else (k0, v0) :: dict_setitem tl k v
  end.

Section CreateData.
Context `{Faker}.

(** The body of the loop of [create_data]: the record of one bank. *)
Definition create_record (f : faker) : result (Bank * faker) :=
  let '(country, f) := random_element None countries f in
  match locale_map !! country with
  | None => Raise (KeyError country)
  | Some generator =>
      let '(mod_flag, f) := random_element None mod_flags f in
      let '(bic, f) := swift generator 8 f in
      let random_bic := (slice 0 4 bic ++ country ++ slice 6 8 bic)%string in
      let '(institution, f) := company generator f in
      let '(branch, f) := random_element None branch_info f in
      let '(city_name, f) := city generator f in
      let '(subtype, f) := random_element None subtypes f in
      let '(services, f) := random_element None value_added_services f in
      let '(extra, f) := random_element None extra_info f in
      let '(address1, f) := street_address generator f in
      let '(addr2, f) := random_element (Some generator) address2 f in
      let '(physical2, f) :=
        if decide (addr2 = "") then ("", f)
        else
          let '(number, f) := building_number generator f in
          ((addr2 ++ " " ++ number)%string, f) in
      let '(pob, f) := building_number generator f in
      match countries_dict !! country with
      | None => Raise (KeyError country)
      | Some country_name =>
          Ok ({| TAG := "FI";
                 MODIFICATION_FLAG := mod_flag;
                 BIC_CODE := random_bic;
                 BRANCH_CODE := "XXX";
                 INSTITUTION_NAME := institution;
                 BRANCH_INFORMATION := branch;
                 CITY_HEADING := city_name;
                 SUBTYPE_INDICATION := subtype;
                 VALUE_ADDED_SERVICES := services;
                 EXTRA_INFO := extra;
                 PHYSICAL_ADDRESS_1 := address1;
                 PHYSICAL_ADDRESS_2 := physical2;
                 PHYSICAL_ADDRESS_3 := "";
                 PHYSICAL_ADDRESS_4 := "";
                 LOCATION := city_name;
                 COUNTRY_NAME := country;
                 POB_NUMBER := ("POB " ++ pob)%string;
                 POB_LOCATION := city_name;
                 POB_COUNTRY_NAME := country_name |},
              f)
      end
  end.

(** [create_data(x)]: the dict [bank], filled for [i] in [range(0, x)]. *)
Definition create_data (x : Z) (f : faker)
  : result (list (nat * Bank) * faker) :=
  for_each (seq 0 (Z.to_nat x))
    (λ '(bank, f) i, '(record, f') ← create_record f;
                     Ok (dict_setitem bank i record, f'))
    ([], f).

End CreateData.

(** The column [df['BIC CODE']] of
    [df = pd.DataFrame(create_data(x)).transpose()]: one row per key of
    the dict, in the order of the keys. *)
Definition bic_column (bank : list (nat * Bank)) : list string :=
  BIC_CODE <$> bank.*2.

(** [df[df['BIC CODE'].astype(str).str.contains(pat)].shape[0]] *)
Definition contains_count (bics : list string) (pat : string) : nat :=
  length (filter (λ bic, contains pat bic) bics).

(** A small generator satisfying the interface: the state is a counter,
    [random_element] walks through the elements, and the bank code of the
    SWIFT code varies with the counter. *)
Definition counter_faker : Faker := {|
  faker := nat;
  random_element := λ _ elements n,
    (default "" (elements !! (n `mod` length elements)), S n);
  swift := λ _ _ n,
    (if Nat.even n then "DEUTDEFF" else "BUSYGB2L", S n);
  company := λ _ n, ("Example Bank", S n);
  city := λ _ n, ("Springfield", S n);
  street_address := λ _ n, ("1 Main Street", S n);
  building_number := λ _ n, ("42", S n)
|}.

(** *** The cell that counts the BICs per country

    The statements of the cell up to the last count, over the names of
    the notebook's namespace that hold a row count.  A name that is read
    before it was ever assigned raises [NameError]. *)

Inductive statement :=
| PrintUnique
| AssignShape (name : string) (pat : string)
| PrintShape (label : string) (name : string).

Inductive outcome := Finished | NameError (name : string).

Definition count_statements : list statement :=
  [ PrintUnique; PrintUnique;
    AssignShape "us_shape" "US"; PrintShape "US BICs: " "in_shape";
    AssignShape "ca_shape" "CA"; PrintShape "Canada BICs: " "in_shape";
    AssignShape "gb_shape" "GB"; PrintShape "Great Britain BICs: " "in_shape";
    AssignShape "in_shape" "IN"; PrintShape "India BICs: " "in_shape";
    AssignShape "th_shape" "TH"; PrintShape "Thailand BICs: " "in_shape";
    AssignShape "mx_shape" "MX"; PrintShape "Mexico BICs: " "in_shape";
    AssignShape "ie_shape" "IE"; PrintShape "Ireland BICs: " "in_shape" ].

(** Runs the statements on the column [df['BIC CODE']], from a namespace
    and the lines printed so far. *)
Fixpoint run_count (bics : list string) (stmts : list statement)
    (namespace : gmap string nat) (printed : list string)
  : list string * outcome :=
  match stmts with
  | [] => (printed, Finished)
  | PrintUnique :: rest =>
      run_count bics rest namespace
        (printed ++ [("Unique BICs: "
                      ++ str_of_Z (Z.of_nat (length (remove_dups bics))))%string])
  | AssignShape name pat :: rest =>
      run_count bics rest (<[name := contains_count bics pat]> namespace)
        printed
  | PrintShape label name :: rest =>
      match namespace !! name with
      | None => (printed, NameError name)
      | Some rows =>
          run_count bics rest namespace
            (printed ++ [(label ++ str_of_Z (Z.of_nat rows))%string])
      end
  end.

Definition count_cell (bics : list string) (namespace : gmap string nat)
  : list string * outcome :=
  run_count bics count_statements namespace [].

(** ** More sample data *)

Section MoreSamples.
#[local] Existing Instance sample_float64.

(** Labeled data as the notebook reads it: the seven training features
    under their long names, after a column that is not selected. *)
Definition sample_raw_df : DataFrame :=
  [ ("Document_FIToFICstmrCdtTrf_GrpHdr_MsgId",
     object_column [Str "MSG-1"; Str "MSG-2"; Str "MSG-3"]);
    ("y_target", object_column [Str "Success"; Str "Failure"; Str "Success"]);
    ("Document_FIToFICstmrCdtTrf_CdtTrfTxInf_Dbtr_PstlAdr_Ctry",
     object_column [Str "MX"; Str "IN"; Str "US"]);
    ("Document_FIToFICstmrCdtTrf_CdtTrfTxInf_Cdtr_PstlAdr_Ctry",
     object_column [Str "GB"; Str "CA"; Str "IE"]);
    ("Document_FIToFICstmrCdtTrf_CdtTrfTxInf_RgltryRptg_DbtCdtRptgInd",
     sample_ind_column);
    ("Document_FIToFICstmrCdtTrf_CdtTrfTxInf_RgltryRptg_Authrty_Ctry",
     object_column [Flt F_nan; Str "IN"; Flt F_nan]);
    ("Document_FIToFICstmrCdtTrf_CdtTrfTxInf_RgltryRptg_Dtls_Cd",
     sample_dtls_column);
    ("Document_FIToFICstmrCdtTrf_CdtTrfTxInf_InstrForNxtAgt_InstrInf",
     object_column [Flt F_nan; Flt F_nan; Str "/TRSY/Treasury Services"]) ].

Definition sample_amount_column : Series :=
  object_column [Str "1.5"; Flt F_nan].

(** A schema that declares the amount of [mixed_df] an integer. *)
Definition integer_amount_schema : Schema := {|
  categorical_fts := ["country"];
  integer_fts := ["amount"];
  numeric_fts := [];
  text_fts := []
|}.

(** LEI records reduced to their country cell. *)
Definition sample_lei_df : list cell :=
  [Str "US"; Str "FR"; Str "IN"; Flt F_nan; Str "US"; Str "IE"].

End MoreSamples.

(* ===================================================================== *)
(** * Part II. Properties *)
(* ===================================================================== *)

(** ** String order *)

Lemma ascii_compare_lt_trans a b c :
  Ascii.compare a b = Lt → Ascii.compare b c = Lt → Ascii.compare a c = Lt.
Proof.
  unfold Ascii.compare. rewrite !N.compare_lt_iff. apply N.lt_trans.
Qed.

Lemma ascii_compare_refl a : Ascii.compare a a = Eq.
Proof. unfold Ascii.compare. apply N.compare_refl. Qed.

Lemma ascii_compare_eq a b : Ascii.compare a b = Eq → a = b.
Proof.
  unfold Ascii.compare. intros H%N.compare_eq_iff.
  rewrite <- (ascii_N_embedding a), <- (ascii_N_embedding b). by rewrite H.
Qed.

Lemma str_compare_refl s : String.compare s s = Eq.
Proof. induction s as [|a s IH]; simpl; [done|]. by rewrite ascii_compare_refl. Qed.

Lemma str_lt_irrefl s : ¬ str_lt s s.
Proof. unfold str_lt. by rewrite str_compare_refl. Qed.

Lemma str_lt_trans a b c : str_lt a b → str_lt b c → str_lt a c.
Proof.
  unfold str_lt. revert b c.
  induction a as [|x a IH]; intros [|y b] [|z c]; simpl; try done.
  destruct (Ascii.compare x y) eqn:Hxy; try done;
    destruct (Ascii.compare y z) eqn:Hyz; try done; intros H1 H2.
  - apply ascii_compare_eq in Hxy, Hyz. subst.
    rewrite ascii_compare_refl. eauto.
  - apply ascii_compare_eq in Hxy. subst. by rewrite Hyz.
  - apply ascii_compare_eq in Hyz. subst. by rewrite Hxy.
  - by rewrite (ascii_compare_lt_trans _ _ _ Hxy Hyz).
Qed.

Lemma str_ltb_lt a b : String.ltb a b = true ↔ str_lt a b.
Proof.
  unfold String.ltb, str_lt. by destruct (String.compare a b).
Qed.

Lemma strictly_ascending_sorted l :
  strictly_ascending l = true ↔ StronglySorted str_lt l.
Proof.
  induction l as [|a [|b tl] IH].
  - split; [constructor|done].
  - split; [repeat constructor|done].
  - cbn [strictly_ascending]. rewrite andb_true_iff, str_ltb_lt, IH. split.
    + intros [Hab Hs]. constructor; [done|].
      inversion Hs as [|? ? _ Hall]; subst.
      constructor; [done|].
      eapply Forall_impl; [exact Hall|]. intros c Hc. by eapply str_lt_trans.
    + intros Hs. inversion Hs as [|? ? Hs' Hall]; subst.
      by inversion Hall; subst.
Qed.

Lemma StronglySorted_str_lt_NoDup l : StronglySorted str_lt l → NoDup l.
Proof.
  induction 1 as [|a l _ IH Hall]; constructor; [|done].
  intros Hin. rewrite Forall_forall in Hall.
  by apply Hall, str_lt_irrefl in Hin.
Qed.

(** ** The rule surface *)

(** C8. The country-to-currency table of [application.yml] is functional
    (every listed country has exactly one currency) but not injective: the
    two country codes GB and UK both map to GBP.  The configuration also
    carries an integer retry count for invalid messages, 10, within the
    range of a machine integer. *)
Theorem currency_table_many_to_one :
  Forall (λ e, Config.currencies_of Config.rapide (Config.Country e)
               = [Config.Code e])
         (Config.Currency Config.rapide)
  ∧ Config.currencies_of Config.rapide "GB" = ["GBP"]
  ∧ Config.currencies_of Config.rapide "UK" = ["GBP"]
  ∧ Config.InvalidMessageRetry Config.rapide = 10%Z
  ∧ (0 ≤ Config.InvalidMessageRetry Config.rapide ≤ Config.int_max)%Z.
Proof.
  split_and!; try (vm_compute; done).
  repeat constructor.
Qed.

(** C10. The [PurposeCode] list of [application.yml] is in strictly
    ascending lexicographic order, hence free of duplicates. *)
Theorem purpose_codes_strictly_ascending :
  StronglySorted str_lt (Config.PurposeCode Config.rapide)
  ∧ NoDup (Config.PurposeCode Config.rapide).
Proof.
  assert (StronglySorted str_lt (Config.PurposeCode Config.rapide)) as H.
  { apply strictly_ascending_sorted. by vm_compute. }
  split; [done|]. by apply StronglySorted_str_lt_NoDup.
Qed.

(** ** Results *)

Lemma mapM_Ok_Forall2 {A B} (f : A → result B) l :
  Forall (λ a, ∃ b, f a = Ok b) l →
  ∃ bs, mapM f l = Ok bs ∧ Forall2 (λ a b, f a = Ok b) l bs.
Proof.
  induction 1 as [|a l [b Hb] _ (bs & Hbs & IH)]; simpl.
  - exists []. by split; [|constructor].
  - exists (b :: bs). rewrite Hb. simpl. rewrite Hbs. simpl.
    split; [done|]. by constructor.
Qed.

(** ** The train/test split *)

Lemma safe_indexing_Ok {A} (X : list A) (ind : list nat) :
  Forall (λ i, i < length X) ind →
  ∃ rows, safe_indexing X ind = Ok rows
          ∧ Forall2 (λ i r, X !! i = Some r) ind rows.
Proof.
  intros Hind. unfold safe_indexing.
  edestruct (mapM_Ok_Forall2
    (λ i, match X !! i with Some x => Ok x | None => Raise IndexError end) ind)
    as (rows & Hrows & Hall).
  { eapply Forall_impl; [exact Hind|]. intros i Hi. simpl.
    destruct (lookup_lt_is_Some_2 X i Hi) as [x ->]. eauto. }
  exists rows. split; [done|].
  eapply Forall2_impl; [exact Hall|]. intros i r. simpl.
  destruct (X !! i); naive_solver.
Qed.

Lemma validate_fraction (n : nat) (f : float) (k : Z) (d : size_arg) :
  (f <=? 0)%float = false →
  (1 <=? f)%float = false →
  float_ceil (f * float_of_Z (Z.of_nat n)) = Some k →
  (k < Z.of_nat n)%Z →
  validate_shuffle_split n (SzFloat f) SzNone d = Ok (Z.of_nat n - k, k)%Z.
Proof.
  intros Hlo Hhi Hceil Hk. unfold validate_shuffle_split.
  cbn [size_out_of_range float_sum_gt_one]. rewrite Hlo, Hhi. cbn [orb].
  rewrite Hceil. cbn.
  destruct (Z.ltb_spec (Z.of_nat n) (Z.of_nat n - k + k)); [lia|].
  destruct (Z.eqb_spec (Z.of_nat n - k) 0); [lia|done].
Qed.

Lemma validate_counts (n : nat) (k : Z) (d : size_arg) :
  (0 < k < Z.of_nat n)%Z →
  validate_shuffle_split n (SzInt k) (SzInt (Z.of_nat n - k)) d
  = Ok (Z.of_nat n - k, k)%Z.
Proof.
  intros Hk. unfold validate_shuffle_split. cbn [size_out_of_range].
  destruct (Z.leb_spec (Z.of_nat n) k); [lia|].
  destruct (Z.leb_spec k 0); [lia|].
  destruct (Z.leb_spec (Z.of_nat n) (Z.of_nat n - k)); [lia|].
  destruct (Z.leb_spec (Z.of_nat n - k) 0); [lia|]. cbn.
  destruct (Z.ltb_spec (Z.of_nat n) (Z.of_nat n - k + k)); [lia|].
  destruct (Z.eqb_spec (Z.of_nat n - k) 0); [lia|done].
Qed.

Lemma validate_degenerate (n : nat) (f : float) (k : Z) (d : size_arg) :
  float_ceil (f * float_of_Z (Z.of_nat n)) = Some k →
  k = Z.of_nat n →
  ∃ what, validate_shuffle_split n (SzFloat f) SzNone d
          = Raise (ValueError what).
Proof.
  intros Hceil Hk. unfold validate_shuffle_split.
  cbn [size_out_of_range float_sum_gt_one].
  destruct (_ || _); [by eauto|]. rewrite Hceil. cbn.
  destruct (Z.ltb_spec (Z.of_nat n) (Z.of_nat n - k + k)); [by eauto|].
  destruct (Z.eqb_spec (Z.of_nat n - k) 0); [by eauto|lia].
Qed.

Section SplitProperties.
Context `{RandomStateLaws}.

Lemma permutation_length g n : length (permutation g n).1 = n.
Proof. by rewrite (permutation_perm g n), length_seq. Qed.

Lemma permutation_bounded g n : Forall (λ i, i < n) (permutation g n).1.
Proof.
  rewrite (permutation_perm g n). apply Forall_forall.
  intros i Hi%elem_of_seq. lia.
Qed.

(** C1 (amended). For a record set of N rows, a test fraction f accepted by
    the range check (neither [f <= 0] nor [1 <= f]) and a seed that numpy
    accepts (0 .. 2**32 - 1), let k be the ceiling of the double product
    f * N.  Whenever 0 < k < N, [split] returns a train part and a test
    part that are the rows at two position lists which together rearrange
    0 .. N-1 (so the parts are disjoint and cover the input), with
    [len(test) = k] and [len(train) = N - len(test)]; the global generator
    is left as it was. *)
Theorem split_partition {A} (records : list A) (f : float) (seed : Z)
    (g : rng) (k : Z) :
  (f <=? 0)%float = false →
  (1 <=? f)%float = false →
  (0 ≤ seed < 2 ^ 32)%Z →
  float_ceil (f * float_of_Z (Z.of_nat (length records))) = Some k →
  (0 < k < Z.of_nat (length records))%Z →
  ∃ ind_train ind_test train test,
    split records f seed g = (Ok (train, test), g)
    ∧ ind_test ++ ind_train ≡ₚ seq 0 (length records)
    ∧ Forall2 (λ i r, records !! i = Some r) ind_train train
    ∧ Forall2 (λ i r, records !! i = Some r) ind_test test
    ∧ length test = Z.to_nat k
    ∧ length train = length records - length test.
Proof.
  intros Hlo Hhi Hseed Hceil Hk.
  unfold split, train_test_split.
  rewrite (validate_fraction _ _ _ _ Hlo Hhi Hceil) by lia.
  unfold shuffle_split_indices. rewrite validate_counts by done.
  cbn [check_random_state]. rewrite bool_decide_eq_true_2 by done.
  pose proof (permutation_length (seed_rng seed) (length records)) as Hlen.
  pose proof (permutation_bounded (seed_rng seed) (length records)) as Hbnd.
  pose proof (permutation_perm (seed_rng seed) (length records)) as Hperm.
  destruct (permutation (seed_rng seed) (length records)) as [perm g'].
  cbn [fst] in Hlen, Hbnd, Hperm.
  set (ind_test := take (Z.to_nat k) perm).
  set (ind_train :=
         take (Z.to_nat (Z.of_nat (length records) - k))
              (drop (Z.to_nat k) perm)).
  assert (ind_train = drop (Z.to_nat k) perm) as Htrain.
  { subst ind_train. apply take_ge. rewrite length_drop. lia. }
  assert (ind_test ++ ind_train = perm) as Happ.
  { rewrite Htrain. apply take_drop. }
  assert (Forall (λ i, i < length records) ind_train) as Hb1.
  { rewrite Htrain. by apply Forall_drop. }
  assert (Forall (λ i, i < length records) ind_test) as Hb2.
  { by apply Forall_take. }
  destruct (safe_indexing_Ok records ind_train Hb1) as (train & Etrain & Ftrain).
  destruct (safe_indexing_Ok records ind_test Hb2) as (test & Etest & Ftest).
  exists ind_train, ind_test, train, test.
  cbn. rewrite Etrain. cbn. rewrite Etest. cbn.
  split_and!; try done.
  - by rewrite Happ.
  - rewrite <- (Forall2_length _ _ _ Ftest). subst ind_test.
    rewrite length_take. lia.
  - rewrite <- (Forall2_length _ _ _ Ftrain), <- (Forall2_length _ _ _ Ftest).
    rewrite Htrain. subst ind_test. rewrite length_drop, length_take. lia.
Qed.

(** When the ceiling of f * N equals N (always so for a single record),
    no row would be left for training and the split raises [ValueError]. *)
Lemma split_degenerate {A} (records : list A) (f : float) (seed : Z)
    (g : rng) (k : Z) :
  float_ceil (f * float_of_Z (Z.of_nat (length records))) = Some k →
  k = Z.of_nat (length records) →
  ∃ what, split records f seed g = (Raise (ValueError what), g).
Proof.
  intros Hceil Hk. unfold split, train_test_split.
  destruct (validate_degenerate _ _ _ (SzFloat 0.25) Hceil Hk) as [what ->].
  by exists what.
Qed.

(** With sizes that pass the validation, a seed outside 0 .. 2**32 - 1
    makes [np.random.RandomState(seed)] raise [ValueError]: no parts are
    returned, and the global generator is left as it was. *)
Lemma split_invalid_seed {A} (records : list A) (f : float) (seed : Z)
    (g : rng) (k : Z) :
  (f <=? 0)%float = false →
  (1 <=? f)%float = false →
  ¬ (0 ≤ seed < 2 ^ 32)%Z →
  float_ceil (f * float_of_Z (Z.of_nat (length records))) = Some k →
  (0 < k < Z.of_nat (length records))%Z →
  split records f seed g
  = (Raise (ValueError "Seed must be between 0 and 2**32 - 1"), g).
Proof.
  intros Hlo Hhi Hseed Hceil Hk.
  unfold split, train_test_split.
  rewrite (validate_fraction _ _ _ _ Hlo Hhi Hceil) by lia.
  unfold shuffle_split_indices. rewrite validate_counts by done.
  cbn [check_random_state]. by rewrite bool_decide_eq_false_2 by done.
Qed.

(** C5. The outcome of [split] is a function of the records, the test
    fraction and the seed alone: it is the same from any two states of the
    process-wide generator, and it leaves that generator unchanged. *)
Theorem split_deterministic {A} (records : list A) (f : float) (seed : Z)
    (g1 g2 : rng) :
  (split records f seed g1).1 = (split records f seed g2).1
  ∧ (split records f seed g1).2 = g1.
Proof.
  unfold split, train_test_split.
  destruct (validate_shuffle_split (length records) _ _ _) as [[n_train n_test]|e];
    [|done].
  unfold shuffle_split_indices.
  destruct (validate_shuffle_split (length records) _ _ _) as [[n_train' n_test']|e];
    [|done].
  cbn [check_random_state]. case_bool_decide; [|done].
  by destruct (permutation (seed_rng seed) (length records)) as [perm g'].
Qed.

End SplitProperties.

(** Without a seed the split reads the process-wide generator and advances
    it: from two of its states the outcomes differ. *)
Example unseeded_split_uses_global_state :
  @train_test_split counter_rng nat (seq 0 5) (SzFloat test_size_020) SzNone
    RsNone 0%Z
  = (Ok ([1; 2; 3; 4], [0]), 1%Z)
  ∧ @train_test_split counter_rng nat (seq 0 5) (SzFloat test_size_020) SzNone
      RsNone 1%Z
    = (Ok ([3; 2; 1; 0], [4]), 2%Z).
Proof. split; by vm_compute. Qed.

(** The counter generator obeys the law of [permutation]. *)
Lemma counter_rng_laws : @RandomStateLaws counter_rng.
Proof.
  intros g n. cbn. unfold counter_permutation. cbn.
  destruct (Z.even g); [done|]. apply reverse_Permutation.
Qed.

Lemma split_partition_witness :
  (test_size_020 <=? 0)%float = false
  ∧ (1 <=? test_size_020)%float = false
  ∧ (0 ≤ 299 < 2 ^ 32)%Z
  ∧ float_ceil (test_size_020 * float_of_Z (Z.of_nat (length (seq 0 10))))
    = Some 2%Z
  ∧ (0 < 2 < Z.of_nat (length (seq 0 10)))%Z
  ∧ ∃ ind_train ind_test train test,
      @split counter_rng nat (seq 0 10) test_size_020 299 0%Z
      = (Ok (train, test), 0%Z)
      ∧ ind_test ++ ind_train ≡ₚ seq 0 (length (seq 0 10))
      ∧ Forall2 (λ i r, seq 0 10 !! i = Some r) ind_train train
      ∧ Forall2 (λ i r, seq 0 10 !! i = Some r) ind_test test
      ∧ length test = Z.to_nat 2
      ∧ length train = length (seq 0 10) - length test.
Proof.
  split; [reflexivity|]. split; [reflexivity|]. split; [by vm_compute|].
  split; [reflexivity|]. split; [by vm_compute|].
  apply (@split_partition counter_rng counter_rng_laws nat (seq 0 10)
           test_size_020 299%Z 0%Z 2%Z); try reflexivity; by vm_compute.
Defined.

(** C1 as stated fails on the size of the test part, and on the promise of
    a result for every non-empty input and every seed: with 11 records and
    fraction 0.2 the test part has ceil(2.2) = 3 rows, not round(2.2) = 2;
    with a single record the split raises [ValueError]; and so it does
    with ten records for the seeds -1 and 2**32, which numpy rejects. *)
Lemma split_size_is_not_round :
  (∃ train test k,
     (@split counter_rng nat (seq 0 11) test_size_020 299 0%Z).1
     = Ok (train, test)
     ∧ float_round (test_size_020 * float_of_Z 11) = Some k
     ∧ length test = 3
     ∧ Z.of_nat (length test) ≠ k)
  ∧ (@split counter_rng nat [0] test_size_020 299 0%Z).1
    = Raise (ValueError "empty train set")
  ∧ (@split counter_rng nat (seq 0 10) test_size_020 (-1) 0%Z).1
    = Raise (ValueError "Seed must be between 0 and 2**32 - 1")
  ∧ (@split counter_rng nat (seq 0 10) test_size_020 (2 ^ 32) 0%Z).1
    = Raise (ValueError "Seed must be between 0 and 2**32 - 1").
Proof.
  split; [|split_and!; by vm_compute].
  exists [7; 6; 5; 4; 3; 2; 1; 0], [10; 9; 8], 2%Z. by vm_compute.
Qed.

(** ** Label encoding *)

Lemma str_le_alt a b : str_le a b ↔ str_lt a b ∨ a = b.
Proof.
  unfold str_le, str_lt. split.
  - destruct (String.compare a b) eqn:E; try done; [|by left].
    right. by apply String.compare_eq_iff.
  - intros [-> | ->]; [done|]. by rewrite str_compare_refl.
Qed.

#[local] Instance str_lt_trans_inst : Transitive str_lt.
Proof. intros a b c. apply str_lt_trans. Qed.

#[local] Instance str_lt_antisym : AntiSymm (=) str_lt.
Proof.
  intros a b Hab Hba. destruct (str_lt_irrefl a). by etrans.
Qed.

#[local] Instance str_le_trans : Transitive str_le.
Proof.
  intros a b c. rewrite !str_le_alt.
  intros [Hab | ->] [Hbc | ->]; eauto. left. by etrans.
Qed.

#[local] Instance str_le_total : Total str_le.
Proof.
  intros a b. unfold str_le. rewrite (String.compare_antisym b a).
  destruct (String.compare a b); simpl; eauto.
Qed.

Lemma StronglySorted_le_lt l :
  StronglySorted str_le l → NoDup l → StronglySorted str_lt l.
Proof.
  induction 1 as [|a l Hs IH Hall]; intros Hnd; [constructor|].
  apply NoDup_cons in Hnd as [Hnotin Hnd].
  constructor; [by apply IH|].
  rewrite Forall_forall in Hall |- *. intros b Hb.
  destruct (proj1 (str_le_alt a b) (Hall b Hb)) as [? | ->]; [done|].
  by destruct Hnotin.
Qed.

Lemma sorted_set_elem y v : v ∈ sorted_set y ↔ v ∈ y.
Proof.
  unfold sorted_set. by rewrite merge_sort_Permutation, elem_of_remove_dups.
Qed.

Lemma sorted_set_NoDup y : NoDup (sorted_set y).
Proof.
  unfold sorted_set. rewrite merge_sort_Permutation. apply NoDup_remove_dups.
Qed.

Lemma sorted_set_sorted y : StronglySorted str_lt (sorted_set y).
Proof.
  apply StronglySorted_le_lt; [|apply sorted_set_NoDup].
  apply StronglySorted_merge_sort; apply _.
Qed.

(** The fitted classes depend on the set of observed values only. *)
Lemma sorted_set_unique y y' :
  (∀ v, v ∈ y ↔ v ∈ y') → sorted_set y = sorted_set y'.
Proof.
  intros Hyy'. apply (StronglySorted_unique str_lt);
    [apply sorted_set_sorted..|].
  apply NoDup_Permutation; [apply sorted_set_NoDup..|].
  intros v. by rewrite !sorted_set_elem.
Qed.

Lemma StronglySorted_lookup_lt l i j v w :
  StronglySorted str_lt l →
  l !! i = Some v → l !! j = Some w → (i < j ↔ str_lt v w).
Proof.
  intros Hs Hi Hj.
  assert (∀ i j v w, l !! i = Some v → l !! j = Some w → i < j → str_lt v w)
    as Hmono.
  { clear i j v w Hi Hj. induction Hs as [|a l Hs IH Hall];
      intros i j v w Hi Hj Hij; [done|].
    destruct j as [|j]; [lia|]. cbn in Hj.
    destruct i as [|i]; cbn in Hi.
    - injection Hi as ->. rewrite Forall_forall in Hall.
      apply Hall. by eapply list_elem_of_lookup_2.
    - eapply (IH i j); eauto. lia. }
  split; [by eapply Hmono|]. intros Hvw.
  destruct (decide (i < j)) as [|Hge]; [done|]. exfalso.
  destruct (decide (i = j)) as [->|Hne].
  - rewrite Hi in Hj. injection Hj as ->. by apply str_lt_irrefl in Hvw.
  - apply (str_lt_irrefl v). etrans; [exact Hvw|].
    eapply (Hmono j i); eauto. lia.
Qed.

Lemma table_lookup classes v c :
  NoDup classes →
  LabelEncoder.table classes !! v = Some c ↔ classes !! c = Some v.
Proof.
  intros Hnd. unfold LabelEncoder.table.
  rewrite <- elem_of_list_to_map
    by (rewrite fst_zip; [done|by rewrite length_seq]).
  rewrite list_elem_of_lookup. split.
  - intros [i Hi]. apply lookup_zip_with_Some in Hi
      as (v' & c' & [= -> ->] & Hv & Hc).
    apply lookup_seq in Hc as [-> _]. done.
  - intros Hc. exists c. apply lookup_zip_with_Some.
    exists v, c. split_and!; [done..|].
    apply lookup_seq. split; [done|]. by eapply lookup_lt_Some.
Qed.

(** C2. [encode_target] always succeeds on a column of target strings.  Its
    classes are exactly the distinct observed values, in strictly ascending
    lexicographic order; the label map sends each class to its position, so
    the codes are the dense range 0 .. k-1 with k the number of distinct
    values, smaller strings get smaller codes, and every row is replaced by
    the code of its value.  The map depends on the set of observed values
    only (not on row order or multiplicity); when the observed values are
    exactly "Failure" and "Success" it is {"Failure": 0, "Success": 1}. *)
Theorem encode_target_label_map (y : list string) :
  ∃ classes codes,
    LabelEncoder.fit_transform y = Ok (classes, codes)
    ∧ label_map y = LabelEncoder.table classes
    ∧ (∀ v, v ∈ classes ↔ v ∈ y)
    ∧ length classes = size (list_to_set y : gset string)
    ∧ (∀ v c, label_map y !! v = Some c ↔ classes !! c = Some v)
    ∧ (∀ c, c < length classes ↔ ∃ v, label_map y !! v = Some c)
    ∧ (∀ v w c d, label_map y !! v = Some c → label_map y !! w = Some d →
                  (c < d ↔ str_lt v w))
    ∧ Forall2 (λ v c, label_map y !! v = Some c) y codes
    ∧ (∀ y', (∀ v, v ∈ y' ↔ v ∈ y) → label_map y' = label_map y)
    ∧ ((∀ v, v ∈ y ↔ v = "Failure" ∨ v = "Success") →
       label_map y = {[ "Failure" := 0; "Success" := 1 ]}).
Proof.
  pose proof (sorted_set_NoDup y) as Hnd.
  pose proof (sorted_set_sorted y) as Hsorted.
  assert (∀ v c, label_map y !! v = Some c ↔ sorted_set y !! c = Some v)
    as Htable by (intros; by apply table_lookup).
  destruct (mapM_Ok_Forall2
    (λ v, match LabelEncoder.table (sorted_set y) !! v with
          | Some i => Ok i
          | None => Raise (ValueError "y contains previously unseen labels")
          end) y) as (codes & Hcodes & Hall).
  { apply Forall_forall. intros v Hv%sorted_set_elem.
    apply list_elem_of_lookup in Hv as [c Hc].
    apply Htable in Hc. unfold label_map in Hc. rewrite Hc. eauto. }
  exists (sorted_set y), codes. split_and!.
  - unfold LabelEncoder.fit_transform. cbn zeta. by rewrite Hcodes.
  - done.
  - apply sorted_set_elem.
  - rewrite <- (size_list_to_set (C:=gset string) (sorted_set y)) by done.
    f_equal. apply set_eq. intros v.
    by rewrite !elem_of_list_to_set, sorted_set_elem.
  - done.
  - intros c. split.
    + intros Hc. destruct (lookup_lt_is_Some_2 _ _ Hc) as [v Hv].
      exists v. by apply Htable.
    + intros [v Hv%Htable]. by eapply lookup_lt_Some.
  - intros v w c d Hc%Htable Hd%Htable.
    by eapply StronglySorted_lookup_lt.
  - eapply Forall2_impl; [exact Hall|]. intros v c. cbn.
    unfold label_map. by destruct (LabelEncoder.table _ !! v) as [i|]; intros [=]; subst.
  - intros y' Hy'. unfold label_map. f_equal. by apply sorted_set_unique.
  - intros Hy. unfold label_map.
    rewrite (sorted_set_unique y ["Failure"; "Success"]).
    + by vm_compute.
    + intros v. rewrite Hy, !elem_of_cons, elem_of_nil. tauto.
Qed.

Lemma encode_target_label_map_witness :
  LabelEncoder.fit_transform ["Success"; "Failure"; "Success"]
  = Ok (["Failure"; "Success"], [1; 0; 1])
  ∧ label_map ["Success"; "Failure"; "Success"]
    = {[ "Failure" := 0; "Success" := 1 ]}
  ∧ label_map ["Failure"; "Success"; "Failure"]
    = label_map ["Success"; "Failure"; "Success"].
Proof.
  destruct (encode_target_label_map ["Success"; "Failure"; "Success"])
    as (classes & codes & Hfit & _ & _ & _ & _ & _ & _ & _ & Hset & Hmap).
  split; [reflexivity|]. split.
  - apply Hmap. intros v. rewrite !elem_of_cons, elem_of_nil. tauto.
  - apply Hset. intros v. rewrite !elem_of_cons, elem_of_nil. tauto.
Defined.

(** ** Integer literals: printing then parsing *)

Lemma is_digit_not_space c : is_digit c = true → is_space c = false.
Proof. by destruct c as [[] [] [] [] [] [] [] []]. Qed.

Lemma is_digit_not_sign c tl :
  is_digit c = true → sign_opt (c :: tl) = (false, c :: tl).
Proof. by destruct c as [[] [] [] [] [] [] [] []]. Qed.

Lemma uint_chars_digits u :
  Forall (λ c, is_digit c = true)
         (list_ascii_of_string (NilEmpty.string_of_uint u)).
Proof. induction u; cbn; by constructor. Qed.

Lemma digitpart_tail_digits l :
  Forall (λ c, is_digit c = true) l → digitpart_tail l = (l, []).
Proof.
  induction 1 as [|c l Hc _ IH]; cbn; [done|]. by rewrite Hc, IH.
Qed.

Lemma digitpart_digits l :
  l ≠ [] → Forall (λ c, is_digit c = true) l → digitpart l = Some (l, []).
Proof.
  intros Hne Hl. destruct Hl as [|c l Hc Hl]; [done|]. cbn.
  by rewrite Hc, (digitpart_tail_digits l Hl).
Qed.

Lemma rstrip_no_space l :
  Forall (λ c, is_space c = false) l → rstrip l = l.
Proof.
  induction 1 as [|c l Hc _ IH]; cbn; [done|].
  rewrite IH, Hc. by destruct l.
Qed.

Lemma strip_no_space l :
  Forall (λ c, is_space c = false) l → strip l = l.
Proof.
  intros Hl. unfold strip.
  assert (lstrip l = l) as ->; [|by apply rstrip_no_space].
  destruct Hl as [|c l Hc _]; cbn; [done|]. by rewrite Hc.
Qed.

Lemma digits_value_uint u :
  digits_value (list_ascii_of_string (NilEmpty.string_of_uint u))
  = Z.of_uint u.
Proof.
  unfold digits_value.
  by rewrite string_of_list_ascii_of_string, NilEmpty.usu.
Qed.

Lemma parse_digits u :
  u ≠ Nil →
  let l := list_ascii_of_string (NilEmpty.string_of_uint u) in
  strip l = l ∧ sign_opt l = (false, l) ∧ digitpart l = Some (l, [])
  ∧ Forall (λ c, is_space c = false) l.
Proof.
  intros Hu l. pose proof (uint_chars_digits u) as Hd. fold l in Hd.
  assert (Forall (λ c, is_space c = false) l) as Hs.
  { eapply Forall_impl; [exact Hd|]. apply is_digit_not_space. }
  assert (l ≠ []) as Hne by (subst l; by destruct u).
  split_and!; [by apply strip_no_space| |by apply digitpart_digits|done].
  destruct Hd as [|c l' Hc _]; [done|]. by apply is_digit_not_sign.
Qed.

Lemma parse_int_literal_str_of_Z z : parse_int_literal (str_of_Z z) = Some z.
Proof.
  destruct z as [|p|p]; [done| |];
    pose proof (DecimalPos.Unsigned.to_uint_nonnil p) as Hnil;
    destruct (parse_digits _ Hnil) as (Hstrip & Hsign & Hdigits & Hspace);
    unfold parse_int_literal, str_of_Z; cbn [Z.to_int NilZero.string_of_int].
  - assert (NilZero.string_of_uint (Pos.to_uint p)
            = NilEmpty.string_of_uint (Pos.to_uint p)) as ->
      by (by destruct (Pos.to_uint p)).
    rewrite Hstrip, Hsign, Hdigits, digits_value_uint.
    unfold Z.of_uint. by rewrite DecimalPos.Unsigned.of_to.
  - assert (NilZero.string_of_uint (Pos.to_uint p)
            = NilEmpty.string_of_uint (Pos.to_uint p)) as ->
      by (by destruct (Pos.to_uint p)).
    cbn [list_ascii_of_string].
    rewrite strip_no_space by (by constructor).
    cbn [sign_opt Ascii.eqb Bool.eqb]. rewrite Hdigits, digits_value_uint.
    unfold Z.of_uint. by rewrite DecimalPos.Unsigned.of_to.
Qed.

(** ** Frames: columns read and written *)

Lemma for_each_app {S A} (l1 l2 : list A) (body : S → A → result S) s :
  for_each (l1 ++ l2) body s = (s' ← for_each l1 body s; for_each l2 body s').
Proof.
  revert s. induction l1 as [|a l1 IH]; intros s; cbn; [done|].
  destruct (body s a); cbn; [apply IH|done].
Qed.

Lemma for_each_fmap {S A B} (f : A → B) (l : list A)
    (body : S → B → result S) s :
  for_each (f <$> l) body s = for_each l (λ s a, body s (f a)) s.
Proof.
  revert s. induction l as [|a l IH]; intros s; cbn; [done|].
  destruct (body s (f a)); cbn; [apply IH|done].
Qed.

Lemma mapM_idem {A B} (f : A → result B) (g : B → A) l bs :
  (∀ a b, f a = Ok b → f (g b) = Ok b) →
  mapM f l = Ok bs → mapM f (g <$> bs) = Ok bs.
Proof.
  intros Hfg. revert bs. induction l as [|a l IH]; intros bs; cbn.
  - by intros [= <-].
  - destruct (f a) as [b|] eqn:Hb; cbn; [|done].
    destruct (mapM f l) as [bs'|] eqn:Hbs; cbn; [|done].
    intros [= <-]. cbn. by rewrite (Hfg a b Hb), (IH bs' eq_refl).
Qed.

Section FrameProperties.
Context `{Float64Laws}.

Lemma getitem_Ok_elem (df : DataFrame) col s :
  getitem df col = Ok s → col ∈ df.*1.
Proof.
  induction df as [|[c s0] df IH]; cbn; [done|].
  destruct (decide (c = col)) as [->|Hne]; [intros _; by left|].
  intros Hs. right. by apply IH.
Qed.

Lemma getitem_elem_Ok (df : DataFrame) col :
  col ∈ df.*1 → ∃ s, getitem df col = Ok s.
Proof.
  induction df as [|[c s0] df IH]; cbn; [by intros ?%elem_of_nil|].
  destruct (decide (c = col)) as [->|Hne]; [by eauto|].
  intros [?|?]%elem_of_cons; [done|by apply IH].
Qed.

Lemma getitem_setitem (df : DataFrame) col s :
  getitem (setitem df col s) col = Ok s.
Proof.
  induction df as [|[c s0] df IH]; cbn.
  - by rewrite decide_True.
  - destruct (decide (c = col)) as [->|Hne]; cbn.
    + by rewrite decide_True.
    + by rewrite decide_False.
Qed.

Lemma getitem_setitem_ne (df : DataFrame) col col' s :
  col ≠ col' → getitem (setitem df col s) col' = getitem df col'.
Proof.
  intros Hne. induction df as [|[c s0] df IH]; cbn.
  - by rewrite decide_False.
  - destruct (decide (c = col)) as [->|Hc]; cbn.
    + by rewrite !decide_False.
    + by destruct (decide (c = col')).
Qed.

Lemma setitem_same (df : DataFrame) col s :
  getitem df col = Ok s → setitem df col s = df.
Proof.
  induction df as [|[c s0] df IH]; cbn; [done|].
  destruct (decide (c = col)) as [->|Hne]; [by intros [= ->]|].
  intros Hs. by rewrite IH.
Qed.

Lemma setitem_names (df : DataFrame) col s :
  col ∈ df.*1 → (setitem df col s).*1 = df.*1.
Proof.
  induction df as [|[c s0] df IH]; cbn; [by intros ?%elem_of_nil|].
  destruct (decide (c = col)) as [->|Hne]; [done|].
  intros [?|?]%elem_of_cons; [done|]. cbn. by rewrite IH.
Qed.

(** ** Renaming *)

(** C3 (amended). [rename_fields] never fails.  A key of the rename map
    that is not a field name is ignored, and a rename that makes two field
    names equal is carried out all the same.  In every case the result has
    the same columns in the same order, each name replaced by its image
    under the map when it is a key and kept otherwise, and every value
    unchanged. *)
Theorem rename_fields_total (df : DataFrame) (rename_map : gmap string string) :
  ∃ df',
    rename_fields df rename_map = Ok df'
    ∧ df'.*1 = (λ c, default c (rename_map !! c)) <$> df.*1
    ∧ df'.*2 = df.*2.
Proof.
  eexists. split; [reflexivity|]. split.
  - induction df as [|[c s] df IH]; cbn; [done|]. by rewrite IH.
  - induction df as [|[c s] df IH]; cbn; [done|]. by rewrite IH.
Qed.

End FrameProperties.

Section RenameOnSample.
#[local] Existing Instance sample_float64.

(** C3 as stated fails: a rename map with a key that is no field name is
    accepted and changes nothing, and a rename of [count] to the existing
    name [country] is accepted and yields two fields named [country]. *)
Lemma rename_fields_no_schema_mismatch :
  ("zzz" ∉ mixed_df.*1)
  ∧ rename_fields mixed_df {[ "zzz" := "country" ]} = Ok mixed_df
  ∧ (rename_fields mixed_df {[ "count" := "country" ]}
     = Ok [ ("country", object_column [Str "MX"; Flt F_nan]);
            ("country", object_column [Str "007"; Int 5]);
            ("amount", object_column [Str "1.5"; Flt F_nan]);
            ("note", object_column [Str "a,b"; Bool true]) ])
  ∧ ¬ NoDup ["country"; "country"; "amount"; "note"].
Proof.
  split_and!; [|by vm_compute..|].
  - cbn. rewrite !elem_of_cons, elem_of_nil. by intros [|[|[|[|]]]].
  - intros [Hin _]%NoDup_cons. apply Hin. by left.
Qed.

(** The rename cell on the field names selected by the notebook. *)
Example rename_cell_field_names :
  (λ c, default c (notebook_rename_map !! c))
  <$> [ "y_target";
        "Document_FIToFICstmrCdtTrf_CdtTrfTxInf_Dbtr_PstlAdr_Ctry";
        "Document_FIToFICstmrCdtTrf_CdtTrfTxInf_Cdtr_PstlAdr_Ctry";
        "Document_FIToFICstmrCdtTrf_CdtTrfTxInf_RgltryRptg_DbtCdtRptgInd";
        "Document_FIToFICstmrCdtTrf_CdtTrfTxInf_RgltryRptg_Authrty_Ctry";
        "Document_FIToFICstmrCdtTrf_CdtTrfTxInf_RgltryRptg_Dtls_Cd";
        "Document_FIToFICstmrCdtTrf_CdtTrfTxInf_InstrForNxtAgt_InstrInf" ]
  = sample_df.*1.
Proof. by vm_compute. Qed.

End RenameOnSample.

(** ** Type assignment *)

Lemma type_steps_fields schema : (type_steps schema).*2 = schema_fields schema.
Proof.
  unfold type_steps, schema_fields. rewrite !fmap_app, <- !list_fmap_compose.
  by rewrite !list_fmap_id.
Qed.

Section TypeAssignment.
Context `{Float64Laws}.

Lemma assign_types_steps schema (df : DataFrame) :
  assign_types schema df
  = for_each (type_steps schema) (λ df '(k, c), assign_column k df c) df.
Proof.
  unfold assign_types, type_steps.
  rewrite for_each_app, for_each_fmap.
  destruct (for_each (categorical_fts schema) _ df) as [df1|]; cbn; [|done].
  rewrite for_each_app, for_each_fmap.
  destruct (for_each (integer_fts schema) _ df1) as [df2|]; cbn; [|done].
  rewrite for_each_app, for_each_fmap.
  destruct (for_each (numeric_fts schema) _ df2) as [df3|]; cbn; [|done].
  by rewrite for_each_fmap.
Qed.

Lemma assign_column_Ok k (df df' : DataFrame) col :
  assign_column k df col = Ok df' →
  ∃ s s', getitem df col = Ok s
          ∧ astype_from_str k (astype_str s) = Ok s'
          ∧ df' = setitem df col s'.
Proof.
  unfold assign_column. destruct (getitem df col) as [s|]; cbn; [|done].
  destruct (astype_from_str k (astype_str s)) as [s'|] eqn:Hs'; cbn; [|done].
  intros [= <-]. eauto.
Qed.

Lemma str_Str (strs : list string) : str <$> (Str <$> strs) = strs.
Proof. induction strs as [|s strs IH]; cbn; [done|]. by rewrite IH. Qed.

(** Converting the strings of a converted column gives the column back. *)
Lemma astype_from_str_idem k strs (s' : Series) :
  astype_from_str k strs = Ok s' →
  astype_from_str k (astype_str s') = Ok s'.
Proof.
  destruct k; cbn.
  - intros [= <-]. unfold astype_str. cbn. by rewrite str_Str.
  - destruct (mapM _ strs) as [cells|] eqn:Hcells; cbn; [|done].
    intros [= <-]. unfold astype_str. cbn.
    erewrite mapM_idem; [done| |exact Hcells].
    intros s c. cbn.
    destruct (parse_int_literal s) as [z|]; [|done].
    case_bool_decide as Hz; [|done]. intros [= <-]. cbn.
    by rewrite parse_int_literal_str_of_Z, bool_decide_true.
  - destruct (mapM _ strs) as [cells|] eqn:Hcells; cbn; [|done].
    intros [= <-]. unfold astype_str. cbn.
    erewrite mapM_idem; [done| |exact Hcells].
    intros s c. cbn. destruct (is_float_literal s); [|done].
    intros [= <-]. cbn. by rewrite float_str_literal, float_str_roundtrip.
  - intros [= <-]. unfold astype_str. cbn. by rewrite str_Str.
Qed.

Lemma steps_preserve steps (df df1 : DataFrame) col :
  col ∉ steps.*2 →
  for_each steps (λ df '(k, c), assign_column k df c) df = Ok df1 →
  getitem df1 col = getitem df col.
Proof.
  revert df. induction steps as [|[k c] steps IH]; intros df Hcol; cbn.
  - by intros [= <-].
  - cbn in Hcol. apply not_elem_of_cons in Hcol as [Hne Hcol].
    destruct (assign_column k df c) as [df'|] eqn:Hstep; cbn; [|done].
    intros Hrest. rewrite (IH df' Hcol Hrest).
    apply assign_column_Ok in Hstep as (s & s' & _ & _ & ->).
    by apply getitem_setitem_ne.
Qed.

Lemma steps_typed steps (df df1 : DataFrame) :
  NoDup steps.*2 →
  for_each steps (λ df '(k, c), assign_column k df c) df = Ok df1 →
  Forall (λ '(k, c), ∃ s, getitem df1 c = Ok s
                          ∧ astype_from_str k (astype_str s) = Ok s) steps.
Proof.
  revert df. induction steps as [|[k c] steps IH]; intros df Hnd; cbn.
  - by constructor.
  - cbn in Hnd. apply NoDup_cons in Hnd as [Hc Hnd].
    destruct (assign_column k df c) as [df'|] eqn:Hstep; cbn; [|done].
    intros Hrest. constructor; [|by eapply IH].
    apply assign_column_Ok in Hstep as (s & s' & _ & Hs' & ->).
    exists s'. split.
    + etrans; [exact (steps_preserve _ _ _ _ Hc Hrest)|].
      apply getitem_setitem.
    + by eapply astype_from_str_idem.
Qed.

Lemma assign_column_typed k (df : DataFrame) col s :
  getitem df col = Ok s →
  astype_from_str k (astype_str s) = Ok s →
  assign_column k df col = Ok df.
Proof.
  intros Hs Hconv. unfold assign_column. rewrite Hs. cbn.
  rewrite Hconv. cbn. by rewrite (setitem_same _ _ _ Hs).
Qed.

Lemma steps_fixed steps (df1 : DataFrame) :
  Forall (λ '(k, c), ∃ s, getitem df1 c = Ok s
                          ∧ astype_from_str k (astype_str s) = Ok s) steps →
  for_each steps (λ df '(k, c), assign_column k df c) df1 = Ok df1.
Proof.
  induction 1 as [|[k c] steps (s & Hs & Hconv) _ IH]; cbn [for_each]; [done|].
  by rewrite (assign_column_typed _ _ _ _ Hs Hconv).
Qed.

(** Field names are kept by the loops. *)
Lemma steps_names steps (df df1 : DataFrame) :
  for_each steps (λ df '(k, c), assign_column k df c) df = Ok df1 →
  df1.*1 = df.*1.
Proof.
  revert df. induction steps as [|[k c] steps IH]; intros df; cbn.
  - by intros [= <-].
  - destruct (assign_column k df c) as [df'|] eqn:Hstep; cbn; [|done].
    intros Hrest. rewrite (IH df' Hrest).
    apply assign_column_Ok in Hstep as (s & s' & Hs & _ & ->).
    apply setitem_names. by eapply getitem_Ok_elem.
Qed.

(** With each field named once, the loops act on each column on its own:
    the final column is the conversion of the raw one. *)
Lemma steps_column steps (df df1 : DataFrame) k c :
  NoDup steps.*2 →
  (k, c) ∈ steps →
  for_each steps (λ df '(k, c), assign_column k df c) df = Ok df1 →
  ∃ s s1, getitem df c = Ok s
          ∧ astype_from_str k (astype_str s) = Ok s1
          ∧ getitem df1 c = Ok s1.
Proof.
  intros Hnd Hin Hrun.
  apply list_elem_of_split in Hin as (l1 & l2 & ->).
  rewrite fmap_app, fmap_cons in Hnd. cbn in Hnd.
  apply NoDup_app in Hnd as (_ & Hl1 & [Hl2 _]%NoDup_cons).
  rewrite for_each_app in Hrun.
  destruct (for_each l1 _ df) as [dmid|] eqn:Hl1run; cbn in Hrun; [|done].
  destruct (assign_column k dmid c) as [d'|] eqn:Hstep; cbn in Hrun; [|done].
  apply assign_column_Ok in Hstep as (s & s1 & Hs & Hconv & ->).
  exists s, s1. split_and!; [|done|].
  - rewrite <- Hs. symmetry. eapply steps_preserve; [|exact Hl1run].
    intros Hc. by eapply Hl1; [exact Hc|left].
  - etrans; [eapply steps_preserve; [exact Hl2|exact Hrun]|].
    apply getitem_setitem.
Qed.

Lemma for_each_Raise_split {S A} (l : list A) (body : S → A → result S) s e :
  for_each l body s = Raise e →
  ∃ l1 a l2 smid, l = l1 ++ a :: l2
                  ∧ for_each l1 body s = Ok smid
                  ∧ body smid a = Raise e.
Proof.
  revert s. induction l as [|a l IH]; intros s; cbn; [done|].
  destruct (body s a) as [s'|e'] eqn:Hbody; cbn.
  - intros (l1 & b & l2 & smid & -> & Hl1 & Hb)%IH.
    exists (a :: l1), b, l2, smid. cbn. rewrite Hbody. cbn. eauto.
  - intros [= ->]. exists [], a, l, s. eauto.
Qed.

(** A failure of the loops is the failure to convert one raw column. *)
Lemma steps_Raise steps (df : DataFrame) e :
  NoDup steps.*2 →
  Forall (λ c, c ∈ df.*1) steps.*2 →
  for_each steps (λ df '(k, c), assign_column k df c) df = Raise e →
  ∃ k c s, (k, c) ∈ steps ∧ getitem df c = Ok s
           ∧ astype_from_str k (astype_str s) = Raise e.
Proof.
  intros Hnd Hfields
    (l1 & [k c] & l2 & dmid & -> & Hl1run & Hstep)%for_each_Raise_split.
  rewrite fmap_app, fmap_cons in Hnd, Hfields. cbn in Hnd, Hfields.
  apply NoDup_app in Hnd as (_ & Hl1 & _).
  apply Forall_app in Hfields as [_ [Hc _]%Forall_cons].
  destruct (getitem_elem_Ok df c Hc) as [s Hs].
  assert (getitem dmid c = Ok s) as Hmid.
  { rewrite <- Hs. eapply steps_preserve; [|exact Hl1run].
    intros Hc'. by eapply Hl1; [exact Hc'|left]. }
  exists k, c, s. split_and!; [|done|].
  - apply elem_of_app. right. by left.
  - unfold assign_column in Hstep. rewrite Hmid in Hstep.
    cbn [mbind result_bind] in Hstep. revert Hstep.
    destruct (astype_from_str k (astype_str s)); cbn; [by intros [=]|by intros [= ->]].
Qed.

Lemma mapM_Raise {A B} (f : A → result B) l e :
  mapM f l = Raise e → ∃ a, a ∈ l ∧ f a = Raise e.
Proof.
  induction l as [|a l IH]; cbn; [done|].
  destruct (f a) as [b|e'] eqn:Ha; cbn.
  - destruct (mapM f l) as [bs|e'']; cbn; [done|].
    intros [= ->]. destruct IH as (a' & Hin & Ha'); [done|].
    exists a'. split; [by right|done].
  - intros [= ->]. exists a. split; [by left|done].
Qed.

Lemma mapM_Ok_lookup {A B} (f : A → result B) l bs i a :
  mapM f l = Ok bs → l !! i = Some a → ∃ b, bs !! i = Some b ∧ f a = Ok b.
Proof.
  revert bs i. induction l as [|a' l IH]; intros bs i; cbn; [done|].
  destruct (f a') as [b|] eqn:Ha; cbn; [|done].
  destruct (mapM f l) as [bs'|] eqn:Hbs; cbn; [|done].
  intros [= <-]. destruct i as [|i]; cbn.
  - intros [= ->]. eauto.
  - by apply IH.
Qed.

(** Only the integer and the numeric conversions can fail, and they fail
    with [ValueError] or [OverflowError]. *)
Lemma astype_from_str_Raise k strs e :
  astype_from_str k strs = Raise e →
  (k = Integer ∨ k = Numeric) ∧ error_kind_of e = TypeCoercionError.
Proof.
  destruct k; cbn; try done.
  - destruct (mapM _ strs) as [cells|e'] eqn:Hcells; cbn; [done|].
    intros [= ->]. split; [by left|].
    apply mapM_Raise in Hcells as (s & _ & Hs).
    destruct (parse_int_literal s); [|by injection Hs as <-].
    case_bool_decide; [done|]. by injection Hs as <-.
  - destruct (mapM _ strs) as [cells|e'] eqn:Hcells; cbn; [done|].
    intros [= ->]. split; [by right|].
    apply mapM_Raise in Hcells as (s & _ & Hs).
    destruct (is_float_literal s); [done|]. by injection Hs as <-.
Qed.

(** The categorical and the text conversions keep every string. *)
Lemma astype_from_str_keeps k (s : Series) :
  k = Categorical ∨ k = Text →
  ∃ s1, astype_from_str k (astype_str s) = Ok s1
        ∧ values s1 = Str <$> astype_str s
        ∧ (k = Categorical → dtype_of s1 = DCategory (sorted_set (astype_str s))).
Proof. intros [-> | ->]; cbn; eexists; split_and!; done. Qed.

(** C7. [assign_types] is idempotent: on a record set with distinct field
    names and a schema that gives each field one kind, if [assign_types]
    succeeds then applying it to its own output succeeds and returns that
    output unchanged. *)
Theorem assign_types_idempotent (schema : Schema) (df df1 : DataFrame) :
  NoDup (schema_fields schema) →
  NoDup df.*1 →
  assign_types schema df = Ok df1 →
  assign_types schema df1 = Ok df1.
Proof.
  intros Hschema _. rewrite !assign_types_steps. intros Hfirst.
  apply steps_fixed. eapply steps_typed; [|exact Hfirst].
  by rewrite type_steps_fields.
Qed.

Lemma elem_of_type_steps schema k c :
  (k, c) ∈ type_steps schema
  ↔ c ∈ match k with
        | Categorical => categorical_fts schema
        | Integer => integer_fts schema
        | Numeric => numeric_fts schema
        | Text => text_fts schema
        end.
Proof.
  unfold type_steps. rewrite !elem_of_app, !list_elem_of_fmap. split.
  - by intros [(c' & [= -> ->] & Hc)|[(c' & [= -> ->] & Hc)|
               [(c' & [= -> ->] & Hc)|(c' & [= -> ->] & Hc)]]].
  - destruct k; eauto 7.
Qed.

Lemma steps_kind_unique (steps : list (kind * string)) k k' c :
  NoDup steps.*2 → (k, c) ∈ steps → (k', c) ∈ steps → k = k'.
Proof.
  induction steps as [|[k0 c0] steps IH]; cbn; [by intros _ ?%elem_of_nil|].
  intros [Hc0 Hnd]%NoDup_cons Hin Hin'.
  assert (∀ k1, (k1, c0) ∈ steps → False) as Hfresh.
  { intros k1 Hk1. apply Hc0, list_elem_of_fmap. by exists (k1, c0). }
  apply elem_of_cons in Hin as [Heq|Hin], Hin' as [Heq'|Hin'].
  - congruence.
  - injection Heq as -> ->. by destruct (Hfresh k').
  - injection Heq' as -> ->. by destruct (Hfresh k).
  - by apply IH.
Qed.

Lemma numeric_rejects_dtls_cd (s : Series) i :
  values s !! i = Some (Str "00.P0006") →
  ∃ e, astype_from_str Numeric (astype_str s) = Raise e.
Proof.
  intros Hi. cbn.
  destruct (mapM _ (astype_str s)) as [cells|e] eqn:Hcells; cbn; [|by eauto].
  eapply (mapM_Ok_lookup _ _ _ i "00.P0006") in Hcells as (b & _ & Hb);
    [done|]. unfold astype_str. by rewrite list_lookup_fmap, Hi.
Qed.

(** C4. Take a record set with distinct field names in which some row
    holds the raw string "00.P0006" in the field [RgltryRptg_Dtls_Cd], and
    a schema that gives each field one kind and names fields of the record
    set only.  If the schema declares the field numeric, [assign_types]
    fails with a type-coercion error ([ValueError] or [OverflowError]).
    If it declares the field categorical or text, the value is unchanged
    in every result of [assign_types]; a failure can then only be the
    failure to convert another field, declared integer or numeric, and
    with no such field [assign_types] succeeds. *)
Theorem dtls_cd_schema_decides (schema : Schema) (df : DataFrame)
    (s : Series) (i : nat) :
  NoDup (schema_fields schema) →
  NoDup df.*1 →
  Forall (λ c, c ∈ df.*1) (schema_fields schema) →
  getitem df dtls_cd = Ok s →
  values s !! i = Some (Str "00.P0006") →
  (dtls_cd ∈ numeric_fts schema →
   ∃ e, assign_types schema df = Raise e
        ∧ error_kind_of e = TypeCoercionError)
  ∧ (dtls_cd ∈ categorical_fts schema ∨ dtls_cd ∈ text_fts schema →
     (∀ df1, assign_types schema df = Ok df1 →
             ∃ s1, getitem df1 dtls_cd = Ok s1
                   ∧ values s1 !! i = Some (Str "00.P0006"))
     ∧ (∀ e, assign_types schema df = Raise e →
             ∃ k c sc, (k = Integer ∧ c ∈ integer_fts schema
                        ∨ k = Numeric ∧ c ∈ numeric_fts schema)
                       ∧ c ≠ dtls_cd
                       ∧ getitem df c = Ok sc
                       ∧ astype_from_str k (astype_str sc) = Raise e)
     ∧ (integer_fts schema = [] → numeric_fts schema = [] →
        ∃ df1, assign_types schema df = Ok df1)).
Proof.
  intros Hschema _ Hfields Hs Hi.
  rewrite <- type_steps_fields in Hschema, Hfields.
  rewrite assign_types_steps.
  assert (∀ e, for_each (type_steps schema)
                 (λ df '(k, c), assign_column k df c) df = Raise e →
               ∃ k c sc, (k = Integer ∧ c ∈ integer_fts schema
                          ∨ k = Numeric ∧ c ∈ numeric_fts schema)
                         ∧ (k, c) ∈ type_steps schema
                         ∧ getitem df c = Ok sc
                         ∧ astype_from_str k (astype_str sc) = Raise e)
    as Hraise.
  { intros e (k & c & sc & Hin & Hsc & Hconv)%steps_Raise; [|done..].
    exists k, c, sc. split_and!; [|done..].
    pose proof (proj1 (elem_of_type_steps _ _ _) Hin) as Hc.
    apply astype_from_str_Raise in Hconv as [[-> | ->] _]; eauto. }
  split.
  - intros Hnum%(elem_of_type_steps _ Numeric).
    destruct (for_each _ _ df) as [df1|e] eqn:Hrun.
    + exfalso.
      destruct (steps_column _ _ _ _ _ Hschema Hnum Hrun)
        as (s' & s1 & Hs' & Hconv & _).
      rewrite Hs in Hs'. injection Hs' as <-.
      destruct (numeric_rejects_dtls_cd s i Hi) as [e He]. congruence.
    + exists e. split; [done|].
      destruct (Hraise e eq_refl) as (k & c & sc & _ & _ & _ & Hconv).
      by apply astype_from_str_Raise in Hconv as [_ ?].
  - intros Hkind.
    assert (∃ k, (k = Categorical ∨ k = Text) ∧ (k, dtls_cd) ∈ type_steps schema)
      as (k & Hk & Hin).
    { destruct Hkind as [Hc|Hc].
      - exists Categorical. split; [by left|]. by apply elem_of_type_steps.
      - exists Text. split; [by right|]. by apply elem_of_type_steps. }
    split_and!.
    + intros df1 Hrun.
      destruct (steps_column _ _ _ _ _ Hschema Hin Hrun)
        as (s' & s1 & Hs' & Hconv & Hs1).
      rewrite Hs in Hs'. injection Hs' as <-.
      destruct (astype_from_str_keeps k s Hk) as (s1' & Hconv' & Hvals & _).
      rewrite Hconv in Hconv'. injection Hconv' as <-.
      exists s1. split; [done|]. rewrite Hvals. unfold astype_str.
      by rewrite !list_lookup_fmap, Hi.
    + intros e (k' & c & sc & Hk' & Hin' & Hsc & Hconv)%Hraise.
      exists k', c, sc. split_and!; [done| |done..].
      intros ->. pose proof (steps_kind_unique _ _ _ _ Hschema Hin Hin').
      destruct Hk as [-> | ->], Hk' as [[-> _]|[-> _]]; done.
    + intros Hint Hnum.
      destruct (for_each _ _ df) as [df1|e] eqn:Hrun; [by eauto|].
      destruct (Hraise e eq_refl) as (k' & c & sc & Hk' & _).
      rewrite Hint, Hnum in Hk'.
      by destruct Hk' as [[_ ?%elem_of_nil]|[_ ?%elem_of_nil]].
Qed.

Lemma getitem_lookup (df : DataFrame) j col s :
  NoDup df.*1 → df !! j = Some (col, s) → getitem df col = Ok s.
Proof.
  revert j. induction df as [|[c s0] df IH]; intros j; cbn; [done|].
  intros [Hc Hnd]%NoDup_cons. destruct j as [|j]; cbn.
  - intros [= -> ->]. by rewrite decide_True.
  - intros Hj. rewrite decide_False; [by eapply IH|].
    intros ->. destruct Hc. apply list_elem_of_fmap. exists (col, s).
    split; [done|]. by eapply list_elem_of_lookup_2.
Qed.

Lemma lookup_getitem (df : DataFrame) j col s :
  NoDup df.*1 → df.*1 !! j = Some col → getitem df col = Ok s →
  df !! j = Some (col, s).
Proof.
  intros Hnd Hj Hs. rewrite list_lookup_fmap in Hj. revert Hj.
  destruct (df !! j) as [[c s']|] eqn:Hdf; simpl; [|by intros [=]].
  intros [= ->].
  pose proof (getitem_lookup _ _ _ _ Hnd Hdf) as Hs'. congruence.
Qed.

Lemma csv_row_lookup (df : DataFrame) i j col s c :
  df !! j = Some (col, s) → values s !! i = Some c →
  csv_row df i !! j = Some (csv_field c).
Proof.
  intros Hj Hi. unfold csv_row. rewrite list_lookup_fmap, Hj. cbn.
  by rewrite Hi.
Qed.


End TypeAssignment.

Section TypeAssignmentOnSample.
#[local] Existing Instance sample_float64.

Lemma sample_float64_laws : @Float64Laws sample_float64.
Proof. split; [done|by intros []..]. Qed.

Lemma assign_types_idempotent_witness :
  NoDup (schema_fields mixed_schema)
  ∧ NoDup mixed_df.*1
  ∧ assign_types mixed_schema mixed_df
    = Ok [ ("country",
            {| dtype_of := DCategory ["MX"; "nan"];
               values := [Str "MX"; Str "nan"] |});
           ("count", {| dtype_of := DInt64; values := [Int 7; Int 5] |});
           ("amount",
            {| dtype_of := DFloat64; values := [Flt F_1_5; Flt F_nan] |});
           ("note",
            {| dtype_of := DString; values := [Str "a,b"; Str "True"] |}) ]
  ∧ ∃ df1, assign_types mixed_schema mixed_df = Ok df1
           ∧ assign_types mixed_schema df1 = Ok df1.
Proof.
  assert (NoDup (schema_fields mixed_schema)) as Hs.
  { apply (bool_decide_unpack _). by vm_compute. }
  assert (NoDup mixed_df.*1) as Hd.
  { apply (bool_decide_unpack _). by vm_compute. }
  split; [exact Hs|]. split; [exact Hd|]. split; [by vm_compute|].
  eexists. split; [by vm_compute|].
  apply (@assign_types_idempotent sample_float64 sample_float64_laws
           mixed_schema mixed_df); [exact Hs|exact Hd|by vm_compute].
Defined.

(** The schema has to give each field one kind: a field listed both as
    integer and as numeric is converted twice, and a second application
    then meets the text of a double where an integer is expected. *)
Example two_kinds_not_idempotent :
  assign_types
    {| categorical_fts := []; integer_fts := ["count"];
       numeric_fts := ["count"]; text_fts := [] |}
    [("count", object_column [Str "5"])]
  = Ok [("count", {| dtype_of := DFloat64; values := [Flt F_5] |})]
  ∧ assign_types
      {| categorical_fts := []; integer_fts := ["count"];
         numeric_fts := ["count"]; text_fts := [] |}
      [("count", {| dtype_of := DFloat64; values := [Flt F_5] |})]
    = Raise (ValueError "5.0").
Proof. split; by vm_compute. Qed.

End TypeAssignmentOnSample.

Section TypeAssignmentOnPayloads.
#[local] Existing Instance sample_float64.

Lemma dtls_cd_schema_decides_witness :
  NoDup (schema_fields numeric_dtls_schema)
  ∧ NoDup (schema_fields notebook_schema)
  ∧ NoDup sample_df.*1
  ∧ Forall (λ c, c ∈ sample_df.*1) (schema_fields numeric_dtls_schema)
  ∧ Forall (λ c, c ∈ sample_df.*1) (schema_fields notebook_schema)
  ∧ getitem sample_df dtls_cd = Ok sample_dtls_column
  ∧ values sample_dtls_column !! 1 = Some (Str "00.P0006")
  ∧ (∃ e, assign_types numeric_dtls_schema sample_df = Raise e
          ∧ error_kind_of e = TypeCoercionError)
  ∧ (∃ df1 s1, assign_types notebook_schema sample_df = Ok df1
               ∧ getitem df1 dtls_cd = Ok s1
               ∧ values s1 !! 1 = Some (Str "00.P0006")).
Proof.
  assert (NoDup (schema_fields numeric_dtls_schema)) as H1
    by (apply (bool_decide_unpack _); by vm_compute).
  assert (NoDup (schema_fields notebook_schema)) as H2
    by (apply (bool_decide_unpack _); by vm_compute).
  assert (NoDup sample_df.*1) as H3
    by (apply (bool_decide_unpack _); by vm_compute).
  assert (Forall (λ c, c ∈ sample_df.*1) (schema_fields numeric_dtls_schema))
    as H4 by (apply (bool_decide_unpack _); by vm_compute).
  assert (Forall (λ c, c ∈ sample_df.*1) (schema_fields notebook_schema))
    as H5 by (apply (bool_decide_unpack _); by vm_compute).
  split_and!; try done.
  - apply (@dtls_cd_schema_decides sample_float64
             numeric_dtls_schema sample_df sample_dtls_column 1);
      try done.
    cbn. by left.
  - destruct (@dtls_cd_schema_decides sample_float64
                notebook_schema sample_df sample_dtls_column 1
                H2 H3 H5 eq_refl eq_refl) as [_ Hcat].
    destruct Hcat as (Hkeep & _ & Hok).
    { left. cbn. do 4 right. by left. }
    destruct (Hok eq_refl eq_refl) as [df1 Hdf1].
    destruct (Hkeep df1 Hdf1) as [s1 Hs1]. by exists df1, s1.
Defined.


End TypeAssignmentOnPayloads.

(** ** Writing a frame and reading it back *)

(** The written text is followed through two readers: the standard one,
    and the one that breaks the text at the writer's line feed alone. *)
Section Reader.
Variable lineterminator : option ascii.
Hypothesis Hterminator :
  lineterminator = None ∨ lineterminator = Some newline.

Lemma line_end_newline : line_end lineterminator newline = true.
Proof. by destruct Hterminator as [-> | ->]. Qed.

Lemma line_end_comma : line_end lineterminator "," = false.
Proof. by destruct Hterminator as [-> | ->]. Qed.

Lemma line_end_dquote : line_end lineterminator dquote = false.
Proof. by destruct Hterminator as [-> | ->]. Qed.

Lemma tokenize_plain l field row rows rest :
  Forall (λ c, line_end lineterminator c = false ∧ Ascii.eqb c "," = false) l →
  tokenize lineterminator InField field row rows (l ++ rest)
  = tokenize lineterminator InField (reverse l ++ field) row rows rest.
Proof.
  intros Hl. revert field.
  induction Hl as [|c l [Hnl Hcomma] _ IH]; intros field; [done|].
  cbn [app tokenize]. rewrite Hnl, Hcomma, IH, reverse_cons.
  by rewrite <- app_assoc.
Qed.

Lemma tokenize_quoted l field row rows rest :
  tokenize lineterminator InQuoted field row rows
    (double_quotes l ++ dquote :: rest)
  = tokenize lineterminator QuoteInQuoted (reverse l ++ field) row rows rest.
Proof.
  revert field. induction l as [|c l IH]; intros field.
  - done.
  - cbn [double_quotes]. rewrite reverse_cons, <- app_assoc.
    destruct (Ascii.eqb c dquote) eqn:Hc.
    + apply Ascii.eqb_eq in Hc as ->. cbn [app tokenize].
      rewrite Ascii.eqb_refl. apply IH.
    + cbn [app tokenize]. rewrite Hc. apply IH.
Qed.

Lemma needs_quote_false f :
  needs_quote f = false →
  (lineterminator = None → bare_cr f = false) →
  Forall (λ c, Ascii.eqb c "," = false ∧ Ascii.eqb c dquote = false
               ∧ line_end lineterminator c = false) (list_ascii_of_string f).
Proof.
  unfold bare_cr, has_cr, needs_quote. intros Hq Hcr.
  rewrite Hq in Hcr. cbn [negb andb] in Hcr. revert Hq Hcr.
  induction (list_ascii_of_string f) as [|c l IH]; cbn [existsb].
  - by constructor.
  - intros [[[Hc Hq]%orb_false_iff Hn]%orb_false_iff Hl]%orb_false_iff Hcr.
    constructor.
    + split_and!; [done|done|].
      destruct Hterminator as [-> | ->]; cbn [line_end]; [|done].
      rewrite Hn. cbn [orb].
      by destruct (orb_false_elim _ _ (Hcr eq_refl)).
    + apply IH; [done|]. intros Hnone.
      by destruct (orb_false_elim _ _ (Hcr Hnone)).
Qed.

(** What the reader has after a written field: the field read, and the
    state before the separator.  An empty field leaves it at the start of
    a field; a plain one inside the field; a quoted one after the
    closing quote. *)
Lemma tokenize_field f row rows rest :
  (lineterminator = None → bare_cr f = false) →
  tokenize lineterminator FieldStart [] row rows (csv_quote f ++ rest)
  = if decide (f = "") then tokenize lineterminator FieldStart [] row rows rest
    else if needs_quote f
         then tokenize lineterminator QuoteInQuoted
                (reverse (list_ascii_of_string f)) row rows rest
         else tokenize lineterminator InField
                (reverse (list_ascii_of_string f)) row rows rest.
Proof.
  intros Hcr. unfold csv_quote. destruct (needs_quote f) eqn:Hq.
  - rewrite decide_False by (by intros ->).
    cbn [app tokenize]. rewrite line_end_dquote.
    change (Ascii.eqb dquote ",") with false.
    rewrite Ascii.eqb_refl, <- app_assoc. cbn [app].
    by rewrite tokenize_quoted, app_nil_r.
  - apply needs_quote_false in Hq; [|done].
    destruct f as [|c f].
    + by rewrite decide_True.
    + rewrite decide_False by done. cbn [list_ascii_of_string] in *.
      apply Forall_cons in Hq as [(Hc & Hd & Hn) Hl].
      cbn [app tokenize]. rewrite Hn, Hc, Hd, tokenize_plain, reverse_cons.
      * done.
      * eapply Forall_impl; [exact Hl|]. by intros c' (? & ? & ?).
Qed.

Lemma end_field_chars f row :
  end_field (reverse (list_ascii_of_string f)) row = f :: row.
Proof.
  unfold end_field.
  by rewrite reverse_involutive, string_of_list_ascii_of_string.
Qed.

Lemma tokenize_field_comma f row rows rest :
  (lineterminator = None → bare_cr f = false) →
  tokenize lineterminator FieldStart [] row rows
    (csv_quote f ++ ","%char :: rest)
  = tokenize lineterminator FieldStart [] (f :: row) rows rest.
Proof.
  intros Hcr. rewrite tokenize_field by done. case_decide as Hf.
  - subst f. cbn [tokenize]. by rewrite line_end_comma.
  - destruct (needs_quote f); cbn [tokenize];
      change (Ascii.eqb "," dquote) with false;
      rewrite line_end_comma;
      change (Ascii.eqb "," ",") with true; cbn match;
      by rewrite end_field_chars.
Qed.

Lemma tokenize_field_newline f row rows rest :
  (lineterminator = None → bare_cr f = false) →
  row ≠ [] ∨ f ≠ "" →
  tokenize lineterminator FieldStart [] row rows
    (csv_quote f ++ newline :: rest)
  = tokenize lineterminator FieldStart [] [] (reverse (f :: row) :: rows) rest.
Proof.
  intros Hcr Hne. rewrite tokenize_field by done. case_decide as Hf.
  - subst f. cbn [tokenize]. rewrite line_end_newline.
    destruct row; [by destruct Hne|done].
  - destruct (needs_quote f); cbn [tokenize];
      change (Ascii.eqb newline dquote) with false;
      rewrite line_end_newline; cbn match;
      by rewrite end_field_chars.
Qed.

Lemma tokenize_fields fields row rows rest :
  Forall (λ f, lineterminator = None → bare_cr f = false) fields →
  fields ≠ [] →
  row ≠ [] ∨ fields ≠ [""] →
  tokenize lineterminator FieldStart [] row rows
    (join_fields (csv_quote <$> fields) ++ newline :: rest)
  = tokenize lineterminator FieldStart [] []
      (reverse (reverse fields ++ row) :: rows) rest.
Proof.
  intros Hcr. revert row.
  induction Hcr as [|f fields Hf Hcr IH]; intros row Hne Hrow; [done|].
  destruct fields as [|f' fields].
  - cbn [fmap list_fmap join_fields]. rewrite tokenize_field_newline.
    + done.
    + done.
    + destruct Hrow as [?|Hf0]; [by left|]. right. by intros ->.
  - cbn [fmap list_fmap join_fields] in *. rewrite <- app_assoc.
    cbn [app]. rewrite tokenize_field_comma, IH by (done || by left).
    by rewrite (reverse_cons _ f), <- app_assoc.
Qed.

Lemma tokenize_line fields rows rest :
  Forall (λ f, lineterminator = None → bare_cr f = false) fields →
  fields ≠ [] →
  tokenize lineterminator FieldStart [] [] rows (csv_line fields ++ rest)
  = tokenize lineterminator FieldStart [] [] (fields :: rows) rest.
Proof.
  intros Hcr Hne. destruct (decide (fields = [""])) as [->|Hfields].
  - cbn [csv_line app tokenize]. rewrite line_end_dquote.
    change (Ascii.eqb dquote ",") with false. rewrite !Ascii.eqb_refl.
    change (Ascii.eqb newline dquote) with false.
    by rewrite line_end_newline.
  - assert (csv_line fields
            = join_fields (csv_quote <$> fields) ++ [newline]) as ->.
    { unfold csv_line. destruct fields as [|[|] [|]]; done. }
    rewrite <- app_assoc. cbn [app].
    rewrite tokenize_fields by (done || by right).
    by rewrite app_nil_r, reverse_involutive.
Qed.

Lemma tokenize_lines lines rows :
  Forall (Forall (λ f, lineterminator = None → bare_cr f = false)) lines →
  Forall (λ fields, fields ≠ []) lines →
  tokenize lineterminator FieldStart [] [] rows (concat (csv_line <$> lines))
  = Some (reverse rows ++ lines).
Proof.
  intros Hcr Hlines. revert rows.
  induction Hlines as [|fields lines Hne _ IH]; intros rows.
  - cbn. by rewrite app_nil_r.
  - apply Forall_cons in Hcr as [Hf Hcr].
    cbn [fmap list_fmap concat]. rewrite tokenize_line by done.
    rewrite IH, reverse_cons, <- app_assoc by done. done.
Qed.

End Reader.

Section RoundTrip.
Context `{Float64Laws}.

Lemma to_csv_lines_nonempty header (df : DataFrame) :
  df ≠ [] → Forall (λ fields, fields ≠ []) (to_csv_lines header df).
Proof.
  intros Hdf. unfold to_csv_lines. apply Forall_app. split.
  - destruct header; constructor; [|done]. by destruct df.
  - apply Forall_fmap, Forall_forall. intros i _. unfold csv_row.
    by destruct df.
Qed.

(** Broken at the line feeds alone, the written text gives back the
    fields written, whatever they hold. *)
Lemma tokenize_to_csv header (df : DataFrame) :
  df ≠ [] →
  tokenize (Some newline) FieldStart [] [] []
    (list_ascii_of_string (to_csv header df))
  = Some (to_csv_lines header df).
Proof.
  intros Hdf. unfold to_csv.
  rewrite list_ascii_of_string_of_list_ascii, tokenize_lines; first done.
  - by right.
  - apply Forall_forall. intros fields _. apply Forall_forall. by intros f _.
  - by apply to_csv_lines_nonempty.
Qed.









End RoundTrip.


Section RoundTripOnSample.
#[local] Existing Instance sample_float64.


(** With the header row the same frame reads back as well, the first
    record naming the fields. *)
Example csv_round_trip_with_header :
  (df1 ← assign_types mixed_schema mixed_df;
   Ok (read_records (to_csv true df1)))
  = Ok (Some [ ["country"; "count"; "amount"; "note"];
               ["MX"; "7"; "1.5"; "a,b"];
               ["nan"; "5"; ""; "True"] ])
  ∧ (df1 ← assign_types mixed_schema mixed_df;
     raw ← read_csv None (to_csv true df1);
     assign_types mixed_schema raw)
    = assign_types mixed_schema mixed_df.
Proof. split; vm_compute; reflexivity. Qed.


(** The empty string is the one typed value the round trip loses: it is
    written as an empty field and read back as a missing value. *)
Example empty_string_read_back_missing :
  assign_types country_schema [("country", object_column [Str ""; Str "MX"])]
  = Ok [("country", {| dtype_of := DCategory [""; "MX"];
                       values := [Str ""; Str "MX"] |})]
  ∧ read_csv None
      (to_csv true
         [("country", {| dtype_of := DCategory [""; "MX"];
                         values := [Str ""; Str "MX"] |})])
    = Ok [("country", object_column [Flt F_nan; Str "MX"])]
  ∧ assign_types country_schema
      [("country", object_column [Flt F_nan; Str "MX"])]
    = Ok [("country", {| dtype_of := DCategory ["MX"; "nan"];
                         values := [Str "nan"; Str "MX"] |})].
Proof. split_and!; by vm_compute. Qed.

End RoundTripOnSample.

(** ** Selecting the training features *)

Lemma mapM_Ok_inv {A B} (f : A → result B) l bs :
  mapM f l = Ok bs → Forall2 (λ a b, f a = Ok b) l bs.
Proof.
  revert bs. induction l as [|a l IH]; intros bs; cbn.
  - intros [= <-]. constructor.
  - destruct (f a) as [b|e] eqn:Ea; cbn; [|done].
    destruct (mapM f l) as [bs'|e]; cbn; [|done].
    intros [= <-]. constructor; [done|by apply IH].
Qed.

Section PipelineProperties.
Context `{Float64Laws}.

Lemma getitem_not_elem (df : DataFrame) col :
  col ∉ df.*1 → getitem df col = Raise (KeyError col).
Proof.
  induction df as [|[c s] df IH]; cbn; [done|].
  intros Hnot. apply not_elem_of_cons in Hnot as [Hne Hnot].
  destruct (decide (c = col)); [congruence|by apply IH].
Qed.

Lemma select_fields_Ok (df df' : DataFrame) names :
  select_fields df names = Ok df' →
  df'.*1 = names ∧ Forall2 (λ c s, getitem df c = Ok s) names df'.*2.
Proof.
  intros Hsel. apply mapM_Ok_inv in Hsel.
  induction Hsel as [|c [c' s] names df' Hc _ [IH1 IH2]]; [by split; constructor|].
  destruct (getitem df c) as [s0|e] eqn:Es; cbn in Hc; [|done].
  injection Hc as <- <-. cbn. split; [by f_equal|by constructor].
Qed.

Lemma getitem_Forall2 (df0 df : DataFrame) :
  Forall2 (λ c s, getitem df0 c = Ok s) df.*1 df.*2 →
  Forall (λ c, getitem df c = getitem df0 c) df.*1.
Proof.
  induction df as [|[c s] df IH]; cbn; [constructor|].
  intros Hall. apply Forall2_cons in Hall as [Hc Hall].
  constructor.
  - by rewrite decide_True.
  - specialize (IH Hall). rewrite Forall_forall in IH |- *.
    intros c' Hc'. destruct (decide (c = c')) as [->|Hne]; [done|].
    by apply IH.
Qed.

Lemma getitem_length (df : DataFrame) c s :
  rectangular df → getitem df c = Ok s → length (values s) = nrows df.
Proof.
  unfold rectangular. generalize (nrows df) as n. intros n Hrect.
  induction Hrect as [|[c0 s0] df Hc0 _ IH]; cbn; [done|].
  destruct (decide (c0 = c)); [by intros [= <-]|done].
Qed.

Lemma select_fields_total (df : DataFrame) (names : list string) :
  Forall (λ c, c ∈ df.*1) names →
  ∃ df',
    select_fields df names = Ok df'
    ∧ df'.*1 = names
    ∧ Forall (λ c, getitem df' c = getitem df c) names
    ∧ Forall2 (λ c s, getitem df c = Ok s) names df'.*2.
Proof.
  intros Hall.
  destruct (mapM_Ok_Forall2 (λ c, s ← getitem df c; Ok (c, s)) names)
    as (df' & Hsel & _).
  { eapply Forall_impl; [exact Hall|]. intros c Hc.
    destruct (getitem_elem_Ok _ _ Hc) as [s ->]. by eexists. }
  exists df'. split; [done|].
  destruct (select_fields_Ok _ _ _ Hsel) as [Hnames Hcols].
  split_and!; [done| |done].
  rewrite <- Hnames. apply getitem_Forall2. by rewrite Hnames.
Qed.

Lemma select_fields_Raise (df : DataFrame) (names : list string) (c : string) :
  c ∈ names →
  c ∉ df.*1 →
  ∃ c', select_fields df names = Raise (KeyError c')
        ∧ c' ∈ names ∧ (c' ∉ df.*1).
Proof.
  intros Hin Hnot. unfold select_fields.
  induction names as [|c0 names IH]; [by apply elem_of_nil in Hin|].
  cbn. destruct (decide (c0 ∈ df.*1)) as [Hc0|Hc0].
  - destruct (getitem_elem_Ok _ _ Hc0) as [s ->]. cbn.
    apply elem_of_cons in Hin as [->|Hin]; [done|].
    destruct (IH Hin) as (c' & -> & Hc' & Hnc'). cbn.
    exists c'. split_and!; [done| |done]. by right.
  - rewrite (getitem_not_elem _ _ Hc0). cbn.
    exists c0. split_and!; [done| |done]. by left.
Qed.

(** X1. Selecting names that are all columns of the frame succeeds: the
    result has exactly these names, in the order of the list, and under
    each of them the column the frame has under it; rows are neither added
    nor dropped. *)
Theorem select_fields_columns (df : DataFrame) (names : list string) :
  Forall (λ c, c ∈ df.*1) names →
  ∃ df',
    select_fields df names = Ok df'
    ∧ df'.*1 = names
    ∧ Forall (λ c, getitem df' c = getitem df c) names
    ∧ (rectangular df → names ≠ [] →
       rectangular df' ∧ nrows df' = nrows df).
Proof.
  intros Hall.
  destruct (select_fields_total df names Hall)
    as (df' & Hsel & Hnames & Hget & Hcols).
  exists df'. split_and!; [done|done|done|].
  intros Hrect Hne.
  assert (Forall (λ s, length (values s) = nrows df) df'.*2) as Hlen.
  { rewrite Forall_forall. intros s Hs.
    apply list_elem_of_lookup in Hs as [i Hs].
    destruct (Forall2_lookup_r _ _ _ _ _ Hcols Hs) as (c & _ & Hc).
    by eapply getitem_length. }
  assert (nrows df' = nrows df) as Hrows.
  { destruct df' as [|[c s] df']; [by destruct names|].
    cbn in Hlen |- *. by apply Forall_cons in Hlen as [? _]. }
  split; [|done]. unfold rectangular. rewrite Hrows.
  rewrite Forall_fmap in Hlen. eapply Forall_impl; [exact Hlen|].
  by intros [c s].
Qed.

(** X2. Selecting a name that is no column of the frame raises [KeyError]
    (a schema mismatch) for a name of the list that the frame lacks; no
    frame is produced. *)
Theorem select_fields_missing (df : DataFrame) (names : list string)
    (c : string) :
  c ∈ names →
  c ∉ df.*1 →
  ∃ c',
    select_fields df names = Raise (KeyError c')
    ∧ c' ∈ names ∧ (c' ∉ df.*1)
    ∧ error_kind_of (KeyError c') = SchemaMismatch.
Proof.
  intros Hin Hnot.
  destruct (select_fields_Raise df names c Hin Hnot) as (c' & ? & ? & ?).
  by exists c'.
Qed.

Lemma steps_keep_total steps (df : DataFrame) :
  Forall (λ '(k, c), (k = Categorical ∨ k = Text) ∧ c ∈ df.*1) steps →
  ∃ df1, for_each steps (λ df '(k, c), assign_column k df c) df = Ok df1.
Proof.
  revert df. induction steps as [|[k c] steps IH]; intros df Hall.
  { by eexists. }
  apply Forall_cons in Hall as [[Hk Hc] Hall]. cbn.
  destruct (getitem_elem_Ok _ _ Hc) as [s Hs].
  destruct (astype_from_str_keeps k s Hk) as (s1 & Hs1 & _).
  unfold assign_column. rewrite Hs. cbn. rewrite Hs1. cbn.
  apply IH. eapply Forall_impl; [exact Hall|].
  intros [k' c']. by rewrite setitem_names.
Qed.

Lemma rename_getitem (df : DataFrame) (m : gmap string string) c :
  NoDup ((λ c, default c (m !! c)) <$> df.*1) →
  c ∈ df.*1 →
  getitem ((λ '(c, s), (default c (m !! c), s)) <$> df) (default c (m !! c))
  = getitem df c.
Proof.
  induction df as [|[c0 s0] df IH]; cbn; [by intros _ ?%elem_of_nil|].
  intros Hnd Hin. apply NoDup_cons in Hnd as [Hc0 Hnd].
  destruct (decide (c0 = c)) as [->|Hne]; [by rewrite decide_True|].
  apply elem_of_cons in Hin as [->|Hin]; [done|].
  rewrite decide_False; [by apply IH|].
  intros Heq. apply Hc0. rewrite Heq.
  by apply (list_elem_of_fmap_2 (λ c, default c (m !! c))).
Qed.

(** X3. The select, rename and type-assignment cells together: on labeled
    data that has the seven training features they succeed; the result has
    the seven short names in the order of [fts]; the target and the
    free-text instruction are the columns of the labeled data, unchanged;
    and every renamed field that the notebook types as categorical holds
    the texts of its cells, with the sorted distinct texts as
    categories. *)
Theorem prepare_columns (df : DataFrame) :
  Forall (λ c, c ∈ df.*1) fts →
  ∃ out,
    prepare df = Ok out
    ∧ out.*1 = [ "y_target"; "Dbtr_PstlAdr_Ctry"; "Cdtr_PstlAdr_Ctry";
                 "RgltryRptg_DbtCdtRptgInd"; "RgltryRptg_Authrty_Ctry";
                 "RgltryRptg_Dtls_Cd"; "InstrForNxtAgt" ]
    ∧ getitem out "y_target" = getitem df "y_target"
    ∧ getitem out "InstrForNxtAgt"
      = getitem df
          "Document_FIToFICstmrCdtTrf_CdtTrfTxInf_InstrForNxtAgt_InstrInf"
    ∧ (∀ long short s,
         notebook_rename_map !! long = Some short →
         short ∈ categorical_fts notebook_schema →
         getitem df long = Ok s →
         getitem out short
         = Ok {| dtype_of := DCategory (sorted_set (astype_str s));
                 values := Str <$> astype_str s |}).
Proof.
  intros Hall. unfold prepare.
  destruct (select_fields_total df fts Hall)
    as (sel & -> & Hnames & Hget & _).
  cbn [mbind result_bind].
  unfold rename_fields, rename. cbn [mbind result_bind].
  set (f := λ c, default c (notebook_rename_map !! c)).
  set (ren := (λ '(c, s), (default c (notebook_rename_map !! c), s)) <$> sel).
  assert (f <$> fts
          = [ "y_target"; "Dbtr_PstlAdr_Ctry"; "Cdtr_PstlAdr_Ctry";
              "RgltryRptg_DbtCdtRptgInd"; "RgltryRptg_Authrty_Ctry";
              "RgltryRptg_Dtls_Cd"; "InstrForNxtAgt" ]) as Hshort
    by by vm_compute.
  assert (ren.*1 = f <$> sel.*1) as Hren1.
  { subst ren. rewrite <- !list_fmap_compose. apply list_fmap_ext.
    by intros i [c s] _. }
  rewrite Hnames, Hshort in Hren1.
  assert (∀ c, c ∈ fts → getitem ren (f c) = getitem df c) as Hren.
  { intros c Hc. rewrite Forall_forall in Hget. rewrite <- (Hget c Hc).
    apply rename_getitem; [|by rewrite Hnames].
    rewrite Hnames. fold f. rewrite Hshort.
    apply (bool_decide_unpack _). by vm_compute. }
  rewrite assign_types_steps.
  assert (NoDup (type_steps notebook_schema).*2) as Hnd.
  { apply (bool_decide_unpack _). by vm_compute. }
  destruct (steps_keep_total (type_steps notebook_schema) ren) as [out Hout].
  { rewrite Hren1. unfold notebook_schema, type_steps. cbn.
    repeat (constructor;
            [split; [by left|apply (bool_decide_unpack _); by vm_compute]|]).
    constructor. }
  exists out. split; [done|].
  assert (∀ c, bool_decide (c ∈ fts) = true → c ∈ fts) as Hfts.
  { intros c. apply bool_decide_eq_true. }
  assert (∀ c, bool_decide (c ∈ (type_steps notebook_schema).*2) = false
               → c ∉ (type_steps notebook_schema).*2) as Hsteps.
  { intros c. apply bool_decide_eq_false. }
  split_and!.
  - by rewrite (steps_names _ _ _ Hout).
  - rewrite (steps_preserve _ _ _ "y_target") with (2 := Hout)
      by (apply Hsteps; by vm_compute).
    rewrite <- (Hren "y_target") by (apply Hfts; by vm_compute).
    f_equal.
  - rewrite (steps_preserve _ _ _ "InstrForNxtAgt") with (2 := Hout)
      by (apply Hsteps; by vm_compute).
    rewrite <- (Hren
      "Document_FIToFICstmrCdtTrf_CdtTrfTxInf_InstrForNxtAgt_InstrInf")
      by (apply Hfts; by vm_compute).
    f_equal.
  - intros long short s Hmap Hcat Hs.
    assert (f long = short) as Hf by (unfold f; by rewrite Hmap).
    assert (long ∈ fts) as Hlong.
    { apply elem_of_list_to_map_2 in Hmap.
      match type of Hmap with
      | _ ∈ ?pairs => assert (Forall (λ p, p.1 ∈ fts) pairs) as Hkeys
      end.
      { apply (bool_decide_unpack _). by vm_compute. }
      rewrite Forall_forall in Hkeys. apply (Hkeys _ Hmap). }
    apply (elem_of_type_steps _ Categorical) in Hcat.
    destruct (steps_column _ _ _ _ _ Hnd Hcat Hout)
      as (s' & s1' & Hs' & Hconv & Hs1').
    rewrite <- Hf, (Hren _ Hlong), Hs in Hs'. injection Hs' as <-.
    rewrite Hs1'. f_equal. cbn in Hconv. by injection Hconv as <-.
Qed.


(** ** Type assignment: shape, failures and missing values *)

Lemma astype_from_str_length k strs (s : Series) :
  astype_from_str k strs = Ok s → length (values s) = length strs.
Proof.
  destruct k; cbn.
  - intros [= <-]. cbn. by rewrite length_fmap.
  - destruct (mapM _ strs) as [cells|e] eqn:E; cbn; [|done].
    intros [= <-]. cbn. apply mapM_Ok_inv, Forall2_length in E. done.
  - destruct (mapM _ strs) as [cells|e] eqn:E; cbn; [|done].
    intros [= <-]. cbn. apply mapM_Ok_inv, Forall2_length in E. done.
  - intros [= <-]. cbn. by rewrite length_fmap.
Qed.

Lemma lengths_refl (df : DataFrame) :
  Forall2 (λ a b, length (values a.2) = length (values b.2)) df df.
Proof. induction df; by constructor. Qed.

Lemma setitem_lengths (df : DataFrame) col s s' :
  getitem df col = Ok s →
  length (values s') = length (values s) →
  Forall2 (λ a b, length (values a.2) = length (values b.2))
          df (setitem df col s').
Proof.
  intros Hs Hlen. induction df as [|[c s0] df IH]; cbn in *; [done|].
  destruct (decide (c = col)).
  - injection Hs as ->. constructor; [done|]. apply lengths_refl.
  - constructor; [done|by apply IH].
Qed.

Lemma steps_lengths steps (df df1 : DataFrame) :
  for_each steps (λ df '(k, c), assign_column k df c) df = Ok df1 →
  Forall2 (λ a b, length (values a.2) = length (values b.2)) df df1.
Proof.
  revert df. induction steps as [|[k c] steps IH]; intros df; cbn.
  { intros [= <-]. apply lengths_refl. }
  destruct (assign_column k df c) as [df'|e] eqn:E; cbn; [|done].
  intros Hrun. specialize (IH _ Hrun).
  destruct (assign_column_Ok _ _ _ _ E) as (s & s' & Hs & Hconv & ->).
  apply astype_from_str_length in Hconv.
  unfold astype_str in Hconv. rewrite length_fmap in Hconv.
  pose proof (setitem_lengths df c s s' Hs Hconv) as Hstep.
  apply Forall2_same_length_lookup_2.
  { by rewrite (Forall2_length _ _ _ Hstep), (Forall2_length _ _ _ IH). }
  intros i a b Ha Hb.
  destruct (Forall2_lookup_l _ _ _ _ _ Hstep Ha) as (m & Hm & Ham).
  destruct (Forall2_lookup_l _ _ _ _ _ IH Hm) as (b' & Hb' & Hmb).
  rewrite Hb in Hb'. injection Hb' as <-. congruence.
Qed.

(** X4. A successful type assignment keeps the shape of the frame: the
    column names and their order, the number of cells of every column
    (so a rectangular frame stays rectangular, with as many rows), and
    every column that the schema does not name. *)
Theorem assign_types_shape (schema : Schema) (df df1 : DataFrame) :
  assign_types schema df = Ok df1 →
  df1.*1 = df.*1
  ∧ Forall2 (λ a b, length (values a.2) = length (values b.2)) df df1
  ∧ (rectangular df → rectangular df1 ∧ nrows df1 = nrows df)
  ∧ (∀ c, c ∉ schema_fields schema → getitem df1 c = getitem df c).
Proof.
  rewrite assign_types_steps. intros Hrun.
  pose proof (steps_lengths _ _ _ Hrun) as Hlen.
  assert (nrows df1 = nrows df) as Hrows.
  { destruct Hlen as [|[c s] [c1 s1] df df1 Hs _]; [done|]. by cbn in *. }
  split_and!.
  - by eapply steps_names.
  - done.
  - intros Hrect. split; [|done]. unfold rectangular in *. rewrite Hrows.
    rewrite Forall_lookup in Hrect |- *. intros i [c1 s1] H1.
    destruct (Forall2_lookup_r _ _ _ _ _ Hlen H1) as ([c s] & Hc & Hcs).
    specialize (Hrect _ _ Hc). cbn in *. congruence.
  - intros c Hc. eapply steps_preserve; [|done].
    by rewrite type_steps_fields.
Qed.

Lemma steps_missing steps (df : DataFrame) c :
  c ∈ steps.*2 →
  c ∉ df.*1 →
  ∃ e, for_each steps (λ df '(k, c), assign_column k df c) df = Raise e
       ∧ (Forall (λ '(k, _), k = Categorical ∨ k = Text) steps →
          ∃ c', e = KeyError c' ∧ c' ∈ steps.*2 ∧ (c' ∉ df.*1)).
Proof.
  revert df. induction steps as [|[k c0] steps IH]; intros df Hin Hnot.
  { by apply elem_of_nil in Hin. }
  cbn [for_each].
  destruct (assign_column k df c0) as [df'|e] eqn:E; cbn [mbind result_bind].
  - destruct (assign_column_Ok _ _ _ _ E) as (s & s' & Hs & Hconv & ->).
    pose proof (getitem_Ok_elem _ _ _ Hs) as Hc0.
    cbn in Hin. apply elem_of_cons in Hin as [->|Hin]; [done|].
    destruct (IH (setitem df c0 s')) as (e & -> & Hkind); [done| |].
    { by rewrite setitem_names. }
    exists e. split; [done|]. intros Hall.
    apply Forall_cons in Hall as [_ Hall].
    destruct (Hkind Hall) as (c' & -> & Hc' & Hnc').
    exists c'. split_and!; [done|by right|].
    by rewrite setitem_names in Hnc'.
  - exists e. split; [done|]. intros Hall.
    apply Forall_cons in Hall as [Hk _]. unfold assign_column in E.
    destruct (decide (c0 ∈ df.*1)) as [Hc0|Hc0].
    + destruct (getitem_elem_Ok _ _ Hc0) as [s Hs]. rewrite Hs in E.
      destruct (astype_from_str_keeps k s Hk) as (s1 & Hs1 & _).
      cbn in E. by rewrite Hs1 in E.
    + rewrite (getitem_not_elem _ _ Hc0) in E. cbn in E. injection E as <-.
      exists c0. split_and!; [done|by left|done].
Qed.

(** X5. Type assignment on a frame that lacks a field of the schema never
    succeeds.  When the schema declares only categorical and text fields,
    as the notebook's does, the failure is the [KeyError] (schema
    mismatch) of a declared field that the frame lacks. *)
Theorem assign_types_missing_field (schema : Schema) (df : DataFrame)
    (c : string) :
  c ∈ schema_fields schema →
  c ∉ df.*1 →
  ∃ e,
    assign_types schema df = Raise e
    ∧ (integer_fts schema = [] → numeric_fts schema = [] →
       ∃ c', e = KeyError c' ∧ c' ∈ schema_fields schema ∧ (c' ∉ df.*1)
             ∧ error_kind_of e = SchemaMismatch).
Proof.
  intros Hin Hnot. rewrite assign_types_steps.
  rewrite <- type_steps_fields in Hin |- *.
  destruct (steps_missing _ _ _ Hin Hnot) as (e & He & Hkind).
  exists e. split; [done|]. intros Hint Hnum.
  destruct Hkind as (c' & -> & Hc' & Hnc').
  { unfold type_steps. rewrite Hint, Hnum. cbn.
    rewrite Forall_app, !Forall_fmap. split; apply Forall_true; intros ?; cbn; auto. }
  by exists c'.
Qed.


(** X6. A missing value in a field declared numeric stays missing: it is
    stringified to [nan], which [float] reads back as NaN, so the typed
    column is a float column with NaN at that row and the CSV writer
    leaves the field empty. *)
Theorem missing_numeric_stays_missing (schema : Schema) (df df1 : DataFrame)
    (col : string) (s : Series) (i j : nat) :
  NoDup (schema_fields schema) →
  NoDup df.*1 →
  col ∈ numeric_fts schema →
  df !! j = Some (col, s) →
  values s !! i = Some (Flt nan) →
  assign_types schema df = Ok df1 →
  ∃ s1,
    df1 !! j = Some (col, s1)
    ∧ dtype_of s1 = DFloat64
    ∧ values s1 !! i = Some (Flt nan)
    ∧ csv_row df1 i !! j = Some "".
Proof.
  intros Hschema Hnd Hnum Hj Hi. rewrite assign_types_steps. intros Hrun.
  rewrite <- type_steps_fields in Hschema.
  pose proof (getitem_lookup _ _ _ _ Hnd Hj) as Hs.
  apply (elem_of_type_steps _ Numeric) in Hnum.
  destruct (steps_column _ _ _ _ _ Hschema Hnum Hrun)
    as (s' & s1 & Hs' & Hconv & Hs1).
  rewrite Hs in Hs'. injection Hs' as <-.
  cbn in Hconv.
  destruct (mapM _ (astype_str s)) as [cells|e] eqn:Ecells; cbn in Hconv;
    [|done].
  injection Hconv as <-.
  assert (astype_str s !! i = Some "nan") as Hstr.
  { unfold astype_str. rewrite list_lookup_fmap, Hi. cbn.
    by rewrite float_str_nan. }
  destruct (mapM_Ok_lookup _ _ _ _ _ Ecells Hstr) as (b & Hb & Hconv).
  rewrite <- float_str_nan in Hconv.
  rewrite float_str_literal, float_str_roundtrip in Hconv.
  injection Hconv as <-.
  pose proof (steps_names _ _ _ Hrun) as Hnames.
  set (s1 := {| dtype_of := DFloat64; values := cells |}) in *.
  assert (df1 !! j = Some (col, s1)) as Hj1.
  { apply lookup_getitem; [by rewrite Hnames| |done].
    by rewrite Hnames, list_lookup_fmap, Hj. }
  exists s1. split_and!; [done|done|done|].
  rewrite (csv_row_lookup _ _ _ _ _ _ Hj1 Hb). cbn. by rewrite decide_True.
Qed.

(** X7. A field declared integer cannot hold a missing value, nor a
    number outside the 64-bit range: with such a cell anywhere in the
    column, the type assignment fails with a type-coercion error
    ([ValueError] or [OverflowError]) whatever the rest of the frame
    holds. *)
Theorem integer_field_rejects (schema : Schema) (df : DataFrame)
    (col : string) (s : Series) (i : nat) (c : cell) :
  NoDup (schema_fields schema) →
  Forall (λ c, c ∈ df.*1) (schema_fields schema) →
  col ∈ integer_fts schema →
  getitem df col = Ok s →
  values s !! i = Some c →
  c = Flt nan
  ∨ (∃ z, str c = str_of_Z z ∧ ¬ (int64_min ≤ z ≤ int64_max)%Z) →
  ∃ e,
    assign_types schema df = Raise e
    ∧ error_kind_of e = TypeCoercionError.
Proof.
  intros Hschema Hall Hint Hs Hi Hc. rewrite assign_types_steps.
  rewrite <- type_steps_fields in Hschema, Hall.
  apply (elem_of_type_steps _ Integer) in Hint.
  destruct (for_each _ _ df) as [df1|e] eqn:Hrun.
  - exfalso.
    destruct (steps_column _ _ _ _ _ Hschema Hint Hrun)
      as (s' & s1 & Hs' & Hconv & _).
    rewrite Hs in Hs'. injection Hs' as <-.
    cbn in Hconv.
    destruct (mapM _ (astype_str s)) as [cells|e] eqn:Ecells; cbn in Hconv;
      [|done].
    assert (astype_str s !! i = Some (str c)) as Hstr.
    { unfold astype_str. by rewrite list_lookup_fmap, Hi. }
    destruct (mapM_Ok_lookup _ _ _ _ _ Ecells Hstr) as (b & _ & Hb).
    destruct Hc as [->|(z & Hz & Hrange)].
    + cbn in Hb. rewrite float_str_nan in Hb. by vm_compute in Hb.
    + rewrite Hz, parse_int_literal_str_of_Z in Hb.
      by rewrite bool_decide_false in Hb.
  - exists e. split; [done|].
    destruct (steps_Raise _ _ _ Hschema Hall Hrun)
      as (k & c' & s' & _ & _ & Hraise).
    by destruct (astype_from_str_Raise _ _ _ Hraise).
Qed.

End PipelineProperties.

(** ** Splitting: what a successful split returns *)

Lemma validate_fraction_inv (n : nat) (f : float) (d : size_arg) a b :
  validate_shuffle_split n (SzFloat f) SzNone d = Ok (a, b) →
  a = (Z.of_nat n - b)%Z
  ∧ float_ceil (f * float_of_Z (Z.of_nat n)) = Some b.
Proof.
  unfold validate_shuffle_split. cbn [size_out_of_range float_sum_gt_one].
  destruct ((f <=? 0)%float || (1 <=? f)%float); [done|].
  destruct (float_ceil (f * float_of_Z (Z.of_nat n))) as [k|]; [|done].
  cbn [mbind result_bind].
  destruct (Z.of_nat n <? Z.of_nat n - k + k)%Z; [done|].
  destruct (Z.of_nat n - k =? 0)%Z; [done|].
  by intros [= <- <-].
Qed.

Lemma validate_counts_inv (n : nat) (d : size_arg) a b a' b' :
  validate_shuffle_split n (SzInt b) (SzInt a) d = Ok (a', b') →
  a' = a ∧ b' = b ∧ (0 < b)%Z ∧ (0 < a)%Z ∧ (a + b ≤ Z.of_nat n)%Z.
Proof.
  unfold validate_shuffle_split. cbn [size_out_of_range float_sum_gt_one].
  destruct (Z.leb_spec (Z.of_nat n) b); [done|].
  destruct (Z.leb_spec b 0); [done|]. cbn [orb].
  destruct (Z.leb_spec (Z.of_nat n) a); [done|].
  destruct (Z.leb_spec a 0); [done|]. cbn [orb mbind result_bind].
  destruct (Z.ltb_spec (Z.of_nat n) (a + b)); [done|].
  destruct (a =? 0)%Z; [done|].
  intros [= <- <-]. lia.
Qed.

Lemma safe_indexing_inv {A} (X : list A) (ind : list nat) rows :
  safe_indexing X ind = Ok rows →
  Forall2 (λ i r, X !! i = Some r) ind rows.
Proof.
  intros Hrows. apply mapM_Ok_inv in Hrows.
  eapply Forall2_impl; [exact Hrows|]. cbn. intros i r.
  by destruct (X !! i); intros [= ->].
Qed.

Lemma omap_lookup_seq_from {A} (pre X : list A) :
  omap (λ i, (pre ++ X) !! i) (seq (length pre) (length X)) = X.
Proof.
  revert pre. induction X as [|x X IH]; intros pre; [done|].
  cbn [length seq omap list_omap]. rewrite list_lookup_middle by done. f_equal.
  specialize (IH (pre ++ [x])).
  rewrite <- app_assoc, length_app, Nat.add_comm in IH. exact IH.
Qed.

Lemma omap_lookup_seq {A} (X : list A) :
  omap (λ i, X !! i) (seq 0 (length X)) = X.
Proof. apply (omap_lookup_seq_from []). Qed.

Lemma lookup_rows_omap {A} (X : list A) ind rows :
  Forall2 (λ i r, X !! i = Some r) ind rows →
  rows = omap (λ i, X !! i) ind.
Proof.
  induction 1 as [|i r ind rows Hi _ IH]; [done|].
  cbn. rewrite Hi. by f_equal.
Qed.

Lemma lookup_rows_perm {A} (X : list A) ind rows :
  Forall2 (λ i r, X !! i = Some r) ind rows →
  ind ≡ₚ seq 0 (length X) →
  rows ≡ₚ X.
Proof.
  intros Hrows Hperm. rewrite (lookup_rows_omap _ _ _ Hrows), Hperm.
  by rewrite omap_lookup_seq.
Qed.

Section SplitOutcome.
Context `{RandomStateLaws}.

Lemma shuffle_split_indices_Ok (n : nat) (a b : Z) rs g ind_train ind_test g' :
  (a = Z.of_nat n - b)%Z →
  shuffle_split_indices n b a rs g = (Ok (ind_train, ind_test), g') →
  ind_train ++ ind_test ≡ₚ seq 0 n
  ∧ length ind_test = Z.to_nat b
  ∧ ind_train ≠ [] ∧ ind_test ≠ []
  ∧ (∀ seed, rs = RsInt seed → g' = g).
Proof.
  intros Ha. unfold shuffle_split_indices.
  destruct (validate_shuffle_split _ _ _ _) as [[a' b']|e] eqn:Ev; [|done].
  destruct (validate_counts_inv _ _ _ _ _ _ Ev) as (-> & -> & Hb & Ha0 & Hsum).
  destruct (check_random_state rs g) as [generator|e]; [|done].
  pose proof (permutation_length generator n) as Hlen.
  pose proof (permutation_perm generator n) as Hperm.
  destruct (permutation generator n) as [perm g1].
  cbn [fst] in Hlen, Hperm.
  intros [= <- <- <-].
  rewrite take_ge by (rewrite length_drop; lia).
  split_and!.
  - by rewrite Permutation_app_comm, take_drop.
  - rewrite length_take. lia.
  - intros Hnil. apply (f_equal length) in Hnil.
    rewrite length_drop in Hnil. cbn in Hnil. lia.
  - intros Hnil. apply (f_equal length) in Hnil.
    rewrite length_take in Hnil. cbn in Hnil. lia.
  - by intros seed ->.
Qed.

(** X8. Whenever [split] returns, neither part is empty, the two parts
    together are a rearrangement of the records (no record lost, none
    duplicated), the test part has ceil(f * N) records, and the
    process-wide generator is left as it was. *)
Theorem split_parts {A} (records train test : list A) (f : float)
    (seed : Z) (g g' : rng) :
  split records f seed g = (Ok (train, test), g') →
  train ≠ [] ∧ test ≠ []
  ∧ train ++ test ≡ₚ records
  ∧ float_ceil (f * float_of_Z (Z.of_nat (length records)))
    = Some (Z.of_nat (length test))
  ∧ g' = g.
Proof.
  unfold split, train_test_split.
  destruct (validate_shuffle_split _ _ _ _) as [[a b]|e] eqn:Ev; [|done].
  destruct (validate_fraction_inv _ _ _ _ _ Ev) as [Ha Hceil].
  destruct (shuffle_split_indices _ _ _ _ _) as [[[ind_train ind_test]|e] g1]
    eqn:Ei; cbn [mbind result_bind]; [|done].
  destruct (shuffle_split_indices_Ok _ _ _ _ _ _ _ _ Ha Ei)
    as (Hperm & Hlen & Htr & Hte & Hg).
  destruct (safe_indexing records ind_train) as [train'|e] eqn:Etr;
    cbn [mbind result_bind]; [|done].
  destruct (safe_indexing records ind_test) as [test'|e] eqn:Ete;
    cbn [mbind result_bind]; [|done].
  intros [= <- <- <-].
  apply safe_indexing_inv in Etr, Ete.
  pose proof (Forall2_length _ _ _ Etr) as Ltr.
  pose proof (Forall2_length _ _ _ Ete) as Lte.
  unfold shuffle_split_indices in Ei.
  destruct (validate_shuffle_split _ (SzInt b) _ _) as [[a' b']|e] eqn:Ev2;
    [|done].
  destruct (validate_counts_inv _ _ _ _ _ _ Ev2) as (_ & _ & Hb & _ & _).
  split_and!.
  - intros ->. by destruct ind_train.
  - intros ->. by destruct ind_test.
  - eapply lookup_rows_perm; [|exact Hperm]. by apply Forall2_app.
  - rewrite Hceil. f_equal. lia.
  - by eapply Hg.
Qed.

(** X9. On an empty dataset or a single record the notebooks' split
    (test size 0.2) cannot leave a record for training: it raises
    [ValueError] for any seed, and produces no parts. *)
Theorem split_too_small {A} (records : list A) (seed : Z) (g : rng) :
  (length records ≤ 1)%nat →
  ∃ what, split records test_size_020 seed g = (Raise (ValueError what), g).
Proof.
  intros Hlen.
  destruct records as [|x [|y records]]; [| |cbn in Hlen; lia].
  - unfold split, train_test_split.
    assert (validate_shuffle_split (length (@nil A)) (SzFloat test_size_020)
              SzNone (SzFloat 0.25) = Raise (ValueError "empty train set"))
      as -> by by vm_compute.
    by eexists.
  - unfold split, train_test_split.
    assert (validate_shuffle_split (length [x]) (SzFloat test_size_020)
              SzNone (SzFloat 0.25) = Raise (ValueError "empty train set"))
      as -> by by vm_compute.
    by eexists.
Qed.

End SplitOutcome.

(** ** Splitting the frame and writing the parts *)

Lemma string_of_list_ascii_app l1 l2 :
  string_of_list_ascii (l1 ++ l2)
  = (string_of_list_ascii l1 ++ string_of_list_ascii l2)%string.
Proof. induction l1 as [|c l1 IH]; cbn; [done|by rewrite IH]. Qed.

Section SplitFrame.
Context `{Float64Laws} `{RandomStateLaws}.

Lemma iloc_series_inv (s s' : Series) ind :
  iloc_series s ind = Ok s' →
  dtype_of s' = dtype_of s
  ∧ Forall2 (λ i c, values s !! i = Some c) ind (values s').
Proof.
  unfold iloc_series.
  destruct (safe_indexing (values s) ind) as [v|e] eqn:Ev; cbn; [|done].
  intros [= <-]. split; [done|]. by apply safe_indexing_inv.
Qed.

Lemma iloc_inv (df df' : DataFrame) ind :
  iloc df ind = Ok df' →
  Forall2 (λ a b, b.1 = a.1 ∧ iloc_series a.2 ind = Ok b.2) df df'.
Proof.
  intros Hdf. apply mapM_Ok_inv in Hdf.
  eapply Forall2_impl; [exact Hdf|]. intros [c s] [c' s']. cbn.
  destruct (iloc_series s ind) as [s1|e]; cbn; [|done]. by intros [= <- <-].
Qed.

Lemma iloc_names (df df' : DataFrame) ind :
  iloc df ind = Ok df' → df'.*1 = df.*1.
Proof.
  intros Hdf. apply iloc_inv in Hdf.
  induction Hdf as [|a b df df' [Hn _] _ IH]; [done|]. cbn. by f_equal.
Qed.

Lemma getitem_iloc (df df' : DataFrame) ind c s s' :
  iloc df ind = Ok df' →
  getitem df c = Ok s →
  iloc_series s ind = Ok s' →
  getitem df' c = Ok s'.
Proof.
  intros Hdf. apply iloc_inv in Hdf.
  induction Hdf as [|[c0 s0] [c1 s1] df df' [Hn Hs] _ IH]; cbn in *; [done|].
  subst c1. destruct (decide (c0 = c)); [|done].
  intros [= ->] Hs'. congruence.
Qed.

Lemma nrows_iloc (df df' : DataFrame) ind :
  df ≠ [] → iloc df ind = Ok df' → nrows df' = length ind.
Proof.
  intros Hne Hdf. apply iloc_inv in Hdf.
  destruct Hdf as [|[c s] [c' s'] df df' [_ Hs] _]; [done|]. cbn in *.
  apply iloc_series_inv in Hs as [_ Hs]. by rewrite (Forall2_length _ _ _ Hs).
Qed.

Lemma csv_row_iloc (df df' : DataFrame) ind p i :
  iloc df ind = Ok df' → ind !! p = Some i → csv_row df' p = csv_row df i.
Proof.
  intros Hdf Hp. apply iloc_inv in Hdf. unfold csv_row.
  induction Hdf as [|[c s] [c' s'] df df' [_ Hs] _ IH]; [done|]. cbn in *.
  f_equal; [|done].
  apply iloc_series_inv in Hs as [_ Hs].
  destruct (Forall2_lookup_l _ _ _ _ _ Hs Hp) as (x & -> & ->). done.
Qed.

Lemma to_csv_lines_iloc (df df' : DataFrame) ind :
  df ≠ [] → iloc df ind = Ok df' →
  to_csv_lines false df' = csv_row df <$> ind.
Proof.
  intros Hne Hdf. unfold to_csv_lines. cbn [app].
  rewrite (nrows_iloc _ _ _ Hne Hdf).
  apply list_eq. intros p. rewrite !list_lookup_fmap.
  destruct (ind !! p) as [i|] eqn:Hp; cbn.
  - rewrite lookup_seq_lt by by eapply lookup_lt_Some. cbn.
    by rewrite (csv_row_iloc _ _ _ _ _ Hdf Hp).
  - rewrite lookup_seq_ge; [done|]. by apply lookup_ge_None.
Qed.

Lemma iloc_series_Ok (s : Series) ind :
  Forall (λ i, i < length (values s)) ind →
  ∃ s', iloc_series s ind = Ok s'.
Proof.
  intros Hind. destruct (safe_indexing_Ok _ _ Hind) as (v & Hv & _).
  unfold iloc_series. rewrite Hv. by eexists.
Qed.

Lemma iloc_Ok (df : DataFrame) ind :
  rectangular df →
  Forall (λ i, i < nrows df) ind →
  ∃ df', iloc df ind = Ok df'.
Proof.
  unfold rectangular. intros Hrect Hind.
  destruct (mapM_Ok_Forall2
              (λ '(c, s), s' ← iloc_series s ind; Ok (c, s')) df)
    as (df' & Hdf & _); [|by exists df'].
  eapply Forall_impl; [exact Hrect|]. intros [c s] Hlen.
  destruct (iloc_series_Ok s ind) as [s' ->]; [by rewrite Hlen|].
  by eexists.
Qed.

(** X10. What the split cell hands to the write cell.  Whenever it
    returns, the train and test frames have the columns of the input, the
    two label columns it returns are the [y_target] columns of these
    frames, both frames have rows, the records written for them (without
    header) are together a rearrangement of the records of the input
    frame, and the file written with a header is the header line followed
    by the file written without; the generator is left as it was. *)
Theorem split_cell_files (selected_df X_train X_test : DataFrame)
    (y_train y_test : Series) (g g' : rng) :
  split_cell selected_df g
  = (Ok ((X_train, X_test), (y_train, y_test)), g') →
  g' = g
  ∧ X_train.*1 = selected_df.*1
  ∧ X_test.*1 = selected_df.*1
  ∧ getitem X_train "y_target" = Ok y_train
  ∧ getitem X_test "y_target" = Ok y_test
  ∧ to_csv_lines false X_train ≠ []
  ∧ to_csv_lines false X_test ≠ []
  ∧ to_csv_lines false X_train ++ to_csv_lines false X_test
    ≡ₚ to_csv_lines false selected_df
  ∧ to_csv true X_train
    = (string_of_list_ascii (csv_line selected_df.*1)
       ++ to_csv false X_train)%string.
Proof.
  unfold split_cell, train_test_split_frame.
  destruct (getitem selected_df "y_target") as [y|e] eqn:Hy; [|done].
  assert (selected_df ≠ []) as Hne by (by intros ->).
  destruct (decide _) as [Hlen|]; [|done].
  destruct (validate_shuffle_split _ _ _ _) as [[a b]|e] eqn:Ev; [|done].
  destruct (validate_fraction_inv _ _ _ _ _ Ev) as [Ha _].
  destruct (shuffle_split_indices _ _ _ _ _) as [[[ind_train ind_test]|e] g1]
    eqn:Ei; cbn [mbind result_bind]; [|done].
  destruct (shuffle_split_indices_Ok _ _ _ _ _ _ _ _ Ha Ei)
    as (Hperm & _ & Htr & Hte & Hg).
  destruct (iloc selected_df ind_train) as [Xtr|e] eqn:Extr;
    cbn [mbind result_bind]; [|done].
  destruct (iloc selected_df ind_test) as [Xte|e] eqn:Exte;
    cbn [mbind result_bind]; [|done].
  destruct (iloc_series y ind_train) as [ytr|e] eqn:Eytr;
    cbn [mbind result_bind]; [|done].
  destruct (iloc_series y ind_test) as [yte|e] eqn:Eyte;
    cbn [mbind result_bind]; [|done].
  intros [= <- <- <- <- <-].
  pose proof (to_csv_lines_iloc _ _ _ Hne Extr) as Ltr.
  pose proof (to_csv_lines_iloc _ _ _ Hne Exte) as Lte.
  split_and!.
  - by eapply Hg.
  - by eapply iloc_names.
  - by eapply iloc_names.
  - by eapply getitem_iloc.
  - by eapply getitem_iloc.
  - rewrite Ltr. by destruct ind_train.
  - rewrite Lte. by destruct ind_test.
  - rewrite Ltr, Lte, <- fmap_app, Hperm. done.
  - unfold to_csv, to_csv_lines. cbn [app fmap list_fmap concat].
    by rewrite string_of_list_ascii_app, (iloc_names _ _ _ Extr).
Qed.

(** X11. The split cell succeeds on every rectangular frame that has the
    target column and enough rows for ceil(0.2 * N) to lie strictly
    between 0 and N; the test frame then has ceil(0.2 * N) rows and the
    train frame the others. *)
Theorem split_cell_succeeds (selected_df : DataFrame) (g : rng) (k : Z) :
  rectangular selected_df →
  "y_target" ∈ selected_df.*1 →
  float_ceil (test_size_020 * float_of_Z (Z.of_nat (nrows selected_df)))
  = Some k →
  (0 < k < Z.of_nat (nrows selected_df))%Z →
  ∃ X_train X_test y_train y_test,
    split_cell selected_df g
    = (Ok ((X_train, X_test), (y_train, y_test)), g)
    ∧ nrows X_test = Z.to_nat k
    ∧ nrows X_train = nrows selected_df - Z.to_nat k.
Proof.
  intros Hrect Hy Hceil Hk. unfold split_cell, train_test_split_frame.
  destruct (getitem_elem_Ok _ _ Hy) as [y Ey]. rewrite Ey.
  assert (selected_df ≠ []) as Hne by (intros ->; by apply elem_of_nil in Hy).
  pose proof (getitem_length _ _ _ Hrect Ey) as Hylen.
  rewrite decide_True by done.
  rewrite (validate_fraction _ _ k) by first [done|by vm_compute|lia].
  unfold shuffle_split_indices. rewrite validate_counts by done.
  cbn [check_random_state]. rewrite bool_decide_eq_true_2 by done.
  pose proof (permutation_length (seed_rng 299) (nrows selected_df)) as Hlen.
  pose proof (permutation_bounded (seed_rng 299) (nrows selected_df)) as Hbnd.
  destruct (permutation (seed_rng 299) (nrows selected_df)) as [perm g1].
  cbn [fst] in Hlen, Hbnd.
  set (ind_test := take (Z.to_nat k) perm).
  set (ind_train :=
         take (Z.to_nat (Z.of_nat (nrows selected_df) - k))
              (drop (Z.to_nat k) perm)).
  assert (Forall (λ i, i < nrows selected_df) ind_train) as Hb1.
  { by apply Forall_take, Forall_drop. }
  assert (Forall (λ i, i < nrows selected_df) ind_test) as Hb2.
  { by apply Forall_take. }
  destruct (iloc_Ok _ _ Hrect Hb1) as [Xtr Extr].
  destruct (iloc_Ok _ _ Hrect Hb2) as [Xte Exte].
  destruct (iloc_series_Ok y ind_train) as [ytr Eytr]; [by rewrite Hylen|].
  destruct (iloc_series_Ok y ind_test) as [yte Eyte]; [by rewrite Hylen|].
  exists Xtr, Xte, ytr, yte. cbn [mbind result_bind].
  rewrite Extr, Exte. cbn [mbind result_bind].
  rewrite Eytr, Eyte. cbn [mbind result_bind].
  split_and!; [done| |].
  - rewrite (nrows_iloc _ _ _ Hne Exte). subst ind_test.
    rewrite length_take. lia.
  - rewrite (nrows_iloc _ _ _ Hne Extr). subst ind_train.
    rewrite length_take, length_drop. lia.
Qed.

(** X12. The CSV text determines the records: two non-empty frames that
    are written as the same text (with the same header flag) have the
    same header and the same field texts, row by row.  The quoting of
    commas, quotes and line feeds loses nothing. *)
Theorem to_csv_injective (header : bool) (df1 df2 : DataFrame) :
  df1 ≠ [] →
  df2 ≠ [] →
  to_csv header df1 = to_csv header df2 →
  to_csv_lines header df1 = to_csv_lines header df2.
Proof.
  intros Hne1 Hne2 Htext.
  pose proof (tokenize_to_csv header df1 Hne1) as Hread1.
  pose proof (tokenize_to_csv header df2 Hne2) as Hread2.
  rewrite Htext, Hread2 in Hread1. by injection Hread1.
Qed.

End SplitFrame.

(** ** The AutoML notebook *)

Section MonitorProperties.
Variable describe : nat → AutoML.describe_response.

Lemma monitor_loop_finished fuel st :
  AutoML.finished (AutoML.job_run_status st) = true →
  AutoML.monitor_loop describe fuel st = Some st.
Proof. intros Hfin. destruct fuel; cbn; by rewrite Hfin. Qed.

Lemma monitor_loop_run (d : nat) : ∀ (fuel c : nat) pr (sl : nat),
  (d ≤ fuel)%nat →
  (∀ j, (j < d)%nat →
        AutoML.finished (AutoML.AutoMLJobStatus (describe (c + j))) = false) →
  AutoML.finished (AutoML.AutoMLJobStatus (describe (c + d))) = true →
  AutoML.monitor_loop describe fuel
    {| AutoML.calls := S c; AutoML.printed := pr; AutoML.slept := sl;
       AutoML.job_run_status := AutoML.AutoMLJobStatus (describe c) |}
  = Some {| AutoML.calls := S (c + d);
            AutoML.printed :=
              pr ++ ((λ n, AutoML.status_line (describe n)) <$> seq (S c) d);
            AutoML.slept := (sl + 30 * d)%nat;
            AutoML.job_run_status :=
              AutoML.AutoMLJobStatus (describe (c + d)) |}.
Proof.
  induction d as [|d IH]; intros fuel c pr sl Hfuel Hbefore Hfin.
  - rewrite Nat.add_0_r in *. rewrite monitor_loop_finished by done.
    cbn. by rewrite app_nil_r, Nat.add_0_r.
  - destruct fuel as [|fuel]; [lia|].
    pose proof (Hbefore 0 ltac:(lia)) as H0. rewrite Nat.add_0_r in H0.
    cbn [AutoML.monitor_loop AutoML.job_run_status AutoML.calls
         AutoML.printed AutoML.slept].
    rewrite H0.
    rewrite (IH fuel (S c)).
    + f_equal. f_equal.
      * lia.
      * cbn [seq fmap list_fmap]. by rewrite <- app_assoc.
      * lia.
      * do 2 f_equal. lia.
    + lia.
    + intros j Hj. specialize (Hbefore (S j) ltac:(lia)).
      by rewrite <- Nat.add_succ_comm in Hbefore.
    + by rewrite <- Nat.add_succ_comm in Hfin.
Qed.

Lemma monitor_loop_None (fuel : nat) : ∀ (c : nat) pr (sl : nat),
  AutoML.monitor_loop describe fuel
    {| AutoML.calls := S c; AutoML.printed := pr; AutoML.slept := sl;
       AutoML.job_run_status := AutoML.AutoMLJobStatus (describe c) |} = None
  ↔ ∀ j, (j ≤ fuel)%nat →
         AutoML.finished (AutoML.AutoMLJobStatus (describe (c + j))) = false.
Proof.
  induction fuel as [|fuel IH]; intros c pr sl.
  - cbn.
    destruct (AutoML.finished (AutoML.AutoMLJobStatus (describe c))) eqn:Hc.
    + split; [done|]. intros Hall. specialize (Hall 0 ltac:(lia)).
      rewrite Nat.add_0_r in Hall. congruence.
    + split; [|done]. intros _ j Hj. replace j with 0 by lia.
      by rewrite Nat.add_0_r.
  - cbn [AutoML.monitor_loop AutoML.job_run_status AutoML.calls
         AutoML.printed AutoML.slept].
    destruct (AutoML.finished (AutoML.AutoMLJobStatus (describe c))) eqn:Hc.
    + split; [done|]. intros Hall. specialize (Hall 0 ltac:(lia)).
      rewrite Nat.add_0_r in Hall. congruence.
    + rewrite IH. split.
      * intros Hall [|j] Hj; [by rewrite Nat.add_0_r|].
        rewrite <- Nat.add_succ_comm. apply Hall. lia.
      * intros Hall j Hj. rewrite Nat.add_succ_comm. apply Hall. lia.
Qed.

(** X13. The monitoring cell stops at the first answer of the service
    whose status is Failed, Completed or Stopped.  If that is the answer
    to call number k (counting from 0), the cell has then made k + 1
    calls, printed the three header lines and one status line per call,
    slept 30 seconds after each of the k calls made inside the loop (also
    after the last, which already reported the end), and left the final
    status in [job_run_status]. *)
Theorem monitor_stops_at_first_final_status (auto_ml_job_name : string)
    (k fuel : nat) :
  AutoML.finished (AutoML.AutoMLJobStatus (describe k)) = true →
  (∀ j, (j < k)%nat →
        AutoML.finished (AutoML.AutoMLJobStatus (describe j)) = false) →
  (k ≤ fuel)%nat →
  AutoML.monitor describe auto_ml_job_name fuel
  = Some {| AutoML.calls := S k;
            AutoML.printed :=
              [ "JobStatus - Secondary Status";
                "------------------------------";
                ("AutoMLJobName: " ++ auto_ml_job_name)%string ]
              ++ ((λ n, AutoML.status_line (describe n)) <$> seq 0 (S k));
            AutoML.slept := (30 * k)%nat;
            AutoML.job_run_status := AutoML.AutoMLJobStatus (describe k) |}.
Proof.
  intros Hfin Hbefore Hfuel. unfold AutoML.monitor.
  rewrite (monitor_loop_run k fuel 0) by done. cbn [plus]. f_equal.
Qed.

(** X14. The monitoring cell is still running after [fuel] iterations
    exactly when none of the first [fuel + 1] answers has a final status:
    a job that stays in a status such as Stopping or InProgress keeps the
    cell polling for ever, and any final status ends it. *)
Theorem monitor_runs_while_not_final (auto_ml_job_name : string)
    (fuel : nat) :
  AutoML.monitor describe auto_ml_job_name fuel = None
  ↔ ∀ j, (j ≤ fuel)%nat →
         AutoML.finished (AutoML.AutoMLJobStatus (describe j)) = false.
Proof. unfold AutoML.monitor. by rewrite (monitor_loop_None fuel 0). Qed.

End MonitorProperties.

(** X15. On a best candidate with at least three containers whose
    containers 1 and 2 have an environment, the cell raises nothing and
    changes exactly this: container 1 gets the inference output key,
    container 2 the inference input and output keys, all set to
    [predicted_label,probability]; images, model data, the other keys and
    the other containers stay as they were.  Running the cell again
    changes nothing more. *)
Theorem set_inference_io_updates (c0 c1 c2 : AutoML.container)
    (rest : list AutoML.container) (env1 env2 : gmap string string) :
  AutoML.Environment c1 = Some env1 →
  AutoML.Environment c2 = Some env2 →
  let updated :=
    c0
    :: {| AutoML.Image := AutoML.Image c1;
          AutoML.ModelDataUrl := AutoML.ModelDataUrl c1;
          AutoML.Environment :=
            Some (<["SAGEMAKER_INFERENCE_OUTPUT" :=
                      "predicted_label,probability"]> env1) |}
    :: {| AutoML.Image := AutoML.Image c2;
          AutoML.ModelDataUrl := AutoML.ModelDataUrl c2;
          AutoML.Environment :=
            Some (<["SAGEMAKER_INFERENCE_OUTPUT" :=
                      "predicted_label,probability"]>
                    (<["SAGEMAKER_INFERENCE_INPUT" :=
                         "predicted_label,probability"]> env2)) |}
    :: rest in
  AutoML.set_inference_io (c0 :: c1 :: c2 :: rest) = (updated, None)
  ∧ AutoML.set_inference_io updated = (updated, None).
Proof.
  intros H1 H2 updated. subst updated.
  unfold AutoML.set_inference_io, AutoML.update_environment.
  cbn [AutoML.run_statements lookup list_lookup]. rewrite H1.
  cbn [AutoML.run_statements lookup list_lookup insert list_insert
       AutoML.Environment AutoML.Image AutoML.ModelDataUrl].
  rewrite H2.
  cbn [AutoML.run_statements lookup list_lookup insert list_insert
       AutoML.Environment AutoML.Image AutoML.ModelDataUrl].
  split; [done|]. do 3 f_equal.
  - by rewrite insert_insert_eq.
  - f_equal. do 2 f_equal.
    rewrite (insert_insert_ne _ "SAGEMAKER_INFERENCE_INPUT") by done.
    by rewrite !insert_insert_eq.
Qed.

(** X16. On a best candidate with fewer than three containers the cell
    raises [IndexError].  With two containers it does so at its second
    statement, after the first has already changed container 1: the
    candidate is left half updated.  With fewer, nothing is changed. *)
Theorem set_inference_io_too_few (containers : list AutoML.container) :
  (length containers < 3)%nat →
  (∀ c, containers !! 1 = Some c → is_Some (AutoML.Environment c)) →
  AutoML.set_inference_io containers
  = (match containers !! 1 with
     | Some c =>
         <[1 := {| AutoML.Image := AutoML.Image c; AutoML.ModelDataUrl := AutoML.ModelDataUrl c;
                   AutoML.Environment :=
                     (λ env, <["SAGEMAKER_INFERENCE_OUTPUT" :=
                                 "predicted_label,probability"]> env)
                     <$> AutoML.Environment c |}]> containers
     | None => containers
     end,
     Some IndexError).
Proof.
  intros Hlen Henv. unfold AutoML.set_inference_io, AutoML.update_environment.
  destruct containers as [|c0 [|c1 [|c2 rest]]]; [done|done| |cbn in Hlen; lia].
  destruct (Henv c1 eq_refl) as [env1 H1].
  cbn [AutoML.run_statements lookup list_lookup]. by rewrite H1.
Qed.


(** ** The LEI sample *)

Section LeiSampleProperties.
Context `{Float64} `{RandomStateLaws} {Row : Type} (country : Row → cell).

Lemma isin_cons c cs x :
  isin (c :: cs) x = isin [c] x || isin cs x.
Proof.
  destruct x as [s| | |]; cbn; try done.
  rewrite <- bool_decide_or. apply bool_decide_ext.
  rewrite !elem_of_cons, elem_of_nil. tauto.
Qed.

Lemma isin_singleton_elem c cs x :
  isin [c] x = true → c ∈ cs → isin cs x = true.
Proof.
  destruct x as [s| | |]; cbn; try done.
  intros Hs%bool_decide_eq_true Hc. apply elem_of_cons in Hs as [->|Hs].
  - by apply bool_decide_eq_true.
  - by apply elem_of_nil in Hs.
Qed.

Lemma loc_country_isin_cons (df : list Row) c cs :
  c ∉ cs →
  loc_country_isin country df (c :: cs)
  ≡ₚ loc_country_isin country df [c] ++ loc_country_isin country df cs.
Proof.
  intros Hc. unfold loc_country_isin.
  induction df as [|r df IH]; [done|].
  rewrite !filter_cons, isin_cons.
  destruct (isin [c] (country r)) eqn:E1;
    destruct (isin cs (country r)) eqn:E2; cbn.
  - exfalso. destruct (country r) as [s| | |]; try done. cbn in *.
    apply bool_decide_eq_true in E1, E2.
    apply elem_of_cons in E1 as [->|E1]; [done|by apply elem_of_nil in E1].
  - rewrite !decide_True, decide_False by tauto. cbn. by rewrite IH.
  - rewrite decide_True, decide_False, decide_True by tauto.
    rewrite IH. apply Permutation_middle.
  - by rewrite !decide_False by tauto.
Qed.

Lemma loc_country_isin_nil (df : list Row) :
  loc_country_isin country df [] = [].
Proof.
  unfold loc_country_isin. induction df as [|r df IH]; [done|].
  rewrite filter_cons, decide_False; [done|].
  destruct (country r); cbn; tauto.
Qed.

Lemma loc_country_isin_split (df : list Row) (cs : list string) :
  NoDup cs →
  concat ((λ c, loc_country_isin country df [c]) <$> cs)
  ≡ₚ loc_country_isin country df cs.
Proof.
  induction cs as [|c cs IH]; cbn; intros Hnd.
  - by rewrite loc_country_isin_nil.
  - apply NoDup_cons in Hnd as [Hc Hnd].
    rewrite (loc_country_isin_cons df c cs) by done. by rewrite IH.
Qed.

Lemma filter_all {A} (P : A → Prop) `{∀ x, Decision (P x)} (l : list A) :
  Forall P l → filter P l = l.
Proof.
  induction 1 as [|x l Hx _ IH]; [done|].
  by rewrite filter_cons, decide_True, IH.
Qed.

Lemma filter_none {A} (P : A → Prop) `{∀ x, Decision (P x)} (l : list A) :
  Forall (λ x, ¬ P x) l → filter P l = [].
Proof.
  induction 1 as [|x l Hx _ IH]; [done|].
  by rewrite filter_cons, decide_False.
Qed.

Lemma head_loc_Forall (df : list Row) n cs :
  Forall (λ r, isin cs (country r)) (head n (loc_country_isin country df cs)).
Proof.
  apply Forall_take, Forall_forall. intros r Hr.
  by apply list_elem_of_filter in Hr as [Hr _].
Qed.

Lemma loc_head_same (df : list Row) n c :
  loc_country_isin country (head n (loc_country_isin country df [c])) [c]
  = head n (loc_country_isin country df [c]).
Proof. apply filter_all, head_loc_Forall. Qed.

Lemma loc_head_other (df : list Row) n c c' :
  c ≠ c' →
  loc_country_isin country (head n (loc_country_isin country df [c'])) [c]
  = [].
Proof.
  intros Hne. apply filter_none.
  eapply Forall_impl; [apply head_loc_Forall|]. cbn. intros r.
  destruct (country r) as [s| | |]; cbn; try tauto.
  intros Hc'%bool_decide_unpack Hc%bool_decide_unpack.
  apply list_elem_of_singleton in Hc', Hc. congruence.
Qed.

Lemma loc_country_isin_app (df1 df2 : list Row) cs :
  loc_country_isin country (df1 ++ df2) cs
  = loc_country_isin country df1 cs ++ loc_country_isin country df2 cs.
Proof. apply filter_app. Qed.

Lemma quota_frames_loc_other (df : list Row) (quota : list (string * nat)) c :
  c ∉ quota.*1 →
  loc_country_isin country
    (concat ((λ '(c, n), head n (loc_country_isin country df [c])) <$> quota))
    [c]
  = [].
Proof.
  induction quota as [|[c0 n0] quota IH]; [done|].
  rewrite !fmap_cons. cbn [concat fst].
  intros Hc. apply not_elem_of_cons in Hc as [Hne Hc].
  rewrite loc_country_isin_app, loc_head_other by done. by apply IH.
Qed.

Lemma quota_frames_loc (df : list Row) (quota : list (string * nat)) c n :
  NoDup quota.*1 →
  (c, n) ∈ quota →
  loc_country_isin country
    (concat ((λ '(c, n), head n (loc_country_isin country df [c])) <$> quota))
    [c]
  = head n (loc_country_isin country df [c]).
Proof.
  induction quota as [|[c0 n0] quota IH]; intros Hnd Hin.
  { by apply elem_of_nil in Hin. }
  rewrite !fmap_cons in *. cbn [concat fst] in *.
  apply NoDup_cons in Hnd as [Hc0 Hnd].
  rewrite loc_country_isin_app.
  apply elem_of_cons in Hin as [[= -> ->]|Hin].
  - rewrite loc_head_same, quota_frames_loc_other by done.
    by rewrite app_nil_r.
  - assert (c ≠ c0) as Hne.
    { intros ->. apply Hc0. by apply (list_elem_of_fmap_2 fst) in Hin. }
    rewrite loc_head_other by done. by apply IH.
Qed.

Lemma quota_frames_submseteq (df : list Row) (quota : list (string * nat)) :
  concat ((λ '(c, n), head n (loc_country_isin country df [c])) <$> quota)
  ⊆+ concat ((λ c, loc_country_isin country df [c]) <$> quota.*1).
Proof.
  induction quota as [|[c n] quota IH]; [done|].
  rewrite !fmap_cons. cbn [concat fst].
  apply submseteq_app; [|done]. apply sublist_submseteq, sublist_take.
Qed.

Lemma shuffle_perm (df : list Row) (g : rng) :
  ∃ shuffled g',
    shuffle df g = (Ok shuffled, g') ∧ shuffled ≡ₚ df.
Proof.
  unfold shuffle.
  pose proof (permutation_bounded g (length df)) as Hbnd.
  pose proof (permutation_perm g (length df)) as Hperm.
  destruct (permutation g (length df)) as [indices g']. cbn [fst] in *.
  destruct (safe_indexing_Ok df indices Hbnd) as (rows & -> & Hrows).
  exists rows, g'. split; [done|]. by eapply lookup_rows_perm.
Qed.

(** X17. The LEI sample.  The shuffled concatenation is always produced;
    it is made of records of the selection by country (each taken at most
    as often as it occurs there), it has at most 2000 records, and for
    each of the seven countries it holds exactly as many records of that
    country as the quota allows: the quota, or all there are when there
    are fewer. *)
Theorem ml_prototype_sample (lei_full_df : list Row) (g : rng) :
  ∃ sample g',
    ml_prototype_df country lei_full_df g = (Ok sample, g')
    ∧ sample ⊆+ lei_selected_df country lei_full_df
    ∧ (length sample ≤ 2000)%nat
    ∧ Forall (λ '(c, n),
                length (loc_country_isin country sample [c])
                = n `min` length (loc_country_isin country lei_full_df [c]))
             lei_quota.
Proof.
  unfold ml_prototype_df.
  destruct (shuffle_perm (concat (frames country lei_full_df)) g)
    as (sample & g' & -> & Hperm).
  exists sample, g'. split; [done|].
  assert (frames country lei_full_df
          = (λ '(c, n), head n (loc_country_isin country lei_full_df [c]))
            <$> lei_quota) as Hframes by done.
  assert (NoDup lei_quota.*1) as Hnd.
  { apply (bool_decide_unpack _). by vm_compute. }
  split_and!.
  - rewrite Hperm, Hframes, quota_frames_submseteq.
    by rewrite loc_country_isin_split.
  - rewrite Hperm. unfold frames, us_df, ca_df, in_df, gb_df, th_df, mx_df,
      ie_df, head. cbn [concat]. rewrite !length_app, !length_take. cbn [length].
    repeat match goal with
           | |- context [?a `min` ?b] =>
               let H := fresh in
               pose proof (Nat.le_min_l a b) as H;
               generalize dependent (a `min` b); intros
           end.
    lia.
  - rewrite Forall_forall. intros [c n] Hin.
    unfold loc_country_isin at 1. rewrite Hperm.
    fold (loc_country_isin country (concat (frames country lei_full_df)) [c]).
    rewrite Hframes, (quota_frames_loc _ _ _ _ Hnd Hin).
    unfold head. by rewrite length_take.
Qed.

End LeiSampleProperties.

(** ** The synthetic BIC records *)

Lemma prefix_app pat s : String.prefix pat (pat ++ s)%string = true.
Proof.
  induction pat as [|a pat IH]; simpl; [by destruct s|].
  destruct (ascii_dec a a) as [_|Hne]; [exact IH|by destruct Hne].
Qed.

Lemma contains_prefix pat s : String.prefix pat s = true → contains pat s = true.
Proof.
  intros Hp. destruct s as [|a s].
  - change (contains pat "") with (String.prefix pat "" || false).
    by rewrite Hp.
  - change (contains pat (String a s))
      with (String.prefix pat (String a s) || contains pat s).
    by rewrite Hp.
Qed.

Lemma contains_app pat s1 s2 : contains pat (s1 ++ pat ++ s2)%string = true.
Proof.
  induction s1 as [|a s1 IH].
  - change (contains pat (pat ++ s2)%string = true).
    apply contains_prefix. apply prefix_app.
  - change (contains pat (String a (s1 ++ pat ++ s2)) = true).
    change (contains pat (String a (s1 ++ pat ++ s2)))
      with (String.prefix pat (String a (s1 ++ pat ++ s2))
            || contains pat (s1 ++ pat ++ s2)%string).
    rewrite IH. apply orb_true_r.
Qed.

Lemma random_bic_shape (bic country : string) :
  String.length bic = 8 →
  String.length country = 2 →
  let random_bic := (slice 0 4 bic ++ country ++ slice 6 8 bic)%string in
  String.length random_bic = 8
  ∧ slice 0 4 random_bic = slice 0 4 bic
  ∧ slice 4 6 random_bic = country
  ∧ slice 6 8 random_bic = slice 6 8 bic.
Proof.
  intros Hbic Hc.
  destruct bic as [|b1 [|b2 [|b3 [|b4 [|b5 [|b6 [|b7 [|b8 [|? ?]]]]]]]]];
    try done.
  by destruct country as [|c1 [|c2 [|? ?]]].
Qed.

Lemma countries_length c : c ∈ countries → String.length c = 2.
Proof.
  unfold countries. rewrite !elem_of_cons, elem_of_nil.
  intros [->|[->|[->|[->|[->|[->|[->|[]]]]]]]]; reflexivity.
Qed.

Lemma countries_tables c :
  c ∈ countries →
  is_Some (locale_map !! c) ∧ is_Some (countries_dict !! c).
Proof.
  unfold countries. rewrite !elem_of_cons, elem_of_nil.
  intros [->|[->|[->|[->|[->|[->|[->|[]]]]]]]];
    split; eexists; by vm_compute.
Qed.

Lemma dict_setitem_fresh {K V} `{EqDecision K} (d : list (K * V)) k v :
  k ∉ d.*1 → dict_setitem d k v = d ++ [(k, v)].
Proof.
  induction d as [|[k0 v0] d IH]; cbn; [done|].
  intros Hk. apply not_elem_of_cons in Hk as [Hne Hk].
  rewrite decide_False by done. by rewrite IH.
Qed.

Section CreateDataProperties.
Context `{FakerLaws}.

Lemma create_record_Ok (f : faker) :
  ∃ r f',
    create_record f = Ok (r, f')
    ∧ COUNTRY_NAME r ∈ countries
    ∧ countries_dict !! COUNTRY_NAME r = Some (POB_COUNTRY_NAME r)
    ∧ (∃ bic, String.length bic = 8
              ∧ BIC_CODE r
                = (slice 0 4 bic ++ COUNTRY_NAME r ++ slice 6 8 bic)%string)
    ∧ LOCATION r = CITY_HEADING r
    ∧ POB_LOCATION r = CITY_HEADING r
    ∧ MODIFICATION_FLAG r ∈ mod_flags
    ∧ (PHYSICAL_ADDRESS_2 r = ""
       ∨ ∃ kind number,
           kind ∈ ["BUILDING"; "SHOP"; "UNIT"]
           ∧ PHYSICAL_ADDRESS_2 r = (kind ++ " " ++ number)%string).
Proof.
  unfold create_record.
  pose proof (random_element_elem None countries f ltac:(done)) as Hc.
  destruct (random_element None countries f) as [country f1]. cbn [fst] in Hc.
  destruct (countries_tables _ Hc) as [[generator Hg] [country_name Hn]].
  rewrite Hg, Hn.
  pose proof (random_element_elem None mod_flags f1 ltac:(done)) as Hm.
  destruct (random_element None mod_flags f1) as [mod_flag f2].
  pose proof (swift_length generator f2) as Hbic.
  destruct (swift generator 8 f2) as [bic f3].
  destruct (company generator f3) as [institution f4].
  destruct (random_element None branch_info f4) as [branch f5].
  destruct (city generator f5) as [city_name f6].
  destruct (random_element None subtypes f6) as [subtype f7].
  destruct (random_element None value_added_services f7) as [services f8].
  destruct (random_element None extra_info f8) as [extra f9].
  destruct (street_address generator f9) as [address1 f10].
  pose proof (random_element_elem (Some generator) address2 f10 ltac:(done))
    as Ha.
  destruct (random_element (Some generator) address2 f10) as [addr2 f11].
  cbn [fst] in *.
  destruct (decide (addr2 = "")) as [->|Hne].
  - destruct (building_number generator f11) as [pob f12].
    eexists _, _. split; [done|].
    cbn [COUNTRY_NAME POB_COUNTRY_NAME BIC_CODE LOCATION CITY_HEADING
         POB_LOCATION MODIFICATION_FLAG PHYSICAL_ADDRESS_2].
    split_and!; try done; [by exists bic|by left].
  - destruct (building_number generator f11) as [number f12].
    destruct (building_number generator f12) as [pob f13].
    eexists _, _. split; [done|].
    cbn [COUNTRY_NAME POB_COUNTRY_NAME BIC_CODE LOCATION CITY_HEADING
         POB_LOCATION MODIFICATION_FLAG PHYSICAL_ADDRESS_2].
    split_and!; try done; [by exists bic|].
    right. exists addr2, number. split; [|done].
    unfold address2 in Ha. rewrite !elem_of_cons, elem_of_nil in Ha.
    rewrite !elem_of_cons, elem_of_nil. tauto.
Qed.

Lemma create_data_loop (P : Bank → Prop) :
  (∀ f r f', create_record f = Ok (r, f') → P r) →
  ∀ n start bank f,
    bank.*1 = seq 0 start →
    Forall P bank.*2 →
    ∃ bank' f',
      for_each (seq start n)
        (λ '(bank, f) i, '(record, f') ← create_record f;
                         Ok (dict_setitem bank i record, f'))
        (bank, f)
      = Ok (bank', f')
      ∧ bank'.*1 = seq 0 (start + n)
      ∧ Forall P bank'.*2.
Proof.
  intros HP. induction n as [|n IH]; intros start bank f Hkeys Hall.
  { exists bank, f. by rewrite Nat.add_0_r. }
  cbn [seq for_each].
  destruct (create_record_Ok f) as (r & f' & Hr & _).
  rewrite Hr. cbn [mbind result_bind].
  rewrite dict_setitem_fresh.
  2:{ rewrite Hkeys, elem_of_seq. lia. }
  destruct (IH (S start) (bank ++ [(start, r)]) f') as (bank' & f'' & Hrun & ? & ?).
  - rewrite fmap_app, Hkeys, seq_S. done.
  - rewrite fmap_app, Forall_app. split; [done|].
    repeat constructor. by eapply HP.
  - exists bank', f''. split_and!; [done| |done].
    by rewrite <- Nat.add_succ_comm.
Qed.

(** X18. [create_data(x)] always returns, with exactly the keys
    0 .. x-1 in this order (no key for x <= 0): neither table lookup can
    raise [KeyError].  In every record the country is one of the seven,
    [POB COUNTRY NAME] is its entry in [countries_dict] (while
    [COUNTRY NAME] holds the two-letter code), the three location fields
    hold the same city, and the second address line is empty or one of
    BUILDING, SHOP, UNIT followed by a space and a number. *)
Theorem create_data_records (x : Z) (f : faker) :
  ∃ bank f',
    create_data x f = Ok (bank, f')
    ∧ bank.*1 = seq 0 (Z.to_nat x)
    ∧ Forall (λ r,
                COUNTRY_NAME r ∈ countries
                ∧ countries_dict !! COUNTRY_NAME r = Some (POB_COUNTRY_NAME r)
                ∧ LOCATION r = CITY_HEADING r
                ∧ POB_LOCATION r = CITY_HEADING r
                ∧ (PHYSICAL_ADDRESS_2 r = ""
                   ∨ ∃ kind number,
                       kind ∈ ["BUILDING"; "SHOP"; "UNIT"]
                       ∧ PHYSICAL_ADDRESS_2 r
                         = (kind ++ " " ++ number)%string))
             bank.*2.
Proof.
  unfold create_data.
  apply (create_data_loop _) with (start := 0) (bank := []); [|done|done].
  intros f0 r f0' Hr.
  destruct (create_record_Ok f0) as (r' & f1 & Hr' & ? & ? & _ & ? & ? & _ & ?).
  rewrite Hr in Hr'. injection Hr' as <- <-. done.
Qed.

(** X19. Every BIC code that [create_data] builds is eight characters
    long and carries the two-letter code of the record's country at the
    positions 4 and 5; hence it contains the country code. *)
Theorem create_data_bic_codes (x : Z) (f f' : faker)
    (bank : list (nat * Bank)) :
  create_data x f = Ok (bank, f') →
  Forall (λ r,
            String.length (BIC_CODE r) = 8
            ∧ slice 4 6 (BIC_CODE r) = COUNTRY_NAME r
            ∧ contains (COUNTRY_NAME r) (BIC_CODE r) = true)
         bank.*2.
Proof.
  unfold create_data. intros Hrun.
  edestruct (create_data_loop
               (λ r, String.length (BIC_CODE r) = 8
                     ∧ slice 4 6 (BIC_CODE r) = COUNTRY_NAME r
                     ∧ contains (COUNTRY_NAME r) (BIC_CODE r) = true))
    with (start := 0) (bank := @nil (nat * Bank)) (n := Z.to_nat x) (f := f)
    as (bank' & f'' & Hrun' & _ & Hall); [|done|done|].
  - intros f0 r f0' Hr.
    destruct (create_record_Ok f0)
      as (r' & f1 & Hr' & Hc & _ & (bic & Hlen & Hbic) & _).
    rewrite Hr in Hr'. injection Hr' as <- <-.
    destruct (random_bic_shape bic (COUNTRY_NAME r) Hlen
                (countries_length _ Hc)) as (? & _ & ? & _).
    rewrite Hbic. split_and!; [done|done|apply contains_app].
  - rewrite Hrun in Hrun'. by injection Hrun' as <- <-.
Qed.

(** X20. The counting cell matches the country code anywhere in the BIC
    code, so for every country its count is at least the number of
    records of that country; it can be larger, when the bank code or the
    location code of another country's BIC happens to contain the two
    letters. *)
Theorem contains_count_at_least (x : Z) (f f' : faker)
    (bank : list (nat * Bank)) (c : string) :
  create_data x f = Ok (bank, f') →
  (length (filter (λ r, COUNTRY_NAME r = c) bank.*2)
   ≤ contains_count (bic_column bank) c)%nat.
Proof.
  unfold create_data. intros Hrun.
  edestruct (create_data_loop
               (λ r, contains (COUNTRY_NAME r) (BIC_CODE r) = true))
    with (start := 0) (bank := @nil (nat * Bank)) (n := Z.to_nat x) (f := f)
    as (bank' & f'' & Hrun' & _ & Hall); [|done|done|].
  - intros f0 r f0' Hr.
    destruct (create_record_Ok f0)
      as (r' & f1 & Hr' & Hc & _ & (bic & Hlen & Hbic) & _).
    rewrite Hr in Hr'. injection Hr' as <- <-.
    rewrite Hbic. apply contains_app.
  - rewrite Hrun in Hrun'. injection Hrun' as <- <-.
    unfold contains_count, bic_column.
    induction Hall as [|r l Hr _ IH]; [done|].
    rewrite fmap_cons, !filter_cons.
    destruct (decide (COUNTRY_NAME r = c)) as [<-|Hne].
    + rewrite decide_True by by rewrite Hr. cbn. lia.
    + destruct (decide _); cbn; lia.
Qed.

End CreateDataProperties.

(** X21. The counting cell never prints the counts it computes for the
    US, Canada, Great Britain, Thailand, Mexico and Ireland: every
    country line shows [in_shape].  In a namespace where [in_shape] was
    never assigned the cell stops with [NameError] at the first country
    line; otherwise the first three country lines show the value left by
    an earlier run and the last four the count for India. *)
Theorem count_cell_prints_in_shape (bics : list string)
    (namespace : gmap string nat) :
  let unique :=
    ("Unique BICs: " ++ str_of_Z (Z.of_nat (length (remove_dups bics))))%string
  in
  let shape (rows : nat) := str_of_Z (Z.of_nat rows) in
  let india := contains_count bics "IN" in
  count_cell bics namespace
  = match namespace !! "in_shape" with
    | None => ([unique; unique], NameError "in_shape")
    | Some stale =>
        ([ unique; unique;
           ("US BICs: " ++ shape stale)%string;
           ("Canada BICs: " ++ shape stale)%string;
           ("Great Britain BICs: " ++ shape stale)%string;
           ("India BICs: " ++ shape india)%string;
           ("Thailand BICs: " ++ shape india)%string;
           ("Mexico BICs: " ++ shape india)%string;
           ("Ireland BICs: " ++ shape india)%string ],
         Finished)
    end.
Proof.
  intros unique shape india. unfold count_cell, count_statements.
  cbn [run_count app].
  repeat first [rewrite lookup_insert_eq|rewrite lookup_insert_ne by done].
  by destruct (namespace !! "in_shape").
Qed.

(** ** The properties above, on the sample data *)

Lemma counter_faker_laws : @FakerLaws counter_faker.
Proof.
  split.
  - intros locale elements n Hne. cbn.
    assert (n `mod` length elements < length elements)%nat as Hlt.
    { apply Nat.mod_upper_bound. by destruct elements. }
    apply lookup_lt_is_Some in Hlt as [x Hx]. rewrite Hx. cbn.
    by eapply list_elem_of_lookup_2.
  - intros locale n. cbn. by destruct (Nat.even n).
Qed.

Section PipelineOnSample.
#[local] Existing Instance sample_float64.

Lemma sample_raw_df_has_fts : Forall (λ c, c ∈ sample_raw_df.*1) fts.
Proof. apply (bool_decide_unpack _). by vm_compute. Defined.

Lemma sample_raw_df_rectangular : rectangular sample_raw_df.
Proof. unfold rectangular. repeat constructor. Defined.

Lemma sample_df_rectangular : rectangular sample_df.
Proof. unfold rectangular. repeat constructor. Defined.

Lemma select_fields_columns_witness :
  Forall (λ c, c ∈ sample_raw_df.*1) fts
  ∧ ∃ df',
      select_fields sample_raw_df fts = Ok df'
      ∧ df'.*1 = fts
      ∧ rectangular df'
      ∧ nrows df' = 3.
Proof.
  split; [exact sample_raw_df_has_fts|].
  destruct (@select_fields_columns sample_float64 sample_raw_df fts
              sample_raw_df_has_fts) as (df' & Hsel & Hnames & _ & Hrect).
  destruct (Hrect sample_raw_df_rectangular ltac:(done)) as [Hr Hn].
  exists df'. by split_and!.
Defined.

Lemma select_fields_missing_witness :
  "zzz" ∈ ["country"; "zzz"]
  ∧ ("zzz" ∉ mixed_df.*1)
  ∧ ∃ c', select_fields mixed_df ["country"; "zzz"] = Raise (KeyError c').
Proof.
  assert ("zzz" ∈ ["country"; "zzz"]) as Hin.
  { apply (bool_decide_unpack _). by vm_compute. }
  assert ("zzz" ∉ mixed_df.*1) as Hnot.
  { apply (bool_decide_unpack _). by vm_compute. }
  split_and!; [done|done|].
  destruct (@select_fields_missing sample_float64 mixed_df
              ["country"; "zzz"] "zzz" Hin Hnot) as (c' & Hsel & _).
  by exists c'.
Defined.

Lemma prepare_columns_witness :
  Forall (λ c, c ∈ sample_raw_df.*1) fts
  ∧ ∃ out,
      prepare sample_raw_df = Ok out
      ∧ out.*1 = sample_df.*1
      ∧ getitem out "y_target" = getitem sample_raw_df "y_target".
Proof.
  split; [exact sample_raw_df_has_fts|].
  destruct (@prepare_columns sample_float64 sample_raw_df
              sample_raw_df_has_fts) as (out & Hout & Hnames & Hy & _).
  exists out. by split_and!.
Defined.

Lemma assign_types_shape_witness :
  ∃ df1,
    assign_types mixed_schema mixed_df = Ok df1
    ∧ df1.*1 = mixed_df.*1
    ∧ getitem df1 "missing" = getitem mixed_df "missing".
Proof.
  destruct (assign_types mixed_schema mixed_df) as [df1|e] eqn:E;
    [|by vm_compute in E].
  destruct (@assign_types_shape sample_float64
              mixed_schema mixed_df df1 E) as (Hnames & _ & _ & Hkeep).
  exists df1. split_and!; [done|done|]. apply Hkeep.
  apply (bool_decide_unpack _). by vm_compute.
Defined.

Lemma assign_types_missing_field_witness :
  dtls_cd ∈ schema_fields notebook_schema
  ∧ (dtls_cd ∉ mixed_df.*1)
  ∧ ∃ e, assign_types notebook_schema mixed_df = Raise e
         ∧ error_kind_of e = SchemaMismatch.
Proof.
  assert (dtls_cd ∈ schema_fields notebook_schema) as Hin.
  { apply (bool_decide_unpack _). by vm_compute. }
  assert (dtls_cd ∉ mixed_df.*1) as Hnot.
  { apply (bool_decide_unpack _). by vm_compute. }
  split_and!; [done|done|].
  destruct (@assign_types_missing_field sample_float64
              notebook_schema mixed_df dtls_cd Hin Hnot) as (e & He & Hkind).
  destruct (Hkind eq_refl eq_refl) as (c' & _ & _ & _ & Hk).
  by exists e.
Defined.

Lemma missing_numeric_stays_missing_witness :
  NoDup (schema_fields mixed_schema)
  ∧ NoDup mixed_df.*1
  ∧ "amount" ∈ numeric_fts mixed_schema
  ∧ mixed_df !! 2 = Some ("amount", sample_amount_column)
  ∧ values sample_amount_column !! 1 = Some (Flt F_nan)
  ∧ ∃ df1 s1,
      assign_types mixed_schema mixed_df = Ok df1
      ∧ df1 !! 2 = Some ("amount", s1)
      ∧ values s1 !! 1 = Some (Flt F_nan)
      ∧ csv_row df1 1 !! 2 = Some "".
Proof.
  assert (NoDup (schema_fields mixed_schema)) as H1.
  { apply (bool_decide_unpack _). by vm_compute. }
  assert (NoDup mixed_df.*1) as H2.
  { apply (bool_decide_unpack _). by vm_compute. }
  assert ("amount" ∈ numeric_fts mixed_schema) as H3.
  { apply (bool_decide_unpack _). by vm_compute. }
  split_and!; [done|done|done|done|done|].
  destruct (assign_types mixed_schema mixed_df) as [df1|e] eqn:E;
    [|by vm_compute in E].
  destruct (@missing_numeric_stays_missing sample_float64 sample_float64_laws
              mixed_schema mixed_df df1 "amount" sample_amount_column 1 2
              H1 H2 H3 eq_refl eq_refl E) as (s1 & ? & ? & ? & ?).
  by exists df1, s1.
Defined.

Lemma integer_field_rejects_witness :
  NoDup (schema_fields integer_amount_schema)
  ∧ Forall (λ c, c ∈ mixed_df.*1) (schema_fields integer_amount_schema)
  ∧ "amount" ∈ integer_fts integer_amount_schema
  ∧ getitem mixed_df "amount" = Ok sample_amount_column
  ∧ values sample_amount_column !! 1 = Some (Flt F_nan)
  ∧ ∃ e, assign_types integer_amount_schema mixed_df = Raise e
         ∧ error_kind_of e = TypeCoercionError.
Proof.
  assert (NoDup (schema_fields integer_amount_schema)) as H1.
  { apply (bool_decide_unpack _). by vm_compute. }
  assert (Forall (λ c, c ∈ mixed_df.*1) (schema_fields integer_amount_schema))
    as H2.
  { apply (bool_decide_unpack _). by vm_compute. }
  assert ("amount" ∈ integer_fts integer_amount_schema) as H3.
  { apply (bool_decide_unpack _). by vm_compute. }
  split_and!; [done|done|done|done|done|].
  apply (@integer_field_rejects sample_float64 sample_float64_laws
           integer_amount_schema mixed_df "amount" sample_amount_column 1
           (@Flt sample_float64 F_nan) H1 H2 H3 eq_refl eq_refl).
  by left.
Defined.

Lemma split_parts_witness :
  ∃ train test,
    @split counter_rng nat (seq 0 10) test_size_020 299 0%Z
    = (Ok (train, test), 0%Z)
    ∧ train ≠ [] ∧ test ≠ []
    ∧ train ++ test ≡ₚ seq 0 10
    ∧ length test = 2.
Proof.
  destruct (@split counter_rng nat (seq 0 10) test_size_020 299 0%Z)
    as [[[train test]|e] g'] eqn:E; [|by vm_compute in E].
  destruct (@split_parts counter_rng counter_rng_laws nat (seq 0 10) train
              test test_size_020 299 0%Z g' E)
    as (Htr & Hte & Hperm & Hceil & ->).
  exists train, test. split_and!; [done|done|done|done|].
  assert (float_ceil
            (test_size_020 * float_of_Z (Z.of_nat (length (seq 0 10))))
          = Some 2%Z) as Hc by by vm_compute.
  rewrite Hc in Hceil. injection Hceil as Hlen. lia.
Defined.

Lemma split_too_small_witness :
  (length [7] ≤ 1)%nat
  ∧ ∃ what,
      @split counter_rng nat [7] test_size_020 299 0%Z
      = (Raise (ValueError what), 0%Z).
Proof.
  split; [cbn; lia|].
  apply (@split_too_small counter_rng nat [7] 299 0%Z). cbn. lia.
Defined.

Lemma split_cell_files_witness :
  ∃ X_train X_test y_train y_test,
    @split_cell sample_float64 counter_rng sample_df 0%Z
    = (Ok ((X_train, X_test), (y_train, y_test)), 0%Z)
    ∧ getitem X_train "y_target" = Ok y_train
    ∧ getitem X_test "y_target" = Ok y_test
    ∧ to_csv_lines false X_train ++ to_csv_lines false X_test
      ≡ₚ to_csv_lines false sample_df.
Proof.
  destruct (@split_cell sample_float64 counter_rng sample_df 0%Z)
    as [[[[X_train X_test] [y_train y_test]]|e] g'] eqn:E;
    [|by vm_compute in E].
  destruct (@split_cell_files sample_float64 counter_rng counter_rng_laws
              sample_df X_train X_test y_train y_test 0%Z g' E)
    as (-> & _ & _ & Hy1 & Hy2 & _ & _ & Hperm & _).
  exists X_train, X_test, y_train, y_test.
  split_and!; [reflexivity|exact Hy1|exact Hy2|exact Hperm].
Defined.

Lemma split_cell_succeeds_witness :
  rectangular sample_df
  ∧ "y_target" ∈ sample_df.*1
  ∧ float_ceil (test_size_020 * float_of_Z (Z.of_nat (nrows sample_df)))
    = Some 1%Z
  ∧ (0 < 1 < Z.of_nat (nrows sample_df))%Z
  ∧ ∃ X_train X_test y_train y_test,
      @split_cell sample_float64 counter_rng sample_df 0%Z
      = (Ok ((X_train, X_test), (y_train, y_test)), 0%Z)
      ∧ nrows X_test = 1
      ∧ nrows X_train = 2.
Proof.
  assert ("y_target" ∈ sample_df.*1) as Hy.
  { apply (bool_decide_unpack _). by vm_compute. }
  assert (float_ceil (test_size_020 * float_of_Z (Z.of_nat (nrows sample_df)))
          = Some 1%Z) as Hceil by by vm_compute.
  assert (0 < 1 < Z.of_nat (nrows sample_df))%Z as Hk by (cbn; lia).
  split; [exact sample_df_rectangular|].
  split; [done|]. split; [done|]. split; [done|].
  apply (@split_cell_succeeds sample_float64 counter_rng counter_rng_laws
           sample_df 0%Z 1%Z
           sample_df_rectangular Hy Hceil Hk).
Defined.

Lemma to_csv_injective_witness :
  [("count", object_column [Int 5])] ≠ []
  ∧ [("count", object_column [Str "5"])] ≠ []
  ∧ to_csv true [("count", object_column [Int 5])]
    = to_csv true [("count", object_column [Str "5"])]
  ∧ to_csv_lines true [("count", object_column [Int 5])]
    = to_csv_lines true [("count", object_column [Str "5"])].
Proof.
  split_and!; [done|done|by vm_compute|].
  apply (@to_csv_injective sample_float64 true
           [("count", object_column [Int 5])]
           [("count", object_column [Str "5"])]); [done|done|by vm_compute].
Defined.

Lemma ml_prototype_sample_witness :
  ∃ sample g',
    @ml_prototype_df sample_float64 counter_rng cell (λ c, c) sample_lei_df 0%Z
    = (Ok sample, g')
    ∧ sample ⊆+ lei_selected_df (λ c, c) sample_lei_df
    ∧ (length sample ≤ 2000)%nat.
Proof.
  destruct (@ml_prototype_sample sample_float64 counter_rng counter_rng_laws
              cell (λ c, c) sample_lei_df 0%Z)
    as (sample & g' & ? & ? & ? & _).
  by exists sample, g'.
Defined.

End PipelineOnSample.

Lemma monitor_stops_at_first_final_status_witness :
  AutoML.finished
    (AutoML.AutoMLJobStatus (AutoML.sample_describe 2)) = true
  ∧ AutoML.monitor AutoML.sample_describe "pacs008-automl-20-10-30-00" 5
    = Some {| AutoML.calls := 3;
              AutoML.printed :=
                [ "JobStatus - Secondary Status";
                  "------------------------------";
                  "AutoMLJobName: pacs008-automl-20-10-30-00";
                  "InProgress - AnalyzingData";
                  "InProgress - AnalyzingData";
                  "Completed - Completed" ];
              AutoML.slept := 60;
              AutoML.job_run_status := "Completed" |}.
Proof.
  split; [by vm_compute|].
  apply (monitor_stops_at_first_final_status AutoML.sample_describe
           "pacs008-automl-20-10-30-00" 2 5).
  - by vm_compute.
  - intros [|[|j]] Hj; [by vm_compute|by vm_compute|lia].
  - lia.
Defined.

Lemma set_inference_io_updates_witness :
  (AutoML.set_inference_io AutoML.sample_containers).2 = None
  ∧ ((AutoML.set_inference_io AutoML.sample_containers).1 !! 2
     ≫= AutoML.Environment)
    ≫= (λ env, env !! "SAGEMAKER_INFERENCE_INPUT")
    = Some "predicted_label,probability"
  ∧ ((AutoML.set_inference_io AutoML.sample_containers).1 !! 2
     ≫= AutoML.Environment)
    ≫= (λ env, env !! "AUTOML_TRANSFORM_MODE")
    = Some "feature-transform".
Proof.
  destruct (set_inference_io_updates
              (AutoML.sample_container "sklearn")
              (AutoML.sample_container "xgboost")
              (AutoML.sample_container "inverse-label") []
              {[ "AUTOML_TRANSFORM_MODE" := "feature-transform" ]}
              {[ "AUTOML_TRANSFORM_MODE" := "feature-transform" ]}
              eq_refl eq_refl) as [Hrun _].
  unfold AutoML.sample_containers. rewrite Hrun.
  split_and!; [reflexivity|by vm_compute|by vm_compute].
Defined.

Lemma set_inference_io_too_few_witness :
  (length (take 2 AutoML.sample_containers) < 3)%nat
  ∧ (AutoML.set_inference_io (take 2 AutoML.sample_containers)).2
    = Some IndexError
  ∧ ((AutoML.set_inference_io (take 2 AutoML.sample_containers)).1 !! 1
     ≫= AutoML.Environment)
    ≫= (λ env, env !! "SAGEMAKER_INFERENCE_OUTPUT")
    = Some "predicted_label,probability".
Proof.
  assert (length (take 2 AutoML.sample_containers) < 3)%nat as Hlen
    by (cbn; lia).
  split; [done|].
  rewrite (set_inference_io_too_few
             (take 2 AutoML.sample_containers) Hlen).
  - split; [reflexivity|by vm_compute].
  - intros c [= <-]. by eexists.
Defined.

Section CreateDataOnSample.
#[local] Existing Instance counter_faker.

Lemma create_data_records_witness :
  ∃ bank f',
    @create_data counter_faker 6 0%nat = Ok (bank, f')
    ∧ bank.*1 = [0; 1; 2; 3; 4; 5]
    ∧ Forall (λ r, COUNTRY_NAME r ∈ countries) bank.*2.
Proof.
  destruct (@create_data_records counter_faker counter_faker_laws 6 0%nat)
    as (bank & f' & Hrun & Hkeys & Hall).
  exists bank, f'. split_and!; [done|done|].
  eapply Forall_impl; [exact Hall|]. cbn. tauto.
Defined.

Lemma create_data_bic_codes_witness :
  ∃ bank f',
    @create_data counter_faker 6 0%nat = Ok (bank, f')
    ∧ bic_column bank
      = [ "DEUTUSFF"; "BUSYIE2L"; "BUSYTH2L"; "BUSYIN2L"; "BUSYUS2L";
          "BUSYMX2L" ]
    ∧ Forall (λ r, slice 4 6 (BIC_CODE r) = COUNTRY_NAME r) bank.*2.
Proof.
  destruct (@create_data counter_faker 6 0%nat) as [[bank f']|e] eqn:E;
    [|by vm_compute in E].
  pose proof (@create_data_bic_codes counter_faker counter_faker_laws 6 0%nat
                f' bank E) as Hall.
  exists bank, f'. split_and!; [done| |].
  - vm_compute in E. by injection E as <- <-.
  - eapply Forall_impl; [exact Hall|]. cbn. tauto.
Defined.

Lemma contains_count_at_least_witness :
  ∃ bank f',
    @create_data counter_faker 6 0%nat = Ok (bank, f')
    ∧ length (filter (λ r, COUNTRY_NAME r = "US") bank.*2) = 2
    ∧ contains_count (bic_column bank) "US" = 6
    ∧ (length (filter (λ r, COUNTRY_NAME r = "US") bank.*2)
       ≤ contains_count (bic_column bank) "US")%nat.
Proof.
  destruct (@create_data counter_faker 6 0%nat) as [[bank f']|e] eqn:E;
    [|by vm_compute in E].
  pose proof (@contains_count_at_least counter_faker counter_faker_laws 6
                0%nat f' bank "US" E) as Hle.
  exists bank, f'. split_and!; [done| | |done].
  - vm_compute in E. by injection E as <- <-.
  - vm_compute in E. by injection E as <- <-.
Defined.

End CreateDataOnSample.

(** ** From the labeled data to the training file *)

Section WholePipeline.
Context `{Float64Laws} `{RandomStateLaws}.

Lemma prepare_names (labeled_raw_df out : DataFrame) :
  prepare labeled_raw_df = Ok out →
  out.*1 = [ "y_target"; "Dbtr_PstlAdr_Ctry"; "Cdtr_PstlAdr_Ctry";
             "RgltryRptg_DbtCdtRptgInd"; "RgltryRptg_Authrty_Ctry";
             "RgltryRptg_Dtls_Cd"; "InstrForNxtAgt" ].
Proof.
  unfold prepare.
  destruct (select_fields labeled_raw_df fts) as [sel|e] eqn:Esel; [|done].
  destruct (select_fields_Ok _ _ _ Esel) as [Hnames _].
  cbn [mbind result_bind]. unfold rename_fields, rename.
  cbn [mbind result_bind]. rewrite assign_types_steps. intros Hrun.
  rewrite (steps_names _ _ _ Hrun).
  assert (((λ '(c, s), (default c (notebook_rename_map !! c), s)) <$> sel).*1
          = (λ c, default c (notebook_rename_map !! c)) <$> sel.*1) as ->.
  { rewrite <- !list_fmap_compose. apply list_fmap_ext. by intros i [c s] _. }
  rewrite Hnames. by vm_compute.
Qed.

Lemma csv_row_first (df : DataFrame) c s i :
  df.*1 !! 0 = Some c →
  getitem df c = Ok s →
  csv_row df i !! 0 = Some (from_option csv_field "" (values s !! i))
  ∧ length (csv_row df i) = length df.
Proof.
  destruct df as [|[c0 s0] df]; [done|]. cbn.
  intros [= ->]. rewrite decide_True by done. intros [= ->].
  split; [done|]. by rewrite length_fmap.
Qed.

Lemma label_first (df : DataFrame) (y : Series) :
  df.*1 !! 0 = Some "y_target" →
  getitem df "y_target" = Ok y →
  Forall2 (λ row c, length row = length df ∧ row !! 0 = Some (csv_field c))
          (to_csv_lines false df) (values y).
Proof.
  intros Hfirst Hy. unfold to_csv_lines. cbn [app].
  assert (nrows df = length (values y)) as ->.
  { destruct df as [|[c0 s0] df]; [done|]. cbn in *.
    injection Hfirst as ->. rewrite decide_True in Hy by done.
    by injection Hy as ->. }
  apply Forall2_same_length_lookup_2; [by rewrite length_fmap, length_seq|].
  intros i row c Hrow Hc. rewrite list_lookup_fmap in Hrow.
  destruct (seq 0 (length (values y)) !! i) as [i'|] eqn:Hi; [|done].
  apply lookup_seq in Hi as [-> _]. cbn in Hrow. injection Hrow as <-.
  destruct (csv_row_first df "y_target" y i Hfirst Hy) as [-> ->].
  by rewrite Hc.
Qed.

(** X22. From the labeled data to the training file.  After the select,
    rename and type-assignment cells, whatever codes the label encoder
    stores in [y_target], the records that the split and write cells put
    in the train and test files have seven fields each, and the first
    field of every record is the label of that record: the files hold
    the target in their first column. *)
Theorem training_files_label_first (labeled_raw_df out : DataFrame)
    (codes : Series) (X_train X_test : DataFrame) (y_train y_test : Series)
    (g g' : rng) :
  prepare labeled_raw_df = Ok out →
  split_cell (setitem out "y_target" codes) g
  = (Ok ((X_train, X_test), (y_train, y_test)), g') →
  Forall2 (λ row c, length row = 7 ∧ row !! 0 = Some (csv_field c))
          (to_csv_lines false X_train) (values y_train)
  ∧ Forall2 (λ row c, length row = 7 ∧ row !! 0 = Some (csv_field c))
            (to_csv_lines false X_test) (values y_test).
Proof.
  intros Hprep Hsplit.
  pose proof (prepare_names _ _ Hprep) as Hnames.
  assert ((setitem out "y_target" codes).*1 = out.*1) as Hset.
  { apply setitem_names. rewrite Hnames. by left. }
  unfold split_cell, train_test_split_frame in Hsplit.
  rewrite getitem_setitem in Hsplit.
  destruct (decide _) as [Hlen|]; [|done].
  destruct (validate_shuffle_split _ _ _ _) as [[a b]|e]; [|done].
  destruct (shuffle_split_indices _ _ _ _ _) as [[[ind_train ind_test]|e] g1];
    cbn [mbind result_bind] in Hsplit; [|done].
  destruct (iloc _ ind_train) as [Xtr|e] eqn:Extr;
    cbn [mbind result_bind] in Hsplit; [|done].
  destruct (iloc _ ind_test) as [Xte|e] eqn:Exte;
    cbn [mbind result_bind] in Hsplit; [|done].
  destruct (iloc_series codes ind_train) as [ytr|e] eqn:Eytr;
    cbn [mbind result_bind] in Hsplit; [|done].
  destruct (iloc_series codes ind_test) as [yte|e] eqn:Eyte;
    cbn [mbind result_bind] in Hsplit; [|done].
  injection Hsplit as <- <- <- <- <-.
  pose proof (iloc_names _ _ _ Extr) as Ntr.
  pose proof (iloc_names _ _ _ Exte) as Nte.
  rewrite Hset, Hnames in Ntr, Nte.
  pose proof (getitem_iloc _ _ _ _ _ _ Extr (getitem_setitem _ _ _) Eytr)
    as Gtr.
  pose proof (getitem_iloc _ _ _ _ _ _ Exte (getitem_setitem _ _ _) Eyte)
    as Gte.
  assert (length Xtr = 7) as Ltr.
  { by rewrite <- (length_fmap fst), Ntr. }
  assert (length Xte = 7) as Lte.
  { by rewrite <- (length_fmap fst), Nte. }
  split.
  - eapply Forall2_impl; [apply (label_first Xtr ytr)| ].
    + by rewrite Ntr.
    + done.
    + intros row c [Hl Hr]. by rewrite Hl, Ltr.
  - eapply Forall2_impl; [apply (label_first Xte yte)| ].
    + by rewrite Nte.
    + done.
    + intros row c [Hl Hr]. by rewrite Hl, Lte.
Qed.

End WholePipeline.

(** ** Running the rename cell again *)

Section RenameAgain.
Context `{Float64}.

(** X23. Running the rename cell a second time changes nothing, as long
    as no new name is itself a key of the rename map (as in the
    notebook's map, whose keys are the long names and whose values are
    the short ones). *)
Theorem rename_fields_again (df df1 : DataFrame)
    (rename_map : gmap string string) :
  (∀ old new, rename_map !! old = Some new → rename_map !! new = None) →
  rename_fields df rename_map = Ok df1 →
  rename_fields df1 rename_map = Ok df1.
Proof.
  intros Hfresh. unfold rename_fields, rename. intros [= <-]. f_equal.
  rewrite <- list_fmap_compose. apply list_fmap_ext. intros i [c s] _. cbn.
  f_equal. destruct (rename_map !! c) as [new|] eqn:Hc; cbn.
  - by rewrite (Hfresh _ _ Hc).
  - by rewrite Hc.
Qed.

End RenameAgain.

Section WholePipelineOnSample.
#[local] Existing Instance sample_float64.

Lemma training_files_label_first_witness :
  ∃ out X_train X_test y_train y_test,
    prepare sample_raw_df = Ok out
    ∧ @split_cell sample_float64 counter_rng
        (setitem out "y_target"
           {| dtype_of := DInt64; values := [Int 1; Int 0; Int 1] |}) 0%Z
      = (Ok ((X_train, X_test), (y_train, y_test)), 0%Z)
    ∧ Forall2 (λ row c, length row = 7 ∧ row !! 0 = Some (csv_field c))
              (to_csv_lines false X_train) (values y_train)
    ∧ to_csv_lines false X_train
      = [ ["0"; "IN"; "CA"; "DEBT"; "IN"; "00.P0006"; ""];
          ["1"; "MX"; "GB"; "nan"; "nan"; "nan"; ""] ].
Proof.
  destruct (prepare sample_raw_df) as [out|e] eqn:Eprep;
    [|by vm_compute in Eprep].
  destruct (@split_cell sample_float64 counter_rng
              (setitem out "y_target"
                 {| dtype_of := DInt64; values := [Int 1; Int 0; Int 1] |})
              0%Z)
    as [[[[X_train X_test] [y_train y_test]]|e] g'] eqn:E.
  - destruct (@training_files_label_first sample_float64 counter_rng
                sample_raw_df out _ X_train X_test y_train y_test 0%Z g'
                Eprep E) as [Htr _].
    exists out, X_train, X_test, y_train, y_test.
    vm_compute in Eprep. injection Eprep as <-.
    vm_compute in E. injection E as <- <- <- <- <-.
    split_and!; [reflexivity|reflexivity|exact Htr|by vm_compute].
  - vm_compute in Eprep. injection Eprep as <-. by vm_compute in E.
Defined.

Lemma rename_fields_again_witness :
  (∀ old new, notebook_rename_map !! old = Some new →
              notebook_rename_map !! new = None)
  ∧ ∃ df1,
      rename_fields sample_raw_df notebook_rename_map = Ok df1
      ∧ rename_fields df1 notebook_rename_map = Ok df1.
Proof.
  assert (∀ old new, notebook_rename_map !! old = Some new →
                     notebook_rename_map !! new = None) as Hfresh.
  { intros old new Hmap. apply elem_of_list_to_map_2 in Hmap.
    match type of Hmap with
    | _ ∈ ?pairs =>
        assert (Forall (λ p, notebook_rename_map !! p.2 = None) pairs)
          as Hall
    end.
    { apply (bool_decide_unpack _). by vm_compute. }
    rewrite Forall_forall in Hall. apply (Hall _ Hmap). }
  split; [exact Hfresh|].
  exists ((λ '(c, s), (default c (notebook_rename_map !! c), s))
          <$> sample_raw_df).
  split; [reflexivity|].
  by apply (@rename_fields_again sample_float64 sample_raw_df).
Defined.

End WholePipelineOnSample.
